(** * Secure-Bank: the authentication gate and the loan ledger of [server.js]

    A shallow embedding of the Express handlers of [src/server.js]
    (sign-up, sign-in, the bearer-token gate, take-loan, loan history and
    change-password) over an explicit model of the PostgreSQL tables they
    read and write, followed by the properties of the specification that
    concern them and by further properties of the handlers, of [initDb]
    and of the routes of cards and employees.

    Conventions of the embedding.
    - A JavaScript number is an IEEE-754 binary64 value: [spec_float] of the
      Standard Library at precision 53 and maximal exponent 1024, with its
      own addition, multiplication and comparison (rounding to nearest even,
      one NaN, two zeros).
    - A JavaScript string is a [string]; its characters are the code units
      below 256.
    - A value of a request body is a [jsval]; a missing field is
      [JUndefined]; a request may come without a body, and [req.body] is
      then [undefined].
    - The database is a record of tables (lists of typed rows, oldest
      first); a query returns rows as lists of named cells, as the [pg]
      driver does.
    - [bcryptjs], [jsonwebtoken] and the conversions done by the PostgreSQL
      server are interfaces (type classes): the handlers are defined over
      any implementation of them.
    - Every [db.query] may throw: the world carries the schedule of the
      failures to come, and a handler's [try]/[catch] turns a throw into
      the 500 response.
    - Requests are served one after the other.
    - The clock counts seconds; CURRENT_TIMESTAMP is finer, so of two rows
      stamped under the same reading of the clock the one inserted later is
      the newer.
    - The tables [cards] and [employees], which no route writes, form a
      directory of their own, read by [GET /api/cards] and
      [GET /api/employees] and seeded by [initDb].
    The static files, the uploads and the page the server sends are left
    out. *)

From Stdlib Require Import ZArith List String Ascii Bool Lia.
From Stdlib Require Import SpecFloat.
From stdpp Require Import base list sorting.
Import ListNotations.
Open Scope string_scope.
Open Scope list_scope.
Open Scope Z_scope.

(** ** JavaScript numbers *)

Module Num.

Definition prec : Z := 53.
Definition emax : Z := 1024.

Definition number := spec_float.

Definition nan : number := S754_nan.
Definition zero : number := S754_zero false.

Definition add : number -> number -> number := SFadd prec emax.
Definition mul : number -> number -> number := SFmul prec emax.
Definition ltb : number -> number -> bool := SFltb.
Definition eqb : number -> number -> bool := SFeqb.
Definition leb : number -> number -> bool := SFleb.

(** [x > y] of JavaScript: false as soon as one side is NaN. *)
Definition gtb (x y : number) : bool := ltb y x.

(** The number nearest to the rational [n / d] ([n >= 0], [d > 0]), with
    sign [neg]: the quotient is cut to the working precision with the
    position of the remainder, then rounded to nearest even. *)
Definition of_ratio (neg : bool) (n d : Z) : number :=
  match n with
  | Z0 => S754_zero neg
  | _ =>
      let '(q, e, l) := SFdiv_core_binary prec emax n 0 d 0 in
      binary_round_aux prec emax neg q e l
  end.

(** The number nearest to an integer. *)
Definition of_Z (z : Z) : number := of_ratio (z <? 0) (Z.abs z) 1.

(** The number nearest to [m * 10 ^ e] ([m >= 0]), with sign [neg]: the
    value of a decimal literal. *)
Definition of_decimal (neg : bool) (m e : Z) : number :=
  if 0 <=? e then of_ratio neg (m * 10 ^ e) 1 else of_ratio neg m (10 ^ (- e)).

(** [x < 0] *)
Definition negative (x : number) : bool := ltb x zero.

Definition is_nan (x : number) : bool :=
  match x with S754_nan => true | _ => false end.

Definition is_zero (x : number) : bool :=
  match x with S754_zero _ => true | _ => false end.

End Num.

Abbreviation number := Num.number.

(** ** Characters and the literals of [parseFloat] and [ToNumber] *)

Module Lex.

Definition code (c : ascii) : Z := Z.of_N (N_of_ascii c).

(** White space: TAB, LF, VT, FF, CR, SP and NBSP, the members of the
    [\s] class and of [StrWhiteSpaceChar] below 256. *)
Definition is_space (c : ascii) : bool :=
  let n := code c in
  ((9 <=? n) && (n <=? 13)) || (n =? 32) || (n =? 160).

Definition digit_of (c : ascii) : option Z :=
  let n := code c in
  if (48 <=? n) && (n <=? 57) then Some (n - 48) else None.

Fixpoint skip_spaces (s : list ascii) : list ascii :=
  match s with
  | c :: r => if is_space c then skip_spaces r else s
  | [] => []
  end.

(** The longest prefix of decimal digits, most significant first, and
    what follows it. *)
Fixpoint digits (s : list ascii) : list Z * list ascii :=
  match s with
  | c :: r =>
      match digit_of c with
      | Some d => let '(ds, r') := digits r in (d :: ds, r')
      | None => ([], s)
      end
  | [] => ([], [])
  end.

Definition value_in (base : Z) (ds : list Z) : Z :=
  fold_left (fun acc d => base * acc + d) ds 0.

Fixpoint strip_prefix (p s : list ascii) : option (list ascii) :=
  match p, s with
  | [], _ => Some s
  | a :: p', b :: s' => if Ascii.eqb a b then strip_prefix p' s' else None
  | _ :: _, [] => None
  end.

(** [ExponentPart]: [e] or [E], an optional sign, at least one digit.
    Returns the exponent and the rest; [(0, s)] when [s] starts with no
    exponent part. *)
Definition exponent_part (s : list ascii) : Z * list ascii :=
  match s with
  | c :: r =>
      if Ascii.eqb c "e" || Ascii.eqb c "E" then
        let '(neg, r1) :=
          match r with
          | "-"%char :: r' => (true, r')
          | "+"%char :: r' => (false, r')
          | _ => (false, r)
          end in
        match digits r1 with
        | ([], _) => (0, s)
        | (ds, r2) => ((if neg then - value_in 10 ds else value_in 10 ds), r2)
        end
      else (0, s)
  | [] => (0, s)
  end.

(** The longest prefix that is a [StrUnsignedDecimalLiteral], as the
    number it denotes under the sign [neg], and what follows it. *)
Definition unsigned_decimal (neg : bool) (s : list ascii)
  : option (number * list ascii) :=
  match strip_prefix (list_ascii_of_string "Infinity") s with
  | Some r => Some (S754_infinity neg, r)
  | None =>
      let '(ip, s1) := digits s in
      let '(fp, s2) :=
        match s1 with
        | "."%char :: r => digits r
        | _ => ([], s1)
        end in
      match ip, fp with
      | [], [] => None
      | _, _ =>
          let '(e, s3) := exponent_part s2 in
          Some (Num.of_decimal neg (value_in 10 (ip ++ fp))
                  (e - Z.of_nat (length fp)), s3)
      end
  end.

(** The longest prefix that is a [StrDecimalLiteral]. *)
Definition decimal_literal (s : list ascii) : option (number * list ascii) :=
  match s with
  | "-"%char :: r => unsigned_decimal true r
  | "+"%char :: r => unsigned_decimal false r
  | _ => unsigned_decimal false s
  end.

(** [parseFloat] of a string: leading white space is dropped, the longest
    decimal literal is read, anything after it is ignored. *)
Definition parse_float (s : string) : number :=
  match decimal_literal (skip_spaces (list_ascii_of_string s)) with
  | Some (x, _) => x
  | None => Num.nan
  end.

Definition hex_digit_of (c : ascii) : option Z :=
  let n := code c in
  if (48 <=? n) && (n <=? 57) then Some (n - 48)
  else if (97 <=? n) && (n <=? 102) then Some (n - 87)
  else if (65 <=? n) && (n <=? 70) then Some (n - 55)
  else None.

Fixpoint all_digits (base : Z) (s : list ascii) : option (list Z) :=
  match s with
  | [] => Some []
  | c :: r =>
      match hex_digit_of c, all_digits base r with
      | Some d, Some ds => if d <? base then Some (d :: ds) else None
      | _, _ => None
      end
  end.

(** [0x], [0o] and [0b] literals of [StringNumericLiteral]. *)
Definition radix_literal (s : list ascii) : option number :=
  match s with
  | "0"%char :: c :: (_ :: _) as r =>
      let base :=
        if Ascii.eqb c "x" || Ascii.eqb c "X" then Some 16
        else if Ascii.eqb c "o" || Ascii.eqb c "O" then Some 8
        else if Ascii.eqb c "b" || Ascii.eqb c "B" then Some 2
        else None in
      match base with
      | Some b =>
          match all_digits b r with
          | Some ds => Some (Num.of_Z (value_in b ds))
          | None => None
          end
      | None => None
      end
  | _ => None
  end.

(** [ToNumber] of a string: white space is dropped at both ends; the empty
    string is 0; the whole of what remains must be one numeric literal. *)
Definition to_number (s : string) : number :=
  let t := rev (skip_spaces (rev (skip_spaces (list_ascii_of_string s)))) in
  match t with
  | [] => Num.zero
  | _ =>
      match radix_literal t with
      | Some x => x
      | None =>
          match decimal_literal t with
          | Some (x, []) => x
          | _ => Num.nan
          end
      end
  end.

End Lex.

(** ** Values of a request body *)

(** A value of the object [express.json] and [express.urlencoded] put in
    [req.body]: a missing field reads as [undefined]; an array or a nested
    object is seen by the handlers only through its truth value, its type,
    its string conversion [str] and the text [param] the driver sends for
    it. *)
Inductive jsval :=
| JUndefined
| JNull
| JBool (b : bool)
| JNum (x : number)
| JStr (s : string)
| JObject (str param : string).

(** [!v] is [negb (truthy v)]. *)
Definition truthy (v : jsval) : bool :=
  match v with
  | JUndefined | JNull => false
  | JBool b => b
  | JNum x => negb (Num.is_zero x || Num.is_nan x)
  | JStr s => negb (String.eqb s "")
  | JObject _ _ => true
  end.

(** [parseFloat(x)] of a number: the string of a number reads back as the
    number; both zeros print as ["0"]. *)
Definition parseFloat_number (x : number) : number :=
  if Num.is_zero x then Num.zero else x.

(** [parseFloat(v)]: the argument is converted to a string, then read. *)
Definition parseFloat (v : jsval) : number :=
  match v with
  | JUndefined | JNull | JBool _ => Num.nan
  | JNum x => parseFloat_number x
  | JStr s => Lex.parse_float s
  | JObject str _ => Lex.parse_float str
  end.

(** [typeof v === 'string'], with the string. *)
Definition as_string (v : jsval) : option string :=
  match v with JStr s => Some s | _ => None end.

Definition body := list (string * jsval).

Fixpoint assoc {A : Type} (k : string) (l : list (string * A)) : option A :=
  match l with
  | [] => None
  | (k', v) :: r => if String.eqb k k' then Some v else assoc k r
  end.

(** [req.body.k] *)
Definition prop (b : body) (k : string) : jsval :=
  match assoc k b with Some v => v | None => JUndefined end.

(** ** Rows as the driver returns them *)

(** A cell of a result row: SQL NULL is [null]; an INTEGER is a number; a
    VARCHAR or TEXT is a string; a NUMERIC is a string, the decimal text
    of its value, here kept as the number this text denotes; a DATE or
    TIMESTAMP is a [Date]. *)
Inductive cell :=
| CNull
| CInt (z : Z)
| CText (s : string)
| CNumeric (x : number)
| CTime (t : Z).

Definition row := list (string * cell).

(** [r.c]; a column that is not in the row reads as [undefined], which the
    handlers do not tell from [null]. *)
Definition col (r : row) (c : string) : cell :=
  match assoc c r with Some v => v | None => CNull end.

Definition cell_truthy (c : cell) : bool :=
  match c with
  | CNull => false
  | CInt z => negb (z =? 0)
  | CText s => negb (String.eqb s "")
  | CNumeric _ => true
  | CTime _ => true
  end.

(** [ToNumber] of a cell. *)
Definition cell_to_number (c : cell) : number :=
  match c with
  | CNull => Num.zero
  | CInt z => Num.of_Z z
  | CText s => Lex.to_number s
  | CNumeric x => x
  | CTime t => Num.of_Z t
  end.

(** [parseFloat] of a cell. *)
Definition cell_parseFloat (c : cell) : number :=
  match c with
  | CNull => Num.nan
  | CInt z => Num.of_Z z
  | CText s => Lex.parse_float s
  | CNumeric x => x
  | CTime _ => Num.nan
  end.

(** [Number(c || d)], the left operand of [(c || d) * k]. *)
Definition number_or (c : cell) (d : number) : number :=
  if cell_truthy c then cell_to_number c else d.

(** [parseFloat(c || d)] *)
Definition parseFloat_or (c : cell) (d : number) : number :=
  if cell_truthy c then cell_parseFloat c else parseFloat_number d.

(** [SELECT c1, ..., cn]: the named columns of a full row, in this order. *)
Definition select (cols : list string) (r : row) : row :=
  flat_map (fun c => match assoc c r with Some v => [(c, v)] | None => [] end) cols.

Definition opt_cell {A : Type} (f : A -> cell) (o : option A) : cell :=
  match o with Some a => f a | None => CNull end.

(** ** Tables *)

(** [users], as [initDb] creates it. *)
Module Users.
Record t := mk {
  id : Z;
  name : string;
  email : string;
  password : string;
  monthly_income : option number;
  date_of_birth : option Z;
  address : option string;
  nid_picture : option string;
  balance : option number;
  created_at : option Z }.

Definition cells (u : t) : row :=
  [ ("id", CInt (id u)); ("name", CText (name u)); ("email", CText (email u));
    ("password", CText (password u));
    ("monthly_income", opt_cell CNumeric (monthly_income u));
    ("date_of_birth", opt_cell CTime (date_of_birth u));
    ("address", opt_cell CText (address u));
    ("nid_picture", opt_cell CText (nid_picture u));
    ("balance", opt_cell CNumeric (balance u));
    ("created_at", opt_cell CTime (created_at u)) ].

Definition set_balance (b : option number) (u : t) : t :=
  mk (id u) (name u) (email u) (password u) (monthly_income u)
     (date_of_birth u) (address u) (nid_picture u) b (created_at u).

Definition set_password (p : string) (u : t) : t :=
  mk (id u) (name u) (email u) p (monthly_income u)
     (date_of_birth u) (address u) (nid_picture u) (balance u) (created_at u).
End Users.

(** [loans], as [initDb] creates it. *)
Module Loans.
Record t := mk {
  id : Z;
  user_id : option Z;
  amount : number;
  status : option string;
  taken_at : option Z;
  paid_at : option Z }.

Definition cells (l : t) : row :=
  [ ("id", CInt (id l)); ("user_id", opt_cell CInt (user_id l));
    ("amount", CNumeric (amount l)); ("status", opt_cell CText (status l));
    ("taken_at", opt_cell CTime (taken_at l));
    ("paid_at", opt_cell CTime (paid_at l)) ].
End Loans.

(** ** The world a request runs in *)

Record world := World {
  users : list Users.t;          (* oldest row first *)
  loans : list Loans.t;
  users_id_seq : Z;              (* last value of the SERIAL sequences *)
  loans_id_seq : Z;
  clock : Z;                     (* the time, in seconds: CURRENT_TIMESTAMP, tokens *)
  faults : list bool;            (* for each query to come: does it throw? *)
  salts : list string }.         (* the salts [bcrypt.hash] will draw *)

Definition with_users (us : list Users.t) (w : world) : world :=
  World us (loans w) (users_id_seq w) (loans_id_seq w) (clock w) (faults w) (salts w).
Definition with_loans (ls : list Loans.t) (w : world) : world :=
  World (users w) ls (users_id_seq w) (loans_id_seq w) (clock w) (faults w) (salts w).
Definition with_users_id_seq (n : Z) (w : world) : world :=
  World (users w) (loans w) n (loans_id_seq w) (clock w) (faults w) (salts w).
Definition with_loans_id_seq (n : Z) (w : world) : world :=
  World (users w) (loans w) (users_id_seq w) n (clock w) (faults w) (salts w).
Definition with_clock (t : Z) (w : world) : world :=
  World (users w) (loans w) (users_id_seq w) (loans_id_seq w) t (faults w) (salts w).
Definition with_faults (fs : list bool) (w : world) : world :=
  World (users w) (loans w) (users_id_seq w) (loans_id_seq w) (clock w) fs (salts w).
Definition with_salts (ss : list string) (w : world) : world :=
  World (users w) (loans w) (users_id_seq w) (loans_id_seq w) (clock w) (faults w) ss.

(** ** Computations that read and write the world and may throw *)

Inductive result (A : Type) :=
| Ok (a : A)
| Thrown.
Arguments Ok {A} a.
Arguments Thrown {A}.

Definition M (A : Type) : Type := world -> result A * world.

Definition ret {A : Type} (a : A) : M A := fun w => (Ok a, w).

Definition throw {A : Type} : M A := fun w => (Thrown, w).

Definition bind {A B : Type} (m : M A) (k : A -> M B) : M B :=
  fun w =>
    match m w with
    | (Ok a, w') => k a w'
    | (Thrown, w') => (Thrown, w')
    end.

Notation "'await' x '<-' m ';;' k" := (bind m (fun x => k))
  (at level 10, x name, m at level 99, k at level 200).
Notation "'perform' m ';;' k" := (bind m (fun _ => k))
  (at level 10, m at level 99, k at level 200).

(** A value that may be missing where its absence throws. *)
Definition must {A : Type} (o : option A) : M A :=
  match o with Some a => ret a | None => throw end.

(** [try { a = m } catch (e) { h }], then [k a]. *)
Definition try_or {A B : Type} (m : M A) (h : M B) (k : A -> M B) : M B :=
  fun w =>
    match m w with
    | (Ok a, w') => k a w'
    | (Thrown, w') => h w'
    end.

(** [await db.query(...)]: the next entry of the schedule says whether the
    query throws, before it has any effect. *)
Definition pop_fault (w : world) : world := with_faults (tail (faults w)) w.

Definition query {A : Type} (q : M A) : M A :=
  fun w =>
    match faults w with
    | true :: _ => (Thrown, pop_fault w)
    | _ => q (pop_fault w)
    end.

(** ** The libraries and the store the server calls *)

(** [bcryptjs]: [bcrypt_hash p salt] is [bcrypt.hash(p, 10)] when the salt
    drawn is [salt]; [bcrypt_compare p h] is [bcrypt.compare(p, h)]. *)
Class Bcrypt := {
  bcrypt_hash : string -> string -> string;
  bcrypt_compare : string -> string -> bool }.

(** A string that is not empty and holds no white space. *)
Definition compact (s : string) : Prop :=
  s <> "" /\ Forall (fun c => Lex.is_space c = false) (list_ascii_of_string s).

(** [jsonwebtoken] under [JWT_SECRET]: [jwt_sign p now] is
    [jwt.sign(p, JWT_SECRET, { expiresIn: '24h' })] at time [now];
    [jwt_verify t now] is the payload [jwt.verify(t, JWT_SECRET)] returns at
    time [now], [None] when it throws. A string it accepts is a compact
    serialisation (three base64url segments joined by dots), so it is not
    empty and holds no white space. *)
Class Jwt := {
  jwt_sign : row -> Z -> string;
  jwt_verify : string -> Z -> option row;
  jwt_verify_compact :
    forall t now p, jwt_verify t now = Some p -> compact t }.

(** The range of an INTEGER. *)
Definition int4_min : Z := -2147483648.
Definition int4_max : Z := 2147483647.

(** What the driver and the PostgreSQL server do with a parameter:
    [number_text x] is the text sent for a number; [numeric_of_text s],
    [date_of_text s] and [integer_of_text s] are the value a NUMERIC, a DATE
    or an INTEGER takes from a text, [varchar255 s] the one a VARCHAR(255)
    column takes; [None] where the server raises an error. An INTEGER is
    within its range. *)
Class Pg := {
  number_text : number -> string;
  numeric_of_text : string -> option number;
  date_of_text : string -> option Z;
  integer_of_text : string -> option Z;
  varchar255 : string -> option string;
  integer_in_range :
    forall s z, integer_of_text s = Some z -> int4_min <= z <= int4_max }.

(** The value a NUMERIC column takes from a number: the number itself (its
    text denotes it); both zeros are sent as ["0"]. *)
Definition numeric_of_number (x : number) : number :=
  if Num.is_zero x then Num.zero else x.

(** The order of [ORDER BY taken_at DESC]: a row may come before another
    whose [taken_at] is not later; NULL sorts first. *)
Definition newer_first (a b : Loans.t) : bool :=
  match Loans.taken_at a, Loans.taken_at b with
  | None, _ => true
  | Some _, None => false
  | Some x, Some y => y <=? x
  end.

(** A sort that keeps the order of the rows it does not tell apart: each
    row is placed before the first row it may come before. *)
Fixpoint placed {A : Type} (le : A -> A -> bool) (x : A) (l : list A) : list A :=
  match l with
  | [] => [x]
  | y :: r => if le x y then x :: l else y :: placed le x r
  end.

Definition sorted_by {A : Type} (le : A -> A -> bool) (l : list A) : list A :=
  fold_right (placed le) [] l.

Section Server.

Context {bcrypt : Bcrypt} {jwt : Jwt} {pg : Pg}.

(** The text the driver sends for a value; [None] is SQL NULL. *)
Definition param_text (v : jsval) : option string :=
  match v with
  | JUndefined | JNull => None
  | JBool true => Some "true"
  | JBool false => Some "false"
  | JNum x => Some (number_text x)
  | JStr s => Some s
  | JObject _ p => Some p
  end.

(** [v || null] as a parameter. *)
Definition or_null (v : jsval) : jsval := if truthy v then v else JNull.

(** The conversions of the parameters of a column; the outer [None] is an
    error of the server, the inner one SQL NULL. *)
Definition to_varchar255 (v : jsval) : option (option string) :=
  match param_text v with
  | None => Some None
  | Some s => match varchar255 s with Some s' => Some (Some s') | None => None end
  end.

Definition to_numeric (v : jsval) : option (option number) :=
  match v with
  | JNum x => Some (Some (numeric_of_number x))
  | _ =>
      match param_text v with
      | None => Some None
      | Some s => match numeric_of_text s with Some x => Some (Some x) | None => None end
      end
  end.

Definition to_date (v : jsval) : option (option Z) :=
  match param_text v with
  | None => Some None
  | Some s => match date_of_text s with Some d => Some (Some d) | None => None end
  end.

(** The parameter compared with an INTEGER column ([WHERE id=$1]), for a
    value of a row or of the payload of a token: [null] is sent as NULL; an
    integer is sent as its digits, which the server reads back when they
    are in the range of INTEGER; a string is sent as it is, and any other
    number as its text, which the server reads as an INTEGER or refuses; a
    [Date] is sent as a text that is no INTEGER. The handlers send the
    [id] of a row, an integer; the payload of a token holds what was
    signed. *)
Definition int_param (c : cell) : option (option Z) :=
  match c with
  | CNull => Some None
  | CInt z => if (int4_min <=? z) && (z <=? int4_max) then Some (Some z) else None
  | CText s =>
      match integer_of_text s with Some z => Some (Some z) | None => None end
  | CNumeric x =>
      match integer_of_text (number_text x) with
      | Some z => Some (Some z)
      | None => None
      end
  | CTime _ => None
  end.

(** *** Queries *)

Definition id_is (p : option Z) (u : Users.t) : bool :=
  match p with Some z => Users.id u =? z | None => false end.

Definition email_is (p : option string) (u : Users.t) : bool :=
  match p with Some s => String.eqb (Users.email u) s | None => false end.

(** [SELECT cols FROM users WHERE ...] *)
Definition select_users (cols : list string) (where_ : Users.t -> bool)
  : M (list row) :=
  query (fun w =>
    (Ok (map (fun u => select cols (Users.cells u)) (List.filter where_ (users w))), w)).

Definition all_user_columns : list string :=
  ["id"; "name"; "email"; "password"; "monthly_income"; "date_of_birth";
   "address"; "nid_picture"; "balance"; "created_at"].

(** [INSERT INTO users (name, email, password, monthly_income,
    date_of_birth, address, nid_picture) VALUES (...)]: the parameters are
    converted, the next id is drawn, [name] and [email] are NOT NULL,
    [email] is UNIQUE, [balance] and [created_at] take their defaults. *)
Definition insert_user (name email : jsval) (hashed : string)
    (income dob address : jsval) (nid : option string) : M unit :=
  query (fun w =>
    match to_varchar255 name, to_varchar255 email, to_numeric income,
          to_date dob, param_text address with
    | Some n, Some e, Some i, Some d, a =>
        let w1 := with_users_id_seq (users_id_seq w + 1) w in
        match n, e with
        | Some n', Some e' =>
            if existsb (email_is (Some e')) (users w) then (Thrown, w1)
            else
              (Ok tt,
               with_users
                 (users w ++
                    [Users.mk (users_id_seq w + 1) n' e' hashed i d a nid
                       (Some (Num.of_Z 50000)) (Some (clock w))]) w1)
        | _, _ => (Thrown, w1)
        end
    | _, _, _, _, _ => (Thrown, w)
    end).

Definition loan_of (p : option Z) (l : Loans.t) : bool :=
  match p, Loans.user_id l with
  | Some z, Some z' => z' =? z
  | _, _ => false
  end.

(** [SELECT * FROM loans WHERE user_id=$1 ORDER BY taken_at DESC]: the
    rows of the user from the newest to the oldest. Of two rows with the
    same [taken_at], a reading of the clock in seconds, the one that comes
    later in the table was inserted later and is the newer: the rows are
    sorted from the last of the table to the first. *)
Definition select_loans_of (p : option Z) : M (list row) :=
  query (fun w =>
    (Ok (map Loans.cells
           (sorted_by newer_first (rev (List.filter (loan_of p) (loans w))))), w)).

(** [INSERT INTO loans (user_id, amount, status) VALUES ($1,$2,$3)]:
    [user_id] references [users(id)], and [taken_at] defaults to
    CURRENT_TIMESTAMP, kept as the reading of the clock; the row goes to
    the end of the table, after the rows stamped earlier under the same
    reading. *)
Definition insert_loan (p : option Z) (amt : number) (st : string) : M unit :=
  query (fun w =>
    let w1 := with_loans_id_seq (loans_id_seq w + 1) w in
    let known :=
      match p with
      | Some _ => existsb (id_is p) (users w)
      | None => true
      end in
    if known then
      (Ok tt,
       with_loans
         (loans w ++
            [Loans.mk (loans_id_seq w + 1) p (numeric_of_number amt) (Some st)
               (Some (clock w)) None]) w1)
    else (Thrown, w1)).

(** [UPDATE users SET balance=$1 WHERE id=$2] *)
Definition update_balance (b : number) (p : option Z) : M unit :=
  query (fun w =>
    (Ok tt,
     with_users
       (map (fun u => if id_is p u
                      then Users.set_balance (Some (numeric_of_number b)) u
                      else u) (users w)) w)).

(** [UPDATE users SET password=$1 WHERE id=$2] *)
Definition update_password (h : string) (p : option Z) : M unit :=
  query (fun w =>
    (Ok tt,
     with_users
       (map (fun u => if id_is p u then Users.set_password h u else u) (users w)) w)).

(** [bcrypt.hash(p, 10)]: throws unless [p] is a string; draws a salt. *)
Definition hash (p : jsval) : M string :=
  match as_string p with
  | None => throw
  | Some s =>
      fun w => (Ok (bcrypt_hash s (hd "" (salts w))), with_salts (tail (salts w)) w)
  end.

(** A VARCHAR or TEXT cell, where the code needs a string (the text of a
    NUMERIC cell is a string too; no handler passes one to [bcrypt]). *)
Definition text_of (c : cell) : option string :=
  match c with CText s => Some s | _ => None end.

(** [bcrypt.compare(p, h)]: throws unless both are strings. *)
Definition compare (p : jsval) (h : cell) : M bool :=
  match as_string p, text_of h with
  | Some s, Some d => ret (bcrypt_compare s d)
  | _, _ => throw
  end.

Definition now : M Z := fun w => (Ok (clock w), w).

(** A statement with the parameter [c] for an INTEGER column: when the
    server refuses [c] the statement throws and has no effect. *)
Definition with_id {A : Type} (c : cell) (q : option Z -> M A) : M A :=
  match int_param c with
  | Some p => q p
  | None => query throw
  end.

(** *** Requests and responses *)

(** [req.body] is the object the body parsers made of the body of the
    request; [None] is [undefined], which Express 5 leaves when the
    request brought no body they read (Express 4 leaves an empty
    object). *)
Record request := Request {
  authorization : option string;   (* req.headers.authorization *)
  req_body : option body;          (* req.body *)
  req_file : option string }.      (* req.file.filename, set by multer *)

Inductive msg :=
| Text (s : string)
| MaximumLoan (maxLoan : number).  (* `Maximum loan based on income is ${maxLoan}` *)

Inductive data :=
| NoData
| NewBalance (newBalance : number)
| Session (user : row) (token : string)
| User (user : row)
| LoanRows (rows : list row).

Record response := Response {
  status : Z;
  success : bool;
  message : option msg;
  payload : data }.

Definition fail (code : Z) (m : string) : response :=
  Response code false (Some (Text m)) NoData.

Definition server_error : response := fail 500 "Server error".

(** The outcomes the specification names, read off a response: the status
    and, where two outcomes share a status, the message. *)
Inductive outcome :=
| Succeeded
| InvalidInput
| DuplicateEmail
| InvalidCredentials
| Unauthenticated
| EligibilityExceeded (ceiling : number)
| StoreFailure.

Definition outcome_of (r : response) : outcome :=
  if success r then Succeeded
  else if status r =? 401 then
    match message r with
    | Some (Text m) =>
        if String.eqb m "Invalid email or password"
           || String.eqb m "Incorrect old password"
        then InvalidCredentials else Unauthenticated
    | _ => Unauthenticated
    end
  else if status r =? 400 then
    match message r with
    | Some (MaximumLoan c) => EligibilityExceeded c
    | Some (Text m) =>
        if String.eqb m "Email already registered" then DuplicateEmail
        else InvalidInput
    | None => InvalidInput
    end
  else StoreFailure.

(** [try { ... } catch (err) { res.status(500).json(...) }] *)
Definition try_catch (m : M response) (w : world) : response * world :=
  match m w with
  | (Ok r, w') => (r, w')
  | (Thrown, w') => (server_error, w')
  end.

(** *** The authentication gate *)

(** [verifyJwt] (lines 116-118): the payload, or a throw. *)
Definition verifyJwt (token : string) : M row :=
  fun w =>
    match jwt_verify token (clock w) with
    | Some decoded => (Ok decoded, w)
    | None => (Thrown, w)
    end.

(** [auth.replace(/^Bearer\s+/, '')] (line 124) *)
Definition strip_bearer (auth : string) : string :=
  match Lex.strip_prefix (list_ascii_of_string "Bearer") (list_ascii_of_string auth) with
  | Some (c :: r) =>
      if Lex.is_space c then string_of_list_ascii (Lex.skip_spaces r) else auth
  | _ => auth
  end.

(** What the gate does with a request: it answers, or it sets [req.user]
    and calls [next()]. *)
Inductive gate :=
| Answered (r : response)
| Next (user : row).

Definition gate_columns : list string :=
  ["id"; "name"; "email"; "monthly_income"; "balance"; "address"; "nid_picture"].

(** The view of a row of [users] that the gate attaches as [req.user]
    (lines 132 and 135). *)
Definition projected (u : Users.t) : row := select gate_columns (Users.cells u).

(** [authMiddleware] (lines 120-141) *)
Definition authMiddleware (req : request) (w : world) : gate * world :=
  let run : M gate :=
    match authorization req with
    | None => ret (Answered (fail 401 "Authorization header missing"))
    | Some auth =>
        if String.eqb auth "" then
          ret (Answered (fail 401 "Authorization header missing"))
        else
          let token := strip_bearer auth in
          try_or (verifyJwt token)
            (ret (Answered (fail 401 "Invalid or expired token")))
            (fun decoded =>
               await q <- with_id (col decoded "id")
                            (fun p => select_users gate_columns (id_is p)) ;;
               match q with
               | [] => ret (Answered (fail 401 "User not found"))
               | user :: _ => ret (Next user)
               end)
    end in
  match run w with
  | (Ok g, w') => (g, w')
  | (Thrown, w') => (Answered server_error, w')
  end.

(** [app.METHOD(path, authMiddleware, handler)]: the handler runs when the
    gate calls [next()]. *)
Definition guarded (handler : request -> row -> M response) (req : request)
    (w : world) : response * world :=
  match authMiddleware req w with
  | (Answered r, w') => (r, w')
  | (Next user, w') => try_catch (handler req user) w'
  end.

(** *** The routes *)

(** [POST /api/signup] (lines 150-170) and [POST /api/signup-with-file]
    (lines 173-195), which differ by the [nid_picture] column. *)
Definition signup_with (nid : option string) (req : request) : M response :=
  await b <- must (req_body req) ;;
  let name := prop b "name" in
  let email := prop b "email" in
  let password := prop b "password" in
  let income := prop b "income" in
  let dob := prop b "dob" in
  let address := prop b "address" in
  if negb (truthy name) || negb (truthy email) || negb (truthy password) then
    ret (fail 400 "Missing required fields")
  else
    await exists_ <- select_users ["id"] (email_is (param_text email)) ;;
    if (0 <? Z.of_nat (length exists_)) then
      ret (fail 400 "Email already registered")
    else
      await hashed <- hash password ;;
      perform insert_user name email hashed (or_null income) (or_null dob)
                (or_null address) nid ;;
      ret (Response 201 true (Some (Text "Account created successfully")) NoData).

Definition signup (req : request) : world -> response * world :=
  try_catch (signup_with None req).

Definition signup_with_file (req : request) : world -> response * world :=
  try_catch
    (signup_with
       (match req_file req with
        | Some filename => Some ("/uploads/" ++ filename)%string
        | None => None
        end) req).

(** [POST /api/signin] (lines 198-219) *)
Definition signin (req : request) : world -> response * world :=
  try_catch (
    await b <- must (req_body req) ;;
    let email := prop b "email" in
    let password := prop b "password" in
    if negb (truthy email) || negb (truthy password) then
      ret (fail 400 "Missing credentials")
    else
      await q <- select_users all_user_columns (email_is (param_text email)) ;;
      match q with
      | [] => ret (fail 401 "Invalid email or password")
      | user :: _ =>
          await ok <- compare password (col user "password") ;;
          if negb ok then ret (fail 401 "Invalid email or password")
          else
            await t <- now ;;
            let token :=
              jwt_sign [("id", col user "id"); ("email", col user "email")] t in
            let safeUser :=
              [("id", col user "id"); ("name", col user "name");
               ("email", col user "email");
               ("monthly_income", col user "monthly_income");
               ("balance", col user "balance");
               ("nid_picture", col user "nid_picture")] in
            ret (Response 200 true (Some (Text "Login successful"))
                   (Session safeUser token))
      end).

(** [GET /api/user] (lines 222-224) *)
Definition get_user : request -> world -> response * world :=
  guarded (fun req user => ret (Response 200 true None (User user))).

(** [POST /api/user/take-loan] (lines 227-247), after the gate. *)
Definition take_loan (req : request) (req_user : row) : M response :=
  await b <- must (req_body req) ;;
  let amount := prop b "amount" in
  if negb (truthy amount) then ret (fail 400 "Missing amount")
  else
    await ur <- with_id (col req_user "id")
                  (fun p => select_users ["monthly_income"; "balance"] (id_is p)) ;;
    await user <- must (head ur) ;;
    let maxLoan := Num.mul (number_or (col user "monthly_income") Num.zero) (Num.of_Z 3) in
    let amt := parseFloat amount in
    if Num.gtb amt maxLoan then
      ret (Response 400 false (Some (MaximumLoan maxLoan)) NoData)
    else
      perform with_id (col req_user "id") (fun p => insert_loan p amt "active") ;;
      let newBalance := Num.add (parseFloat_or (col user "balance") Num.zero) amt in
      perform with_id (col req_user "id") (fun p => update_balance newBalance p) ;;
      ret (Response 201 true (Some (Text "Loan approved")) (NewBalance newBalance)).

Definition post_take_loan : request -> world -> response * world :=
  guarded take_loan.

(** [GET /api/user/loans] (lines 250-258), after the gate. *)
Definition list_loans (req : request) (req_user : row) : M response :=
  await lr <- with_id (col req_user "id") select_loans_of ;;
  ret (Response 200 true None (LoanRows lr)).

Definition get_loans : request -> world -> response * world :=
  guarded list_loans.

(** [POST /api/user/change-password] (lines 261-279), after the gate. *)
Definition change_password (req : request) (req_user : row) : M response :=
  await b <- must (req_body req) ;;
  let oldPassword := prop b "oldPassword" in
  let newPassword := prop b "newPassword" in
  if negb (truthy oldPassword) || negb (truthy newPassword) then
    ret (fail 400 "Missing passwords")
  else
    await q <- with_id (col req_user "id")
                 (fun p => select_users ["password"] (id_is p)) ;;
    await r <- must (head q) ;;
    await ok <- compare oldPassword (col r "password") ;;
    if negb ok then ret (fail 401 "Incorrect old password")
    else
      await hashed <- hash newPassword ;;
      perform with_id (col req_user "id") (fun p => update_password hashed p) ;;
      ret (Response 200 true (Some (Text "Password changed successfully")) NoData).

Definition post_change_password : request -> world -> response * world :=
  guarded change_password.

End Server.

(** ** The states the server can reach *)

Inductive call :=
| PostSignup (req : request)
| PostSignupWithFile (req : request)
| PostSignin (req : request)
| GetUser (req : request)
| PostTakeLoan (req : request)
| GetLoans (req : request)
| PostChangePassword (req : request).

(** What happens to the world: a request is served, or time passes. *)
Inductive event :=
| Call (c : call)
| Elapse (seconds : Z).

(** The world once [initDb] (lines 44-107) has created the tables: no row
    of [users] or [loans], the sequences at their start, any clock and any
    schedule of failures and salts. *)
Definition initDb (t : Z) (fs : list bool) (ss : list string) : world :=
  World [] [] 0 0 t fs ss.

Section Reach.

Context {bcrypt : Bcrypt} {jwt : Jwt} {pg : Pg}.

Definition serve (c : call) : world -> response * world :=
  match c with
  | PostSignup req => signup req
  | PostSignupWithFile req => signup_with_file req
  | PostSignin req => signin req
  | GetUser req => get_user req
  | PostTakeLoan req => post_take_loan req
  | GetLoans req => get_loans req
  | PostChangePassword req => post_change_password req
  end.

Definition after (e : event) (w : world) : world :=
  match e with
  | Call c => snd (serve c w)
  | Elapse s => with_clock (clock w + Z.max 0 s) w
  end.

Definition run (es : list event) (w : world) : world :=
  fold_left (fun w e => after e w) es w.

Definition reachable (w : world) : Prop :=
  exists t fs ss es, w = run es (initDb t fs ss).

End Reach.

(** ** The vocabulary of the properties *)

(** The user a request acts on: the first row of [users] with its id. *)
Definition user_with (p : option Z) (w : world) : option Users.t :=
  List.find (id_is p) (users w).

(** What [ToNumber (user.monthly_income || 0)] and
    [parseFloat(user.balance || 0)] read from a row of [users]. *)
Definition income_of (u : Users.t) : number :=
  match Users.monthly_income u with Some x => x | None => Num.zero end.

Definition balance_of (u : Users.t) : number :=
  match Users.balance u with Some x => x | None => Num.zero end.

(** The eligibility ceiling: three times the income. *)
Definition ceiling_of (u : Users.t) : number :=
  Num.mul (income_of u) (Num.of_Z 3).

(** The row [INSERT INTO loans] adds and the table [UPDATE users SET
    balance] leaves. *)
Definition new_loan (p : option Z) (amt : number) (w : world) : Loans.t :=
  Loans.mk (loans_id_seq w + 1) p (numeric_of_number amt) (Some "active")
    (Some (clock w)) None.

Definition credited (p : option Z) (b : number) (us : list Users.t) : list Users.t :=
  map (fun u => if id_is p u then Users.set_balance (Some (numeric_of_number b)) u else u) us.

Definition repassworded (p : option Z) (h : string) (us : list Users.t)
  : list Users.t :=
  map (fun u => if id_is p u then Users.set_password h u else u) us.

Definition with_authorization (h : option string) (req : request) : request :=
  Request h (req_body req) (req_file req).

(** A hash that accepts the password it was made from and no other. *)
Definition ideal (b : Bcrypt) : Prop :=
  (forall p salt, bcrypt_compare p (bcrypt_hash p salt) = true) /\
  (forall p q salt, p <> q -> bcrypt_compare q (bcrypt_hash p salt) = false).

(** A row that [INSERT INTO users] adds holds the default balance. *)
Definition fresh (v : Users.t) : Prop :=
  Users.balance v = Some (Num.of_Z 50000).

(** Every stored balance is a number that is not below zero. *)
Definition solvent (w : world) : Prop :=
  forall u, In u (users w) ->
    exists x, Users.balance u = Some x /\ Num.leb Num.zero x = true.

(** ** What a request can do to the tables *)

(** A row of [users] without the two columns that an UPDATE of the server
    sets: what registration wrote and nothing changes afterwards. *)
Definition registered (u : Users.t) : Users.t :=
  Users.set_balance None (Users.set_password "" u).

(** The first row of [users] with an email. *)
Definition user_by_email (e : option string) (w : world) : option Users.t :=
  List.find (email_is e) (users w).

(** The row [INSERT INTO users] adds. *)
Definition new_user (n e h : string) (i : option number) (d : option Z)
    (a nid : option string) (w : world) : Users.t :=
  Users.mk (users_id_seq w + 1) n e h i d a nid (Some (Num.of_Z 50000))
    (Some (clock w)).

(** The writes of one request, on the tables, the sequences and the
    clock: nothing (the sequence of [users] may have moved, an id being
    drawn before a constraint refuses the row), one more user, one more
    loan with or without its credit, a new password. The loan without its
    credit needs a failure of the store. *)
Inductive write (failing : bool) (w w' : world) : Prop :=
| Kept :
    users w' = users w -> loans w' = loans w ->
    users_id_seq w <= users_id_seq w' -> loans_id_seq w' = loans_id_seq w ->
    clock w' = clock w ->
    write failing w w'
| Joined (v : Users.t) :
    users w' = users w ++ [v] -> loans w' = loans w ->
    Users.id v = users_id_seq w + 1 -> users_id_seq w' = users_id_seq w + 1 ->
    existsb (email_is (Some (Users.email v))) (users w) = false ->
    fresh v ->
    loans_id_seq w' = loans_id_seq w -> clock w' = clock w ->
    write failing w w'
| Lent (u : Users.t) (amt : number) :
    In u (users w) ->
    user_with (Some (Users.id u)) w = Some u ->
    users w' = credited (Some (Users.id u)) (Num.add (balance_of u) amt) (users w) ->
    loans w' = loans w ++ [new_loan (Some (Users.id u)) amt w] ->
    users_id_seq w' = users_id_seq w -> loans_id_seq w' = loans_id_seq w + 1 ->
    clock w' = clock w ->
    write failing w w'
| LentUncredited (u : Users.t) (amt : number) :
    failing = true ->
    In u (users w) ->
    users w' = users w ->
    loans w' = loans w ++ [new_loan (Some (Users.id u)) amt w] ->
    users_id_seq w' = users_id_seq w -> loans_id_seq w' = loans_id_seq w + 1 ->
    clock w' = clock w ->
    write failing w w'
| Repassworded (u : Users.t) (h : string) :
    In u (users w) ->
    users w' = repassworded (Some (Users.id u)) h (users w) -> loans w' = loans w ->
    users_id_seq w' = users_id_seq w -> loans_id_seq w' = loans_id_seq w ->
    clock w' = clock w ->
    write failing w w'.

(** The keys of the tables: the ids are drawn from the sequences, so they
    are positive, at most the last value drawn and increasing along a
    table; no two users share an email. *)
Definition keyed (w : world) : Prop :=
  0 <= users_id_seq w /\ 0 <= loans_id_seq w /\
  StronglySorted Z.lt (map Users.id (users w)) /\
  Forall (fun u => 0 < Users.id u <= users_id_seq w) (users w) /\
  List.NoDup (map Users.email (users w)) /\
  StronglySorted Z.lt (map Loans.id (loans w)) /\
  Forall (fun l => 0 < Loans.id l <= loans_id_seq w) (loans w).

(** A loan as the take-loan route leaves it: the active, unpaid loan of a
    user of the table, taken at a time that has come. *)
Definition owned_by (w : world) (l : Loans.t) : Prop :=
  (exists u, In u (users w) /\ Loans.user_id l = Some (Users.id u)) /\
  Loans.status l = Some "active" /\ Loans.paid_at l = None /\
  exists t, Loans.taken_at l = Some t /\ t <= clock w.

(** The times [taken_at] never go down along the table. *)
Definition chronological (ls : list Loans.t) : Prop :=
  StronglySorted (fun a b => newer_first b a = true) ls.

(** The balance the loans of a user add up to: the default balance, then
    one addition for each loan, in the order of the table, each sum
    stored as a NUMERIC value. *)
Definition ledger (u : Users.t) (ls : list Loans.t) : number :=
  fold_left
    (fun b l =>
       if loan_of (Some (Users.id u)) l
       then numeric_of_number (Num.add b (Loans.amount l)) else b)
    ls (Num.of_Z 50000).

(** Every balance is what the loans of its user add up to. *)
Definition reconciled (w : world) : Prop :=
  forall u, In u (users w) -> Users.balance u = Some (ledger u (loans w)).

(** [safeUser] (line 214) for a row of [users], and the payload of the
    token that sign-in signs for it (line 212). *)
Definition safeUser (v : Users.t) : row :=
  [("id", CInt (Users.id v)); ("name", CText (Users.name v));
   ("email", CText (Users.email v));
   ("monthly_income", opt_cell CNumeric (Users.monthly_income v));
   ("balance", opt_cell CNumeric (Users.balance v));
   ("nid_picture", opt_cell CText (Users.nid_picture v))].

Definition token_payload (v : Users.t) : row :=
  [("id", CInt (Users.id v)); ("email", CText (Users.email v))].

(** The rows a response carries. *)
Definition rows_of (d : data) : list row :=
  match d with
  | NoData | NewBalance _ => []
  | Session user _ | User user => [user]
  | LoanRows rows => rows
  end.

(** A row without the column [password]. *)
Definition discreet (r : row) : Prop := assoc "password" r = None.

(** A response whose rows hold no password. *)
Definition tight (r : response) : Prop := Forall discreet (rows_of (payload r)).

(** A response whose [success] says what its status says: 200 or 201 with
    [success: true], or 400, 401 or 500 with [success: false] and a
    message. *)
Definition coherent (r : response) : Prop :=
  (success r = true /\ (status r = 200 \/ status r = 201)) \/
  (success r = false /\ (status r = 400 \/ status r = 401 \/ status r = 500) /\
   message r <> None).

(** [yields Q m]: whatever the world, a value that [m] returns satisfies [Q]. *)
Definition yields {A : Type} (Q : A -> Prop) (m : M A) : Prop :=
  forall w a w', m w = (Ok a, w') -> Q a.

(** The [nid_picture] a sign-up route stores: the path of the upload on
    [POST /api/signup-with-file] (line 182), nothing on [POST /api/signup]. *)
Definition nid_path (file : bool) (req : request) : option string :=
  if file then
    match req_file req with
    | Some filename => Some ("/uploads/" ++ filename)%string
    | None => None
    end
  else None.

(** [jsonwebtoken] with [expiresIn: '24h'] (line 212), for the id [z]: a
    token signed at the time [t] for a payload with this id verifies, to
    a payload with this id, from [t] until 86400 seconds have passed, and
    no longer then. *)
Definition expires_in_24h (j : Jwt) (z : Z) : Prop :=
  forall (p : row) (t t' : Z),
    col p "id" = CInt z -> 0 <= t -> t <= t' ->
    if t' <? t + 86400
    then exists p', jwt_verify (jwt_sign p t) t' = Some p' /\ col p' "id" = CInt z
    else jwt_verify (jwt_sign p t) t' = None.

(** The request of a call. *)
Definition request_of (c : call) : request :=
  match c with
  | PostSignup req | PostSignupWithFile req | PostSignin req | GetUser req
  | PostTakeLoan req | GetLoans req | PostChangePassword req => req
  end.

(** ** Reference implementations of the interfaces

    Small implementations of the three interfaces, on which the handlers
    can be run: a hash that keeps the password readable, tokens that
    write the user id in unary, and a store that writes a number as its
    decimal expansion and reads decimal texts, integers and ISO dates;
    and tokens that write their time of issue too and are valid for 24
    hours. *)

Module Reference.

#[export] Instance plain_bcrypt : Bcrypt := {|
  bcrypt_hash p _ := ("$2a$10$" ++ p)%string;
  bcrypt_compare p h := String.eqb ("$2a$10$" ++ p)%string h |}.

Definition unary_token (n : nat) : string :=
  ("jwt." ++ string_of_list_ascii (repeat "x"%char n))%string.

Definition unary_sign (p : row) (t : Z) : string :=
  match col p "id" with
  | CInt z => unary_token (Z.to_nat z)
  | _ => "jwt."
  end.

Definition unary_verify (t : string) (now : Z) : option row :=
  match list_ascii_of_string t with
  | "j"%char :: "w"%char :: "t"%char :: "."%char :: r =>
      if forallb (Ascii.eqb "x") r
      then Some [("id", CInt (Z.of_nat (length r)))]
      else None
  | _ => None
  end.

Lemma unary_verify_compact t now p : unary_verify t now = Some p -> compact t.
Proof.
  unfold unary_verify, compact.
  destruct t as [|c0 t]; [discriminate|]. simpl.
  intros H. split; [discriminate|]. revert H.
  destruct c0 as [[] [] [] [] [] [] [] []]; try discriminate.
  destruct (list_ascii_of_string t) as [|c1 r]; [discriminate|].
  destruct c1 as [[] [] [] [] [] [] [] []]; try discriminate.
  destruct r as [|c2 r]; [discriminate|].
  destruct c2 as [[] [] [] [] [] [] [] []]; try discriminate.
  destruct r as [|c3 r]; [discriminate|].
  destruct c3 as [[] [] [] [] [] [] [] []]; try discriminate.
  destruct (forallb (Ascii.eqb "x") r) eqn:E; [|discriminate].
  intros _. repeat (constructor; [reflexivity|]).
  rewrite forallb_forall in E. apply List.Forall_forall.
  intros c Hc. apply E in Hc. apply Ascii.eqb_eq in Hc. subst c. reflexivity.
Qed.

#[export] Instance unary_jwt : Jwt := {|
  jwt_sign := unary_sign;
  jwt_verify := unary_verify;
  jwt_verify_compact := unary_verify_compact |}.

(** The decimal digits of a natural number. *)
Fixpoint digits_from (fuel : nat) (n : Z) (acc : list ascii) : list ascii :=
  match fuel with
  | O => acc
  | S fuel' =>
      let acc' := ascii_of_N (Z.to_N (48 + n mod 10)) :: acc in
      if n <? 10 then acc' else digits_from fuel' (n / 10) acc'
  end.

Definition decimal_digits (n : Z) : list ascii :=
  digits_from (S (Z.to_nat (Z.log2 n))) n [].

(** The character of a decimal digit. *)
Definition digit_char (d : Z) : ascii := ascii_of_N (Z.to_N (48 + d)).

(** A decimal expansion of a number, exact. *)
Definition decimal_text (x : number) : string :=
  match x with
  | S754_nan => "NaN"
  | S754_infinity neg => if neg then "-Infinity" else "Infinity"
  | S754_zero _ => "0"
  | S754_finite neg m e =>
      let sign := if neg then ["-"%char] else [] in
      if 0 <=? e then string_of_list_ascii (sign ++ decimal_digits (Z.pos m * 2 ^ e))
      else
        let k := Z.to_nat (- e) in
        let n := Z.pos m * 5 ^ (- e) in
        let ds := decimal_digits (n mod 10 ^ (- e)) in
        string_of_list_ascii
          (sign ++ decimal_digits (n / 10 ^ (- e)) ++ ["."%char]
             ++ repeat "0"%char (k - length ds) ++ ds)
  end.

(** A date written [YYYY-MM-DD], as the number YYYYMMDD. *)
Definition iso_date (s : string) : option Z :=
  match list_ascii_of_string s with
  | [y1; y2; y3; y4; "-"%char; m1; m2; "-"%char; d1; d2] =>
      match Lex.all_digits 10 [y1; y2; y3; y4; m1; m2; d1; d2] with
      | Some ds => Some (Lex.value_in 10 ds)
      | None => None
      end
  | _ => None
  end.

(** The text of an INTEGER: blanks, a sign, decimal digits, blanks, and a
    value within the range. *)
Definition is_blank (c : ascii) : bool :=
  let n := Lex.code c in ((9 <=? n) && (n <=? 13)) || (n =? 32).

Fixpoint skip_blanks (s : list ascii) : list ascii :=
  match s with
  | c :: r => if is_blank c then skip_blanks r else s
  | [] => []
  end.

Definition integer_text (s : string) : option Z :=
  let t := skip_blanks (list_ascii_of_string s) in
  let '(neg, t1) :=
    match t with
    | "-"%char :: r => (true, r)
    | "+"%char :: r => (false, r)
    | _ => (false, t)
    end in
  match Lex.digits t1 with
  | ([], _) => None
  | (ds, r) =>
      match skip_blanks r with
      | [] =>
          let z := if neg then - Lex.value_in 10 ds else Lex.value_in 10 ds in
          if (int4_min <=? z) && (z <=? int4_max) then Some z else None
      | _ :: _ => None
      end
  end.

Lemma integer_text_in_range s z :
  integer_text s = Some z -> int4_min <= z <= int4_max.
Proof.
  unfold integer_text.
  destruct (match skip_blanks (list_ascii_of_string s) with
            | "-"%char :: r => (true, r)
            | "+"%char :: r => (false, r)
            | _ => (false, skip_blanks (list_ascii_of_string s))
            end) as [neg t1].
  destruct (Lex.digits t1) as [[|d ds] r]; [discriminate|].
  destruct (skip_blanks r); [|discriminate]. cbv zeta.
  destruct (_ && _) eqn:E; [|discriminate].
  intros H. injection H as <-.
  apply andb_prop in E as [E1 E2]. apply Z.leb_le in E1, E2. auto.
Qed.

#[export] Instance decimal_pg : Pg := {|
  number_text := decimal_text;
  numeric_of_text s :=
    let x := Lex.to_number s in if Num.is_nan x then None else Some x;
  date_of_text := iso_date;
  integer_of_text := integer_text;
  varchar255 s := if (Z.of_nat (String.length s) <=? 255) then Some s else None;
  integer_in_range := integer_text_in_range |}.

Example decimal_text_reads_back :
  decimal_text (Lex.parse_float "0.1") =
    "0.10000000000000000555111512312578270211815834045410156250" /\
  Lex.parse_float (decimal_text (Lex.parse_float "0.1")) = Lex.parse_float "0.1" /\
  Lex.parse_float (decimal_text (Lex.parse_float "-12.5")) = Lex.parse_float "-12.5" /\
  decimal_text (Num.of_Z 0) = "0" /\
  iso_date "1990-04-01" = Some 19900401.
Proof. repeat split; vm_compute; reflexivity. Qed.

(** Tokens that write the id and the time of issue in unary and are valid
    for 24 hours. *)
Fixpoint span (c : ascii) (s : list ascii) : nat * list ascii :=
  match s with
  | a :: r =>
      if Ascii.eqb c a then let '(n, r') := span c r in (S n, r') else (O, s)
  | [] => (O, [])
  end.

Definition dated_token (id iat : nat) : string :=
  string_of_list_ascii
    (list_ascii_of_string "jwt." ++ repeat "x"%char id ++ "."%char :: repeat "y"%char iat).

Definition dated_sign (p : row) (t : Z) : string :=
  match col p "id" with
  | CInt z => dated_token (Z.to_nat z) (Z.to_nat t)
  | _ => dated_token 0 (Z.to_nat t)
  end.

Definition dated_verify (s : string) (now : Z) : option row :=
  match list_ascii_of_string s with
  | "j"%char :: "w"%char :: "t"%char :: "."%char :: r =>
      match span "x" r with
      | (id, c :: ys) =>
          if Ascii.eqb c "." && forallb (Ascii.eqb "y") ys
             && (now <? Z.of_nat (length ys) + 86400)
          then Some [("id", CInt (Z.of_nat id)); ("iat", CInt (Z.of_nat (length ys)));
                     ("exp", CInt (Z.of_nat (length ys) + 86400))]
          else None
      | _ => None
      end
  | _ => None
  end.

Lemma span_sound c s n r : span c s = (n, r) -> s = repeat c n ++ r.
Proof.
  revert n r. induction s as [|a s IH]; intros n r; simpl.
  - intros H. injection H as <- <-. reflexivity.
  - destruct (Ascii.eqb_spec c a) as [<-|_].
    + destruct (span c s) as [n' r'] eqn:E. intros H. injection H as <- <-.
      simpl. f_equal. now apply IH.
    + intros H. injection H as <- <-. reflexivity.
Qed.

Lemma dated_verify_compact t now p : dated_verify t now = Some p -> compact t.
Proof.
  unfold dated_verify, compact.
  destruct t as [|c0 t]; [discriminate|]. simpl.
  intros H. split; [discriminate|]. revert H.
  destruct c0 as [[] [] [] [] [] [] [] []]; try discriminate.
  destruct (list_ascii_of_string t) as [|c1 r]; [discriminate|].
  destruct c1 as [[] [] [] [] [] [] [] []]; try discriminate.
  destruct r as [|c2 r]; [discriminate|].
  destruct c2 as [[] [] [] [] [] [] [] []]; try discriminate.
  destruct r as [|c3 r]; [discriminate|].
  destruct c3 as [[] [] [] [] [] [] [] []]; try discriminate.
  destruct (span "x" r) as [n [|c ys]] eqn:E; [discriminate|].
  destruct (Ascii.eqb_spec c ".") as [->|]; [|discriminate].
  destruct (forallb (Ascii.eqb "y") ys) eqn:Ey; [|discriminate].
  intros _. repeat (constructor; [reflexivity|]).
  rewrite (span_sound _ _ _ _ E). apply Forall_app. split.
  - apply List.Forall_forall. intros a Ha. apply repeat_spec in Ha. now subst.
  - constructor; [reflexivity|].
    rewrite forallb_forall in Ey. apply List.Forall_forall.
    intros a Ha. apply Ey in Ha. apply Ascii.eqb_eq in Ha. subst a. reflexivity.
Qed.

(** Tokens that hold the id as a string: "jwt:" and the string. *)
Definition text_sign (p : row) (t : Z) : string :=
  match col p "id" with
  | CText s => ("jwt:" ++ s)%string
  | _ => "jwt:"
  end.

Definition text_verify (t : string) (now : Z) : option row :=
  match list_ascii_of_string t with
  | "j"%char :: "w"%char :: "t"%char :: ":"%char :: r =>
      if forallb (fun c => negb (Lex.is_space c)) r
      then Some [("id", CText (string_of_list_ascii r))]
      else None
  | _ => None
  end.

Lemma text_verify_compact t now p : text_verify t now = Some p -> compact t.
Proof.
  unfold text_verify, compact.
  destruct t as [|c0 t]; [discriminate|]. simpl.
  intros H. split; [discriminate|]. revert H.
  destruct c0 as [[] [] [] [] [] [] [] []]; try discriminate.
  destruct (list_ascii_of_string t) as [|c1 r]; [discriminate|].
  destruct c1 as [[] [] [] [] [] [] [] []]; try discriminate.
  destruct r as [|c2 r]; [discriminate|].
  destruct c2 as [[] [] [] [] [] [] [] []]; try discriminate.
  destruct r as [|c3 r]; [discriminate|].
  destruct c3 as [[] [] [] [] [] [] [] []]; try discriminate.
  destruct (forallb _ r) eqn:E; [|discriminate].
  intros _. repeat (constructor; [reflexivity|]).
  rewrite forallb_forall in E. apply List.Forall_forall.
  intros c Hc. apply E in Hc. now apply negb_true_iff in Hc.
Qed.

#[export] Instance text_jwt : Jwt := {|
  jwt_sign := text_sign;
  jwt_verify := text_verify;
  jwt_verify_compact := text_verify_compact |}.

#[export] Instance dated_jwt : Jwt := {|
  jwt_sign := dated_sign;
  jwt_verify := dated_verify;
  jwt_verify_compact := dated_verify_compact |}.

End Reference.

(** ** A bank to run the handlers on *)

Module Example.

Definition alice : Users.t :=
  Users.mk 1 "Alice" "alice@bank.io" "$2a$10$wonderland"
    (Some (Num.of_Z 10000)) None None None (Some (Num.of_Z 50000)) (Some 100).

(** Bob declared no income. *)
Definition bob : Users.t :=
  Users.mk 2 "Bob" "bob@bank.io" "$2a$10$builder"
    None None None None (Some (Num.of_Z 50000)) (Some 101).

Definition bank : world := World [alice; bob] [] 2 0 200 [] [].

(** [req.user] as the gate sets it for a row of [users]. *)
Definition logged_in (u : Users.t) : row := projected u.

(** A request whose body is [{ amount: a }]. *)
Definition asking (a : jsval) : request :=
  Request (Some "Bearer jwt.x") (Some [("amount", a)]) None.

End Example.

(** ** The directory: cards and employees

    The tables [cards] and [employees] of [initDb]. No route writes them:
    the routes that read them take the directory as it is, and [initDb]
    alone fills [employees]. *)

Module Cards.
Record t := mk {
  id : Z;
  user_id : option Z;
  card_number : option string;
  card_type : option string;
  expiry : option Z;
  created_at : option Z }.

Definition cells (c : t) : row :=
  [ ("id", CInt (id c)); ("user_id", opt_cell CInt (user_id c));
    ("card_number", opt_cell CText (card_number c));
    ("card_type", opt_cell CText (card_type c));
    ("expiry", opt_cell CTime (expiry c));
    ("created_at", opt_cell CTime (created_at c)) ].
End Cards.

Module Employees.
Record t := mk {
  id : Z;
  name : option string;
  role : option string;
  email : option string }.

Definition cells (e : t) : row :=
  [ ("id", CInt (id e)); ("name", opt_cell CText (name e));
    ("role", opt_cell CText (role e)); ("email", opt_cell CText (email e)) ].
End Employees.

Record directory := Directory {
  cards : list Cards.t;
  employees : list Employees.t;
  employees_id_seq : Z }.

(** [parseInt(s)] of a string, with no radix: leading white space is
    dropped, a sign is read, then ["0x"] or ["0X"] (the digits are then
    hexadecimal), then the longest run of digits; with no digit the
    result is NaN. *)
Fixpoint radix_digits (base : Z) (s : list ascii) : list Z :=
  match s with
  | c :: r =>
      match Lex.hex_digit_of c with
      | Some d => if d <? base then d :: radix_digits base r else []
      | None => []
      end
  | [] => []
  end.

Definition parseInt (s : string) : number :=
  let t := Lex.skip_spaces (list_ascii_of_string s) in
  let '(neg, t1) :=
    match t with
    | "-"%char :: r => (true, r)
    | "+"%char :: r => (false, r)
    | _ => (false, t)
    end in
  let '(base, t2) :=
    match t1 with
    | "0"%char :: c :: r =>
        if Ascii.eqb c "x" || Ascii.eqb c "X" then (16, r) else (10, t1)
    | _ => (10, t1)
    end in
  match radix_digits base t2 with
  | [] => Num.nan
  | ds => Num.of_ratio neg (Lex.value_in base ds) 1
  end.

(** The text of a count of rows ([SELECT COUNT]): a bigint, which the
    driver hands over as the string of its decimal digits. *)
Definition count_text (n : nat) : string :=
  string_of_list_ascii (Reference.decimal_digits (Z.of_nat n)).

(** The three rows [initDb] inserts into an empty [employees]
    (lines 97-102). *)
Definition seeded (d : directory) : directory :=
  let n := employees_id_seq d in
  Directory (cards d)
    (employees d ++
       [ Employees.mk (n + 1) (Some "Mr. Rahim Ahmed") (Some "Manager")
           (Some "rahim@efportal.com");
         Employees.mk (n + 2) (Some "Ms. Jahanara Khatun") (Some "Customer Support")
           (Some "jahanara@efportal.com");
         Employees.mk (n + 3) (Some "Mr. Shakil Hossain") (Some "Loan Officer")
           (Some "shakil@efportal.com") ])
    (n + 3).

(** What [initDb] leaves of a directory: the three employees when the
    table was empty, the directory as it was otherwise. *)
Definition started (d : directory) : directory :=
  match employees d with
  | [] => seeded d
  | _ :: _ => d
  end.

(** What a route of the directory answers: the response of the gate or of
    the [catch], or [{ success: true, key: rows }]. *)
Inductive listing :=
| Refused (r : response)
| Listed (key : string) (rows : list row).


Definition by_id (a b : Employees.t) : Prop := Employees.id a <= Employees.id b.

#[global] Instance by_id_dec a b : Decision (by_id a b).
Proof. unfold by_id. apply _. Defined.

Module Startup.

(** [initDb] (lines 44-107) as it runs: the connection and each of the
    four [CREATE TABLE IF NOT EXISTS], which leave existing tables as
    they are, may throw; then [employees] is counted ([count] is
    [emp.rows[0].count]) and, when the count reads as 0, filled. A throw
    ends the process (lines 109-112). *)
Definition initDb (d : directory) : M directory :=
  perform query (ret tt) ;;
  perform query (ret tt) ;;
  perform query (ret tt) ;;
  perform query (ret tt) ;;
  perform query (ret tt) ;;
  await count <- query (ret (count_text (length (employees d)))) ;;
  if Num.eqb (parseInt count) Num.zero then
    perform query (ret tt) ;;
    ret (seeded d)
  else ret d.

End Startup.

Section DirectoryRoutes.

Context {jwt : Jwt} {pg : Pg}.


(** [GET /api/employees] (lines 293-301): [SELECT id, name, role, email
    FROM employees ORDER BY id]; no gate. *)
Definition get_employees (d : directory) (w : world) : listing * world :=
  match query (ret (map (fun e => select ["id"; "name"; "role"; "email"]
                                    (Employees.cells e))
                      (merge_sort by_id (employees d)))) w with
  | (Ok er, w') => (Listed "employees" er, w')
  | (Thrown, w') => (Refused server_error, w')
  end.

End DirectoryRoutes.

(** ** Facts about numbers *)

Module NumFacts.

Lemma compare_eq_sym (a b : number) :
  SFcompare a b = Some Eq -> SFcompare b a = Some Eq.
Proof.
  destruct a as [sa|sa| |sa ma ea], b as [sb|sb| |sb mb eb]; simpl;
    try destruct sa; try destruct sb; simpl; try congruence.
  - destruct (Z.compare_spec ea eb) as [->| |]; try congruence.
    rewrite Z.compare_refl.
    rewrite !Pos.compare_cont_spec. simpl.
    destruct (Pos.compare_spec ma mb) as [->| |]; simpl; try congruence.
    rewrite Pos.compare_refl. reflexivity.
  - destruct (Z.compare_spec ea eb) as [->| |]; try congruence.
    rewrite Z.compare_refl.
    rewrite !Pos.compare_cont_spec. simpl.
    destruct (Pos.compare_spec ma mb) as [->| |]; simpl; try congruence.
    rewrite Pos.compare_refl. reflexivity.
Qed.

(** Two numbers that are equal ([===]) are not one above the other. *)
Lemma eqb_not_gtb (a b : number) : Num.eqb a b = true -> Num.gtb a b = false.
Proof.
  unfold Num.eqb, Num.gtb, Num.ltb, SFeqb, SFltb.
  destruct (SFcompare a b) as [[]|] eqn:E; try discriminate.
  intros _. rewrite (compare_eq_sym _ _ E). reflexivity.
Qed.

(** Shifting and rounding a mantissa that is not negative gives one that
    is not negative. *)
Lemma shr_1_nonneg (mrs : shr_record) : 0 <= shr_m mrs -> 0 <= shr_m (shr_1 mrs).
Proof.
  destruct mrs as [m r s]. simpl. destruct m as [|[p|p|]|p]; simpl; lia.
Qed.

Lemma iter_shr_1_nonneg (p : positive) (mrs : shr_record) :
  0 <= shr_m mrs -> 0 <= shr_m (SpecFloat.iter_pos shr_1 p mrs).
Proof.
  revert mrs. induction p as [p IH|p IH|]; intros mrs H; simpl.
  - apply IH, IH, shr_1_nonneg, H.
  - apply IH, IH, H.
  - apply shr_1_nonneg, H.
Qed.

Lemma shr_fexp_nonneg (m e : Z) (l : location) :
  0 <= m -> 0 <= shr_m (fst (shr_fexp Num.prec Num.emax m e l)).
Proof.
  intros Hm. unfold shr_fexp, shr.
  assert (Hrec : shr_m (shr_record_of_loc m l) = m)
    by (destruct l as [|[]]; reflexivity).
  destruct (fexp _ _ _ - e) as [|q|q]; cbn [fst]; try lia.
  apply iter_shr_1_nonneg. lia.
Qed.

(** A number that is not below zero: [0 <= x], which NaN is not. *)
Lemma leb_zero_cases (x : number) :
  Num.leb Num.zero x = true <->
  (exists s, x = S754_zero s) \/ x = S754_infinity false \/
  (exists m e, x = S754_finite false m e).
Proof.
  destruct x as [s|[]| |[] m e]; simpl; split; intros H; eauto;
    try discriminate H; try reflexivity;
    destruct H as [[? H]|[H|(? & ? & H)]]; discriminate H.
Qed.

Lemma round_nonneg (m e : Z) (l : location) :
  0 <= m -> Num.leb Num.zero (binary_round_aux Num.prec Num.emax false m e l) = true.
Proof.
  intros Hm. unfold binary_round_aux.
  pose proof (shr_fexp_nonneg m e l Hm) as H1.
  destruct (shr_fexp Num.prec Num.emax m e l) as [mrs1 e1]. cbn [fst] in H1.
  assert (Hr : 0 <= round_nearest_even (shr_m mrs1) (loc_of_shr_record mrs1)).
  { unfold round_nearest_even. destruct (loc_of_shr_record mrs1) as [|[]];
      try destruct (Z.even _); lia. }
  pose proof (shr_fexp_nonneg _ e1 loc_Exact Hr) as H2.
  destruct (shr_fexp Num.prec Num.emax _ e1 loc_Exact) as [mrs2 e2]. cbn [fst] in H2.
  destruct (shr_m mrs2) as [|q|q]; try lia; [reflexivity|].
  destruct (e2 <=? _); reflexivity.
Qed.

(** The sum of two numbers that are not below zero is a number that is not
    below zero. *)
Lemma add_nonneg (a b : number) :
  Num.leb Num.zero a = true -> Num.leb Num.zero b = true ->
  Num.leb Num.zero (Num.add a b) = true.
Proof.
  destruct a as [sa|sa| |sa ma ea], b as [sb|sb| |sb mb eb];
    try destruct sa; try destruct sb; try discriminate; try reflexivity.
  intros _ _. unfold Num.add, SFadd. cbv zeta.
  unfold cond_Zopp. rewrite <- Pos2Z.inj_add.
  unfold binary_normalize, binary_round.
  destruct (shl_align _ _ _) as [mz ez].
  apply round_nonneg. lia.
Qed.

End NumFacts.

(** *** Numbers and literals at work *)

Example parse_float_reads_a_prefix :
  Lex.parse_float "  12.5px" = Num.of_decimal false 125 (-1) /\
  Lex.parse_float "-60000" = Num.of_Z (-60000) /\
  Lex.parse_float "1e3" = Num.of_Z 1000 /\
  Lex.parse_float ".5" = Num.of_decimal false 5 (-1) /\
  Lex.parse_float "abc" = Num.nan /\
  Lex.parse_float "" = Num.nan /\
  Lex.parse_float "-Infinity" = S754_infinity true.
Proof. repeat split; vm_compute; reflexivity. Qed.

Example to_number_reads_all_or_nothing :
  Lex.to_number " 42 " = Num.of_Z 42 /\
  Lex.to_number "" = Num.zero /\
  Lex.to_number "0x1F" = Num.of_Z 31 /\
  Lex.to_number "12.5px" = Num.nan.
Proof. repeat split; vm_compute; reflexivity. Qed.

(** Sums are rounded: 0.1 + 0.2 is 0.30000000000000004, not 0.3. *)
Example sum_is_rounded :
  Num.add (Lex.parse_float "0.1") (Lex.parse_float "0.2") =
    Lex.parse_float "0.30000000000000004" /\
  Num.eqb (Num.add (Lex.parse_float "0.1") (Lex.parse_float "0.2"))
    (Lex.parse_float "0.3") = false /\
  Num.of_Z 9007199254740993 = Num.of_Z 9007199254740992.
Proof. repeat split; vm_compute; reflexivity. Qed.

Example falsy_amounts :
  map truthy [JUndefined; JNull; JBool false; JNum Num.zero; JNum (S754_zero true);
              JNum Num.nan; JStr ""] = repeat false 7 /\
  map truthy [JStr "0"; JStr "abc"; JStr "-5"; JNum (Num.of_Z (-5)); JObject "" "[]"]
    = repeat true 5.
Proof. split; reflexivity. Qed.

(** ** How the queries run *)

Lemma query_cases {A : Type} (q : M A) (w : world) :
  query q w = (Thrown, pop_fault w) \/ query q w = q (pop_fault w).
Proof.
  unfold query. destruct (faults w) as [|[] fs]; auto.
Qed.

Lemma pop_fault_none (w : world) : faults w = [] -> pop_fault w = w.
Proof.
  destruct w as [us ls un ln c fs ss]. simpl. intros ->. reflexivity.
Qed.

(** With no failure to come, a query is what it does on the tables. *)
Lemma query_quiet {A : Type} (q : M A) (w : world) :
  faults w = [] -> query q w = q w.
Proof.
  intros H. unfold query. rewrite H. now rewrite pop_fault_none.
Qed.

Lemma find_head_filter {A : Type} (p : A -> bool) (l : list A) :
  List.find p l = head (List.filter p l).
Proof.
  induction l as [|a l IH]; simpl; [reflexivity|].
  destruct (p a); simpl; auto.
Qed.

Lemma head_map_filter {A B : Type} (f : A -> B) (p : A -> bool) (l : list A) :
  head (map f (List.filter p l)) = option_map f (List.find p l).
Proof.
  induction l as [|a l IH]; simpl; [reflexivity|].
  destruct (p a); simpl; auto.
Qed.

Lemma read_income (u : Users.t) (r : row) :
  select ["monthly_income"; "balance"] (Users.cells u) = r ->
  number_or (col r "monthly_income") Num.zero = income_of u.
Proof.
  intros <-. unfold income_of. destruct u as [? ? ? ? [] ? ? ? ? ?]; reflexivity.
Qed.

Lemma read_balance (u : Users.t) (r : row) :
  select ["monthly_income"; "balance"] (Users.cells u) = r ->
  parseFloat_or (col r "balance") Num.zero = balance_of u.
Proof.
  intros <-. unfold balance_of. destruct u as [? ? ? ? ? ? ? ? [] ?]; reflexivity.
Qed.

Lemma find_some_existsb {A : Type} (p : A -> bool) (l : list A) (a : A) :
  List.find p l = Some a -> existsb p l = true.
Proof.
  induction l as [|x l IH]; simpl; [discriminate|].
  destruct (p x); simpl; auto.
Qed.

Lemma id_is_some (p : option Z) (u : Users.t) :
  id_is p u = true -> p = Some (Users.id u).
Proof.
  destruct p as [z|]; simpl; [|discriminate].
  intros H. apply Z.eqb_eq in H. now subst.
Qed.

(** *** Stepping through a computation *)

Lemma bind_run {A B : Type} (m : M A) (k : A -> M B) w res w' :
  bind m k w = (res, w') ->
  (exists a w1, m w = (Ok a, w1) /\ k a w1 = (res, w')) \/
  (res = Thrown /\ m w = (Thrown, w')).
Proof.
  unfold bind. destruct (m w) as [[a|] w1]; intros H.
  - left. eauto.
  - right. injection H as <- <-. auto.
Qed.

Lemma query_run {A : Type} (q : M A) w res w' :
  query q w = (res, w') ->
  (res = Thrown /\ w' = pop_fault w) \/ q (pop_fault w) = (res, w').
Proof.
  intros H. destruct (query_cases q w) as [E | E]; rewrite E in H.
  - left. injection H as <- <-. auto.
  - right. exact H.
Qed.

Lemma must_ok {A : Type} (o : option A) w a w' :
  must o w = (Ok a, w') -> w' = w /\ o = Some a.
Proof.
  destruct o; simpl; unfold ret, throw; intros H; inversion H; auto.
Qed.

Lemma must_thrown {A : Type} (o : option A) w w' :
  must o w = (Thrown, w') -> w' = w /\ o = None.
Proof.
  destruct o; simpl; unfold ret, throw; intros H; inversion H; auto.
Qed.

Lemma bind_must_some {A B : Type} (o : option A) (a : A) (k : A -> M B) :
  o = Some a -> bind (must o) k = k a.
Proof. intros ->. reflexivity. Qed.

(** [bind_step E Hm] splits [E : bind m k w = (res, w')] into the run
    [Hm] of [m] and, when it returned, the run [E] of what follows. *)
Ltac bind_step E Hm :=
  apply bind_run in E;
  let a := fresh "a" in
  let w1 := fresh "w" in
  destruct E as [(a & w1 & Hm & E) | (-> & Hm)].

Ltac query_step E :=
  apply query_run in E; destruct E as [(-> & ->) | E]; [|cbv beta in E].

Ltac done_step E :=
  first [ discriminate E
        | unfold ret, throw in E; injection E; clear E; intros; subst ].

Lemma select_users_run cols p w res w' :
  select_users cols p w = (res, w') ->
  w' = pop_fault w /\
  (res = Thrown \/
   res = Ok (map (fun u => select cols (Users.cells u)) (List.filter p (users w)))).
Proof.
  unfold select_users. intros H. query_step H; [auto|]. done_step H. auto.
Qed.

Lemma insert_loan_run p amt w res w' :
  insert_loan p amt "active" w = (res, w') ->
  users w' = users w /\ clock w' = clock w /\ users_id_seq w' = users_id_seq w /\
  ((res = Thrown /\ loans w' = loans w) \/
   (res = Ok tt /\ loans w' = loans w ++ [new_loan p amt w])).
Proof.
  unfold insert_loan. intros H. query_step H; [simpl; tauto|].
  cbv zeta in H.
  destruct (match p with Some _ => _ | None => _ end); done_step H; simpl; tauto.
Qed.

Lemma update_balance_run b p w res w' :
  update_balance b p w = (res, w') ->
  loans w' = loans w /\ clock w' = clock w /\ users_id_seq w' = users_id_seq w /\
  loans_id_seq w' = loans_id_seq w /\
  ((res = Thrown /\ users w' = users w) \/
   (res = Ok tt /\ users w' = credited p b (users w))).
Proof.
  unfold update_balance. intros H. query_step H; [simpl; tauto|].
  done_step H. simpl. tauto.
Qed.

Lemma with_id_run {pg : Pg} {A : Type} (c : cell) (q : option Z -> M A) w res w' :
  with_id c q w = (res, w') ->
  (int_param c = None /\ res = Thrown /\ w' = pop_fault w) \/
  (exists p, int_param c = Some p /\ q p w = (res, w')).
Proof.
  unfold with_id. destruct (int_param c) as [p|]; intros H; [right; eauto|].
  left. split; [reflexivity|]. unfold query, throw in H.
  destruct (faults w) as [|[] ?]; injection H as <- <-; auto.
Qed.

Lemma query_throw_run {A : Type} w (res : result A) w' :
  query throw w = (res, w') -> res = Thrown /\ w' = pop_fault w.
Proof.
  unfold query, throw. destruct (faults w) as [|[] ?]; intros H; injection H as <- <-; auto.
Qed.

Lemma with_id_some {pg : Pg} {A : Type} (c : cell) (q : option Z -> M A) p :
  int_param c = Some p -> with_id c q = q p.
Proof. unfold with_id. now intros ->. Qed.

(** Every run of the take-loan handler: a refusal before any write, a
    failure that leaves the loan row without the credit, or the two writes
    and the 201 answer. *)
Lemma take_loan_runs {pg : Pg} (req : request) (req_user : row) (w : world) r w' :
  try_catch (take_loan req req_user) w = (r, w') ->
  (success r = false /\ status r <> 201 /\ users w' = users w /\ loans w' = loans w) \/
  (exists b u,
     req_body req = Some b /\
     int_param (col req_user "id") = Some (Some (Users.id u)) /\
     user_with (Some (Users.id u)) w = Some u /\
     r = server_error /\ users w' = users w /\
     loans w' =
       loans w ++ [new_loan (Some (Users.id u)) (parseFloat (prop b "amount")) w]) \/
  (exists b u,
     let amt := parseFloat (prop b "amount") in
     req_body req = Some b /\
     int_param (col req_user "id") = Some (Some (Users.id u)) /\
     user_with (Some (Users.id u)) w = Some u /\
     truthy (prop b "amount") = true /\
     Num.gtb amt (ceiling_of u) = false /\
     r = Response 201 true (Some (Text "Loan approved"))
           (NewBalance (Num.add (balance_of u) amt)) /\
     users w' = credited (Some (Users.id u)) (Num.add (balance_of u) amt) (users w) /\
     loans w' = loans w ++ [new_loan (Some (Users.id u)) amt w]).
Proof.
  unfold try_catch.
  destruct (take_loan req req_user w) as [res w1] eqn:E.
  intros H. cbv zeta. unfold take_loan in E.
  bind_step E Hb.
  2:{ apply must_thrown in Hb as [-> _]. injection H as <- <-. left. simpl. auto. }
  apply must_ok in Hb as [-> Hb]. rename a into b.
  destruct (truthy (prop b "amount")) eqn:Ht; cbn [negb] in E.
  2:{ done_step E. injection H as <- <-. left. simpl. auto. }
  bind_step E Hm.
  2:{ apply with_id_run in Hm as [(_ & _ & ->) | (p & _ & Hm)];
        [|apply select_users_run in Hm as [-> _]];
        injection H as <- <-; left; simpl; auto. }
  apply with_id_run in Hm as [(_ & ? & _) | (p & Hp & Hm)]; [discriminate|].
  apply select_users_run in Hm as [-> [?|Ha]]; [discriminate|].
  injection Ha as ->. bind_step E Hm.
  2:{ apply must_thrown in Hm as [-> _]. injection H as <- <-. left. simpl. auto. }
  apply must_ok in Hm as [-> Hx]. rewrite head_map_filter in Hx.
  destruct (List.find (id_is p) (users w)) as [u|] eqn:Hu; [|discriminate].
  cbn [option_map] in Hx. injection Hx as Hx.
  assert (p = Some (Users.id u)) as ->
    by (apply id_is_some; apply List.find_some in Hu; tauto).
  rewrite (read_income u _ Hx), (read_balance u _ Hx) in E. fold (ceiling_of u) in E.
  rewrite !(with_id_some _ _ _ Hp) in E.
  destruct (Num.gtb _ (ceiling_of u)) eqn:Hg.
  { done_step E. injection H as <- <-. left. simpl. auto. }
  bind_step E Hm.
  2:{ apply insert_loan_run in Hm as (Hus & _ & _ & [[_ Hl]|[? _]]); [|discriminate].
      injection H as <- <-. left. simpl in *. auto. }
  apply insert_loan_run in Hm as (Hus & _ & _ & [[? _]|[_ Hl]]); [discriminate|].
  simpl in Hus, Hl. bind_step E Hm.
  2:{ apply update_balance_run in Hm as (Hl' & _ & _ & _ & [[_ Hus']|[? _]]);
        [|discriminate].
      injection H as <- <-. right; left. exists b, u. rewrite Hus', Hl'. auto 10. }
  apply update_balance_run in Hm as (Hl' & _ & _ & _ & [[? _]|[_ Hus']]);
    [discriminate|].
  done_step E. injection H as <- <-. right; right. exists b, u.
  rewrite Hus', Hl', Hus, Hl. auto 10.
Qed.

Lemma select_users_quiet cols p w :
  faults w = [] ->
  select_users cols p w =
    (Ok (map (fun u => select cols (Users.cells u)) (List.filter p (users w))), w).
Proof. intros H. unfold select_users. now rewrite query_quiet. Qed.

Lemma find_credited p b us :
  List.find (id_is p) (credited p b us) =
  option_map (Users.set_balance (Some (numeric_of_number b))) (List.find (id_is p) us).
Proof.
  induction us as [|u us IH]; simpl; [reflexivity|].
  destruct (id_is p u) eqn:E.
  - change (id_is p (Users.set_balance (Some (numeric_of_number b)) u))
      with (id_is p u).
    now rewrite E.
  - now rewrite E.
Qed.

(** The bank of the examples is a state of the server: Alice registers,
    then Bob, who declares no income. *)
Lemma bank_is_reachable :
  @reachable Reference.plain_bcrypt Reference.unary_jwt Reference.decimal_pg
    Example.bank.
Proof.
  exists 100, [], [],
    [Call (PostSignup
             (Request None
                (Some [("name", JStr "Alice"); ("email", JStr "alice@bank.io");
                 ("password", JStr "wonderland"); ("income", JStr "10000")]) None));
     Elapse 1;
     Call (PostSignup
             (Request None
                (Some [("name", JStr "Bob"); ("email", JStr "bob@bank.io");
                 ("password", JStr "builder"); ("income", JStr "")]) None));
     Elapse 99].
  vm_compute. reflexivity.
Qed.

(** ** The loan ledger *)

(** C1, as the code has it: the ceiling is three times the income stored
    for the user when the request runs (0 when the income is NULL); when
    the store does not fail, a request whose amount is truthy and parses
    to a number above the ceiling is answered 400 with the ceiling in
    the message, the EligibilityExceeded outcome, and changes nothing, and
    one whose amount is truthy and parses to the ceiling itself is
    answered 201. *)
Theorem take_loan_ceiling {pg : Pg} (req : request) (req_user : row) (w : world)
    (b : body) (uid : Z) (u : Users.t) :
  faults w = [] ->
  req_body req = Some b ->
  int_param (col req_user "id") = Some (Some uid) ->
  user_with (Some uid) w = Some u ->
  truthy (prop b "amount") = true ->
  let amt := parseFloat (prop b "amount") in
  ceiling_of u =
    Num.mul (match Users.monthly_income u with Some i => i | None => Num.zero end)
      (Num.of_Z 3) /\
  (Num.gtb amt (ceiling_of u) = true ->
   try_catch (take_loan req req_user) w =
     (Response 400 false (Some (MaximumLoan (ceiling_of u))) NoData, w) /\
   outcome_of (fst (try_catch (take_loan req req_user) w)) =
     EligibilityExceeded (ceiling_of u)) /\
  (Num.eqb amt (ceiling_of u) = true ->
   fst (try_catch (take_loan req req_user) w) =
     Response 201 true (Some (Text "Loan approved"))
       (NewBalance (Num.add (balance_of u) amt))).
Proof.
  intros Hf Hb Hid Hu Ht amt. split; [reflexivity|].
  assert (Hrun : take_loan req req_user w =
    (if Num.gtb amt (ceiling_of u)
     then ret (Response 400 false (Some (MaximumLoan (ceiling_of u))) NoData)
     else
       perform insert_loan (Some uid) amt "active" ;;
       perform update_balance (Num.add (balance_of u) amt) (Some uid) ;;
       ret (Response 201 true (Some (Text "Loan approved"))
              (NewBalance (Num.add (balance_of u) amt)))) w).
  { unfold take_loan. rewrite Hb. unfold bind at 1. cbn [must]. unfold ret at 1.
    unfold with_id. rewrite Ht, Hid. cbn [negb]. cbv beta iota.
    unfold bind at 1. rewrite (select_users_quiet _ _ _ Hf).
    unfold bind at 1. rewrite head_map_filter.
    unfold user_with in Hu. rewrite Hu. cbn [option_map must]. unfold ret at 1.
    rewrite (read_income u _ eq_refl), (read_balance u _ eq_refl).
    reflexivity. }
  unfold try_catch. rewrite Hrun. clear Hrun.
  split; intros Hc.
  - rewrite Hc. split; reflexivity.
  - rewrite (NumFacts.eqb_not_gtb _ _ Hc).
    unfold bind at 1. unfold insert_loan. rewrite (query_quiet _ _ Hf). cbv zeta.
    rewrite (find_some_existsb _ _ _ Hu).
    unfold bind at 1. unfold update_balance. rewrite query_quiet by exact Hf.
    reflexivity.
Qed.

Lemma take_loan_ceiling_witness :
  try_catch (@take_loan Reference.decimal_pg (Example.asking (JStr "30001"))
               (Example.logged_in Example.alice)) Example.bank =
    (Response 400 false (Some (MaximumLoan (Num.of_Z 30000))) NoData, Example.bank) /\
  fst (try_catch (@take_loan Reference.decimal_pg (Example.asking (JStr "30000"))
                    (Example.logged_in Example.alice)) Example.bank) =
    Response 201 true (Some (Text "Loan approved")) (NewBalance (Num.of_Z 80000)).
Proof.
  split.
  - exact (proj1 (proj1 (proj2 (@take_loan_ceiling Reference.decimal_pg
             (Example.asking (JStr "30001")) (Example.logged_in Example.alice)
             Example.bank _ 1 Example.alice eq_refl eq_refl eq_refl eq_refl eq_refl))
             eq_refl)).
  - exact (proj2 (proj2 (@take_loan_ceiling Reference.decimal_pg
             (Example.asking (JStr "30000")) (Example.logged_in Example.alice)
             Example.bank _ 1 Example.alice eq_refl eq_refl eq_refl eq_refl eq_refl))
             eq_refl).
Defined.

(** C1 fails as stated: Bob has no income, so his ceiling is 0; a request
    for the amount 0, which equals the ceiling, is answered 400 "Missing
    amount", an InvalidInput outcome. Likewise for Carol, whose stored
    income is -1000 and whose ceiling is -3000: the amount 0 is above the
    ceiling and gets the same answer. *)
Lemma zero_amount_at_zero_ceiling_is_refused :
  let carol :=
    Users.mk 3 "Carol" "carol@bank.io" "$2a$10$hatter"
      (Some (Num.of_Z (-1000))) None None None (Some (Num.of_Z 50000)) (Some 102) in
  let w := with_users [Example.alice; Example.bob; carol] Example.bank in
  let ask u := try_catch (@take_loan Reference.decimal_pg
                            (Example.asking (JNum Num.zero)) (Example.logged_in u)) w in
  user_with (Some 2) w = Some Example.bob /\
  ceiling_of Example.bob = Num.zero /\
  Num.eqb (parseFloat (JNum Num.zero)) (ceiling_of Example.bob) = true /\
  ask Example.bob = (fail 400 "Missing amount", w) /\
  outcome_of (fst (ask Example.bob)) = InvalidInput /\
  user_with (Some 3) w = Some carol /\
  ceiling_of carol = Num.of_Z (-3000) /\
  Num.gtb (parseFloat (JNum Num.zero)) (ceiling_of carol) = true /\
  ask carol = (fail 400 "Missing amount", w).
Proof. repeat split; vm_compute; reflexivity. Qed.

(** C3, as the code has it: for a request with a body, the handler answers
    400 "Missing amount", an InvalidInput outcome, and changes nothing
    whenever the amount is falsy, that is absent from the body, [null],
    [false], a zero, NaN or the empty string. For a request without a
    body the destructuring of line 229 throws: the answer is the 500
    "Server error", and nothing changes either. *)
Theorem take_loan_missing_amount {pg : Pg} (req : request) (req_user : row)
    (w : world) :
  (forall b, req_body req = Some b -> truthy (prop b "amount") = false ->
     try_catch (take_loan req req_user) w = (fail 400 "Missing amount", w)) /\
  (req_body req = None ->
     try_catch (take_loan req req_user) w = (fail 500 "Server error", w)) /\
  outcome_of (fail 400 "Missing amount") = InvalidInput /\
  outcome_of (fail 500 "Server error") = StoreFailure.
Proof.
  split; [|split; [|split; reflexivity]].
  - intros b Hb Ht. unfold try_catch, take_loan. rewrite Hb.
    unfold bind. cbn [must]. unfold ret at 1. rewrite Ht. reflexivity.
  - intros Hb. unfold try_catch, take_loan. rewrite Hb. reflexivity.
Qed.

Lemma take_loan_missing_amount_witness :
  let ask b :=
    try_catch (@take_loan Reference.decimal_pg (Request (Some "Bearer jwt.x") b None)
                 (Example.logged_in Example.alice)) Example.bank in
  ask (Some []) = (fail 400 "Missing amount", Example.bank) /\
  ask (Some [("amount", JStr "")]) = (fail 400 "Missing amount", Example.bank) /\
  ask (Some [("amount", JNum Num.nan)]) = (fail 400 "Missing amount", Example.bank) /\
  ask None = (fail 500 "Server error", Example.bank).
Proof.
  pose proof (fun b => @take_loan_missing_amount Reference.decimal_pg
                         (Request (Some "Bearer jwt.x") b None)
                         (Example.logged_in Example.alice) Example.bank) as T.
  cbv zeta. split; [|split; [|split]].
  - exact (proj1 (T (Some [])) _ eq_refl eq_refl).
  - exact (proj1 (T (Some [("amount", JStr "")])) _ eq_refl eq_refl).
  - exact (proj1 (T (Some [("amount", JNum Num.nan)])) _ eq_refl eq_refl).
  - exact (proj1 (proj2 (T None)) eq_refl).
Defined.

(** C3 fails as stated: the amount "-5" is below 0 and the amount "abc" is
    not numeric, and each is answered 201 with a loan row written; the
    first lowers the balance, the second turns it into NaN. And a request
    that brings no body, so no amount, is answered 500, not 400. *)
Lemma negative_and_non_numeric_amounts_are_accepted :
  let ask a := try_catch (@take_loan Reference.decimal_pg (Example.asking a)
                            (Example.logged_in Example.alice)) Example.bank in
  Num.negative (parseFloat (JStr "-5")) = true /\
  fst (ask (JStr "-5")) =
    Response 201 true (Some (Text "Loan approved")) (NewBalance (Num.of_Z 49995)) /\
  map Loans.amount (loans (snd (ask (JStr "-5")))) = [Num.of_Z (-5)] /\
  map Users.balance (users (snd (ask (JStr "-5")))) =
    [Some (Num.of_Z 49995); Some (Num.of_Z 50000)] /\
  parseFloat (JStr "abc") = Num.nan /\
  fst (ask (JStr "abc")) =
    Response 201 true (Some (Text "Loan approved")) (NewBalance Num.nan) /\
  map Loans.amount (loans (snd (ask (JStr "abc")))) = [Num.nan] /\
  map Users.balance (users (snd (ask (JStr "abc")))) =
    [Some Num.nan; Some (Num.of_Z 50000)] /\
  fst (try_catch (@take_loan Reference.decimal_pg (Request (Some "Bearer jwt.x") None None)
                    (Example.logged_in Example.alice)) Example.bank) =
    fail 500 "Server error" /\
  outcome_of (fail 500 "Server error") = StoreFailure.
Proof. repeat split; vm_compute; reflexivity. Qed.

(** C2, as the code has it: when the handler answers with success, the
    request has a body, the user it acted on is a row [u] of the store,
    and with [a] the number [parseFloat] reads from the amount: the answer
    is 201 and carries the sum of the balance of [u] and [a], a sum of
    JavaScript numbers, rounded as they are; the [balance] column of the
    rows with the id of [u] now holds this sum (as a NUMERIC value) and
    nothing else in [users] has changed; and [loans] has one more row, for
    this user, with the amount [a] and the status 'active'. *)
Theorem take_loan_credits_balance {pg : Pg} (req : request) (req_user : row)
    (w : world) (r : response) (w' : world) :
  try_catch (take_loan req req_user) w = (r, w') ->
  success r = true ->
  exists (b : body) (uid : Z) (u u' : Users.t),
    let a := parseFloat (prop b "amount") in
    let newBalance := Num.add (balance_of u) a in
    req_body req = Some b /\
    int_param (col req_user "id") = Some (Some uid) /\
    user_with (Some uid) w = Some u /\
    r = Response 201 true (Some (Text "Loan approved")) (NewBalance newBalance) /\
    user_with (Some uid) w' = Some u' /\
    Users.balance u' = Some (numeric_of_number newBalance) /\
    users w' =
      map (fun v =>
             if Users.id v =? uid then
               Users.mk (Users.id v) (Users.name v) (Users.email v) (Users.password v)
                 (Users.monthly_income v) (Users.date_of_birth v) (Users.address v)
                 (Users.nid_picture v) (Some (numeric_of_number newBalance))
                 (Users.created_at v)
             else v) (users w) /\
    loans w' =
      loans w ++
        [Loans.mk (loans_id_seq w + 1) (Some uid) (numeric_of_number a)
           (Some "active") (Some (clock w)) None].
Proof.
  intros H Hs. apply take_loan_runs in H. cbv zeta in H.
  destruct H as [(Hf & _) | [(b & u & _ & _ & _ & -> & _)
                            | (b & u & Hb & Hid & Hu & Ht & Hg & -> & Hus & Hl)]];
    [congruence | discriminate |].
  exists b, (Users.id u), u,
    (Users.set_balance
       (Some (numeric_of_number (Num.add (balance_of u) (parseFloat (prop b "amount")))))
       u).
  cbv zeta. split; [exact Hb|]. split; [exact Hid|]. split; [exact Hu|].
  split; [reflexivity|]. split.
  { unfold user_with. rewrite Hus, find_credited.
    unfold user_with in Hu. rewrite Hu. reflexivity. }
  split; [reflexivity|]. split; [exact Hus | exact Hl].
Qed.

Lemma take_loan_credits_balance_witness :
  let out :=
    try_catch (@take_loan Reference.decimal_pg (Example.asking (JStr "12500.00"))
                 (Example.logged_in Example.alice)) Example.bank in
  fst out = Response 201 true (Some (Text "Loan approved")) (NewBalance (Num.of_Z 62500)) /\
  map Users.balance (users (snd out)) = [Some (Num.of_Z 62500); Some (Num.of_Z 50000)] /\
  loans (snd out) =
    [Loans.mk 1 (Some 1) (Num.of_Z 12500) (Some "active") (Some 200) None].
Proof.
  intros out.
  destruct (@take_loan_credits_balance Reference.decimal_pg
              (Example.asking (JStr "12500.00")) (Example.logged_in Example.alice)
              Example.bank (fst out) (snd out) eq_refl eq_refl)
    as (b & uid & u & u' & Hb & Hid & Hu & Hr & _ & _ & Hus & Hl).
  injection Hb as <-. injection Hid as <-. injection Hu as <-.
  split; [exact Hr|]. split; [|exact Hl].
  rewrite Hus. reflexivity.
Defined.

(** C2 fails as stated, where the sum is not a number: after a loan that
    brings her balance to 9007199254740992 (2^53), Alice borrows 1; the
    request is answered 201, the loan row holds the amount 1, and her
    balance is what it was. *)
Lemma credit_of_one_is_rounded_away :
  let register :=
    Request None
      (Some [("name", JStr "Alice"); ("email", JStr "alice@bank.io");
             ("password", JStr "wonderland"); ("income", JStr "10000000000000000")])
      None in
  let borrow a := PostTakeLoan (Example.asking (JStr a)) in
  let w2 :=
    @run Reference.plain_bcrypt Reference.unary_jwt Reference.decimal_pg
      [Call (PostSignup register); Call (borrow "9007199254690992")]
      (initDb 100 [] []) in
  let out :=
    @serve Reference.plain_bcrypt Reference.unary_jwt Reference.decimal_pg
      (borrow "1") w2 in
  map Users.balance (users w2) = [Some (Num.of_Z 9007199254740992)] /\
  parseFloat (JStr "1") = Num.of_Z 1 /\
  fst out =
    Response 201 true (Some (Text "Loan approved"))
      (NewBalance (Num.of_Z 9007199254740992)) /\
  map Users.balance (users (snd out)) = [Some (Num.of_Z 9007199254740992)] /\
  map Loans.amount (loans (snd out)) = [Num.of_Z 9007199254690992; Num.of_Z 1].
Proof. repeat split; vm_compute; reflexivity. Qed.

(** C5: every run of the handler ends in one of two ways. Either it
    answers with success, and then the loan row was inserted and the
    [balance] column of the user holds the sum; or it answers with a
    failure, and then [users] is untouched and either no loan row was
    written or the loan row was written and the answer is the 500 "Server
    error". No run answers with success after one write only. *)
Theorem take_loan_reports_partial_write {pg : Pg} (req : request) (req_user : row)
    (w : world) :
  let r := fst (try_catch (take_loan req req_user) w) in
  let w' := snd (try_catch (take_loan req req_user) w) in
  (success r = true /\
   exists (b : body) (u u' : Users.t),
     let amt := parseFloat (prop b "amount") in
     let newBalance := Num.add (balance_of u) amt in
     req_body req = Some b /\
     int_param (col req_user "id") = Some (Some (Users.id u)) /\
     user_with (Some (Users.id u)) w = Some u /\
     loans w' =
       loans w ++
         [Loans.mk (loans_id_seq w + 1) (Some (Users.id u)) (numeric_of_number amt)
            (Some "active") (Some (clock w)) None] /\
     user_with (Some (Users.id u)) w' = Some u' /\
     Users.balance u' = Some (numeric_of_number newBalance) /\
     users w' =
       map (fun v =>
              if Users.id v =? Users.id u then
                Users.mk (Users.id v) (Users.name v) (Users.email v) (Users.password v)
                  (Users.monthly_income v) (Users.date_of_birth v) (Users.address v)
                  (Users.nid_picture v) (Some (numeric_of_number newBalance))
                  (Users.created_at v)
              else v) (users w)) \/
  (success r = false /\
   users w' = users w /\
   (loans w' = loans w \/
    (r = fail 500 "Server error" /\
     exists (b : body) (u : Users.t),
       req_body req = Some b /\
       int_param (col req_user "id") = Some (Some (Users.id u)) /\
       user_with (Some (Users.id u)) w = Some u /\
       loans w' =
         loans w ++
           [Loans.mk (loans_id_seq w + 1) (Some (Users.id u))
              (numeric_of_number (parseFloat (prop b "amount")))
              (Some "active") (Some (clock w)) None]))).
Proof.
  cbv zeta.
  destruct (try_catch (take_loan req req_user) w) as [r w'] eqn:E.
  apply take_loan_runs in E. cbv zeta in E. simpl fst. simpl snd.
  destruct E as [(Hf & _ & Hus & Hl)
                | [(b & u & Hb & Hid & Hu & -> & Hus & Hl)
                  | (b & u & Hb & Hid & Hu & _ & _ & -> & Hus & Hl)]].
  - right. auto.
  - right. split; [reflexivity|]. split; [exact Hus|]. right.
    split; [reflexivity|]. exists b, u. auto.
  - left. split; [reflexivity|].
    exists b, u,
      (Users.set_balance
         (Some (numeric_of_number
                  (Num.add (balance_of u) (parseFloat (prop b "amount"))))) u).
    split; [exact Hb|]. split; [exact Hid|]. split; [exact Hu|]. split; [exact Hl|].
    split.
    { unfold user_with. rewrite Hus, find_credited.
      unfold user_with in Hu. rewrite Hu. reflexivity. }
    split; [reflexivity | exact Hus].
Qed.

(** A request whose INSERT is done and whose UPDATE fails: the answer is
    the 500, the loan row is there and no balance has changed. *)
Example take_loan_partial_write :
  let failing := with_faults [false; false; true] Example.bank in
  let out :=
    try_catch (@take_loan Reference.decimal_pg (Example.asking (JStr "100"))
                 (Example.logged_in Example.alice)) failing in
  fst out = fail 500 "Server error" /\
  users (snd out) = users Example.bank /\
  loans (snd out) = [Loans.mk 1 (Some 1) (Num.of_Z 100) (Some "active") (Some 200) None].
Proof. repeat split; vm_compute; reflexivity. Qed.

(** ** The authentication gate *)

Lemma strip_prefix_app p s r : Lex.strip_prefix p s = Some r -> s = p ++ r.
Proof.
  revert s. induction p as [|a p IH]; intros [|b s]; simpl; try congruence.
  destruct (Ascii.eqb_spec a b) as [->|]; [|discriminate].
  intros H. f_equal. auto.
Qed.

Lemma skip_spaces_compact l :
  Forall (fun c => Lex.is_space c = false) l -> Lex.skip_spaces l = l.
Proof. intros [|c r Hc _]; simpl; [reflexivity|]. now rewrite Hc. Qed.

(** A compact token is left as it is. *)
Lemma strip_bearer_bare t : compact t -> strip_bearer t = t.
Proof.
  intros [_ Hs]. unfold strip_bearer.
  destruct (Lex.strip_prefix _ _) as [[|c r]|] eqn:E; try reflexivity.
  apply strip_prefix_app in E. rewrite E in Hs.
  apply Forall_app in Hs as [_ Hs]. inversion Hs as [|? ? Hc _]; subst.
  now rewrite Hc.
Qed.

(** The prefix of a compact token is removed. *)
Lemma strip_bearer_prefixed t : compact t -> strip_bearer ("Bearer " ++ t) = t.
Proof.
  intros [_ Hs]. unfold strip_bearer. simpl.
  rewrite (skip_spaces_compact _ Hs). apply string_of_list_ascii_of_string.
Qed.

(** An INTEGER parameter is within the range of INTEGER. *)
Lemma int_param_in_range {pg : Pg} (c : cell) (z : Z) :
  int_param c = Some (Some z) -> int4_min <= z <= int4_max.
Proof.
  destruct c as [|x|s|x|t]; simpl; try discriminate.
  - destruct (_ && _) eqn:E; [|discriminate]. intros H. injection H as <-.
    apply andb_prop in E as [E1 E2]. apply Z.leb_le in E1, E2. auto.
  - destruct (integer_of_text s) as [x|] eqn:E; [|discriminate].
    intros H. injection H as <-. exact (integer_in_range _ _ E).
  - destruct (integer_of_text (number_text x)) as [y|] eqn:E; [|discriminate].
    intros H. injection H as <-. exact (integer_in_range _ _ E).
Qed.

(** An integer within the range of INTEGER is read back as it is. *)
Lemma int_param_int {pg : Pg} (z : Z) :
  int4_min <= z <= int4_max -> int_param (CInt z) = Some (Some z).
Proof.
  intros [H1 H2]. cbn. apply Z.leb_le in H1, H2. now rewrite H1, H2.
Qed.

(** The row the gate attaches carries the id of the user, an INTEGER: the
    handlers that receive it act on this user. *)
Lemma projected_id {pg : Pg} (u : Users.t) :
  int4_min <= Users.id u <= int4_max ->
  int_param (col (projected u) "id") = Some (Some (Users.id u)).
Proof. apply int_param_int. Qed.

Lemma projected_id_cases {pg : Pg} (u : Users.t) :
  int_param (col (projected u) "id") = Some (Some (Users.id u)) \/
  int_param (col (projected u) "id") = None.
Proof. cbn. destruct (_ && _); auto. Qed.

(** The row found under a parameter has the id the parameter names. *)
Lemma found_id {pg : Pg} (c : cell) (p : option Z) (w : world) (u : Users.t) :
  int_param c = Some p -> user_with p w = Some u ->
  p = Some (Users.id u) /\ In u (users w) /\
  int_param (col (projected u) "id") = Some (Some (Users.id u)).
Proof.
  intros Hp Hu. unfold user_with in Hu. apply List.find_some in Hu as [Hin Hid].
  apply id_is_some in Hid. subst p. split; [reflexivity|]. split; [exact Hin|].
  apply projected_id. exact (int_param_in_range _ _ Hp).
Qed.

Section Gate.

Context {jwt : Jwt} {pg : Pg}.

(** The gate on a header that is there: the token is checked, then the
    user is looked up. *)
Lemma authMiddleware_token (req : request) (w : world) (auth : string) :
  authorization req = Some auth -> auth <> "" ->
  authMiddleware req w =
    match jwt_verify (strip_bearer auth) (clock w) with
    | None => (Answered (fail 401 "Invalid or expired token"), w)
    | Some decoded =>
        match faults w with
        | true :: _ => (Answered server_error, pop_fault w)
        | _ =>
            match int_param (col decoded "id") with
            | None => (Answered server_error, pop_fault w)
            | Some p =>
                match user_with p w with
                | None => (Answered (fail 401 "User not found"), pop_fault w)
                | Some u => (Next (select gate_columns (Users.cells u)), pop_fault w)
                end
            end
        end
    end.
Proof.
  intros Ha Hne. unfold authMiddleware. rewrite Ha.
  destruct (String.eqb_spec auth "") as [|_]; [contradiction|].
  unfold try_or, verifyJwt.
  destruct (jwt_verify (strip_bearer auth) (clock w)) as [decoded|]; [|reflexivity].
  unfold bind, with_id.
  destruct (int_param (col decoded "id")) as [p|].
  - unfold select_users, query.
    destruct (faults w) as [|[] fs] eqn:Hf; try reflexivity.
    + unfold user_with. rewrite find_head_filter.
      change (users (pop_fault w)) with (users w).
      destruct (List.filter _ (users w)); reflexivity.
    + unfold user_with. rewrite find_head_filter.
      change (users (pop_fault w)) with (users w).
      destruct (List.filter _ (users w)); reflexivity.
  - unfold query, throw. destruct (faults w) as [|[] fs]; reflexivity.
Qed.

Lemma quiet_head (w : world) :
  head (faults w) <> Some true ->
  match faults w with true :: _ => False | _ => True end.
Proof.
  destruct (faults w) as [|[] ?]; simpl; intros H; try exact I.
  now apply H.
Qed.


(** C10: a token that [jwt.verify] accepts is compact, so the gate strips
    nothing from it when it comes bare and strips exactly the prefix when
    it comes after "Bearer "; the two headers are treated alike, and when
    the lookup succeeds both resolve to the user the token names. *)
Theorem bare_token_as_bearer (req : request) (w : world) (t : string)
    (decoded : row) :
  jwt_verify t (clock w) = Some decoded ->
  strip_bearer t = t /\
  strip_bearer ("Bearer " ++ t) = t /\
  authMiddleware (with_authorization (Some t) req) w =
    authMiddleware (with_authorization (Some ("Bearer " ++ t)%string) req) w /\
  (forall p u,
     head (faults w) <> Some true ->
     int_param (col decoded "id") = Some p ->
     user_with p w = Some u ->
     authMiddleware (with_authorization (Some t) req) w =
       (Next (projected u), pop_fault w)).
Proof.
  intros Hv. pose proof (jwt_verify_compact _ _ _ Hv) as Hc.
  pose proof (strip_bearer_bare t Hc) as Hb.
  pose proof (strip_bearer_prefixed t Hc) as Hp.
  assert (H1 : forall r, authorization (with_authorization (Some r) req) = Some r)
    by reflexivity.
  assert (Hbare : authMiddleware (with_authorization (Some t) req) w =
    match faults w with
    | true :: _ => (Answered server_error, pop_fault w)
    | _ =>
        match int_param (col decoded "id") with
        | None => (Answered server_error, pop_fault w)
        | Some p =>
            match user_with p w with
            | None => (Answered (fail 401 "User not found"), pop_fault w)
            | Some u => (Next (projected u), pop_fault w)
            end
        end
    end).
  { rewrite (authMiddleware_token _ w t (H1 t) (proj1 Hc)), Hb, Hv. reflexivity. }
  repeat apply conj; try assumption.
  - rewrite Hbare.
    rewrite (authMiddleware_token _ w ("Bearer " ++ t)%string (H1 _)), Hp, Hv;
      [reflexivity | discriminate].
  - intros p u Hq Hid Hu. rewrite Hbare, Hid, Hu.
    apply quiet_head in Hq. destruct (faults w) as [|[] ?]; tauto.
Qed.

End Gate.


(** A token whose id is a string: the store reads the string as an
    INTEGER, so "2" and "+2" name the user 2, and it refuses "two" and
    99999999999, which is the 500. *)
Example gate_reads_the_id_as_the_store_does :
  let gate t :=
    fst (@authMiddleware Reference.text_jwt Reference.decimal_pg
           (Request (Some ("Bearer " ++ t)%string) None None) Example.bank) in
  gate "jwt:2" = Next (projected Example.bob) /\
  gate "jwt:+2" = Next (projected Example.bob) /\
  gate "jwt:7" = Answered (fail 401 "User not found") /\
  gate "jwt:two" = Answered (fail 500 "Server error") /\
  gate "jwt:99999999999" = Answered (fail 500 "Server error").
Proof. repeat split; vm_compute; reflexivity. Qed.

Lemma bare_token_as_bearer_witness :
  let gate h :=
    @authMiddleware Reference.unary_jwt Reference.decimal_pg (Request h None None)
      Example.bank in
  strip_bearer "jwt.x" = "jwt.x" /\
  strip_bearer "Bearer jwt.x" = "jwt.x" /\
  gate (Some "jwt.x") = gate (Some "Bearer jwt.x") /\
  gate (Some "jwt.x") = (Next (projected Example.alice), Example.bank).
Proof.
  pose proof (@bare_token_as_bearer Reference.unary_jwt Reference.decimal_pg
                (Request None None None) Example.bank "jwt.x" [("id", CInt 1)] eq_refl)
    as (H1 & H2 & H3 & H4).
  cbv zeta. repeat apply conj.
  - exact H1.
  - exact H2.
  - exact H3.
  - apply (H4 (Some 1) Example.alice); [discriminate | reflexivity | reflexivity].
Defined.

(** ** The loan history *)

(** *** The sort *)

Lemma placed_Permutation {A : Type} (le : A -> A -> bool) (x : A) (l : list A) :
  Permutation (placed le x l) (x :: l).
Proof.
  induction l as [|y r IH]; simpl; [reflexivity|].
  destruct (le x y); [reflexivity|].
  etransitivity; [apply perm_skip, IH | apply perm_swap].
Qed.

Lemma sorted_by_Permutation {A : Type} (le : A -> A -> bool) (l : list A) :
  Permutation (sorted_by le l) l.
Proof.
  induction l as [|x l IH]; simpl; [constructor|].
  etransitivity; [apply placed_Permutation | now apply perm_skip].
Qed.

Section Sorting.

Context {A : Type} (le : A -> A -> bool).
Hypothesis le_total : forall a b, le a b = false -> le b a = true.
Hypothesis le_transitive : forall a b c, le a b = true -> le b c = true -> le a c = true.

Lemma placed_sorted (x : A) (l : list A) :
  StronglySorted (fun a b => le a b = true) l ->
  StronglySorted (fun a b => le a b = true) (placed le x l).
Proof.
  induction 1 as [|y r Hr IH Hy]; simpl.
  - repeat constructor.
  - destruct (le x y) eqn:E.
    + constructor; [now constructor|]. constructor; [exact E|].
      revert Hy. apply List.Forall_impl. intros a. now apply le_transitive.
    + constructor; [exact IH|].
      apply List.Forall_forall. intros a Ha.
      apply (Permutation_in _ (placed_Permutation le x r)) in Ha.
      destruct Ha as [<-|Ha]; [now apply le_total|].
      rewrite List.Forall_forall in Hy. now apply Hy.
Qed.

Lemma sorted_by_sorted (l : list A) :
  StronglySorted (fun a b => le a b = true) (sorted_by le l).
Proof.
  induction l as [|x l IH]; simpl; [constructor|]. now apply placed_sorted.
Qed.

End Sorting.

(** The sort is stable: the rows it does not tell apart keep their
    order. *)
Lemma filter_placed {A : Type} (le : A -> A -> bool) (P : A -> bool) (x : A)
    (l : list A) :
  (forall y, P x = true -> P y = true -> le x y = true) ->
  List.filter P (placed le x l) =
    if P x then x :: List.filter P l else List.filter P l.
Proof.
  intros Hle. induction l as [|y r IH]; simpl; [reflexivity|].
  destruct (le x y) eqn:E; simpl; [reflexivity|].
  rewrite IH. destruct (P x) eqn:Px; [|reflexivity].
  destruct (P y) eqn:Py; [|reflexivity].
  rewrite (Hle y eq_refl Py) in E. discriminate E.
Qed.

Lemma filter_sorted_by {A : Type} (le : A -> A -> bool) (P : A -> bool) (l : list A) :
  (forall x y, P x = true -> P y = true -> le x y = true) ->
  List.filter P (sorted_by le l) = List.filter P l.
Proof.
  intros Hle. induction l as [|x l IH]; simpl; [reflexivity|].
  rewrite filter_placed by (intros y; apply Hle). now rewrite IH.
Qed.

(** A list that is sorted is left as it is. *)
Lemma sorted_by_sorted_same {A : Type} (le : A -> A -> bool) (l : list A) :
  StronglySorted (fun a b => le a b = true) l -> sorted_by le l = l.
Proof.
  induction 1 as [|x l Hl IH Hx]; simpl; [reflexivity|].
  rewrite IH. destruct l as [|y r]; [reflexivity|].
  inversion Hx as [|? ? Hxy _]; subst. simpl. now rewrite Hxy.
Qed.

Lemma sorted_lookup {A : Type} (R : A -> A -> Prop) (l : list A) (i j : nat) (a b : A) :
  StronglySorted R l -> (i < j)%nat -> l !! i = Some a -> l !! j = Some b -> R a b.
Proof.
  intros Hl. revert i j. induction Hl as [|x l Hl IH Hx]; intros i j Hij Hi Hj.
  - discriminate Hi.
  - destruct j as [|j]; [lia|]. destruct i as [|i]; simpl in Hi, Hj.
    + injection Hi as <-. exact (Forall_lookup_1 _ _ _ _ Hx Hj).
    + apply (IH i j); [lia | exact Hi | exact Hj].
Qed.

Lemma newer_first_total (a b : Loans.t) :
  newer_first a b = false -> newer_first b a = true.
Proof.
  unfold newer_first.
  destruct (Loans.taken_at a), (Loans.taken_at b); try congruence; try reflexivity.
  intros H. apply Z.leb_gt in H. apply Z.leb_le. lia.
Qed.

Lemma newer_first_transitive (a b c : Loans.t) :
  newer_first a b = true -> newer_first b c = true -> newer_first a c = true.
Proof.
  unfold newer_first.
  destruct (Loans.taken_at a), (Loans.taken_at b), (Loans.taken_at c);
    try congruence; try reflexivity.
  rewrite !Z.leb_le. lia.
Qed.

Lemma newer_first_same (a b : Loans.t) :
  Loans.taken_at a = Loans.taken_at b -> newer_first a b = true.
Proof.
  unfold newer_first. intros ->. destruct (Loans.taken_at b); [|reflexivity].
  apply Z.leb_refl.
Qed.

(** C9: when the query does not fail, the handler answers with the rows of
    [loans] whose [user_id] is the id of [req.user], each with its six
    columns, and no other row; they are sorted by [taken_at] with the
    newest first (NULL before all), and the rows with the same [taken_at]
    come from the last inserted to the first. *)
Theorem list_loans_own_newest_first {pg : Pg} (req : request) (req_user : row)
    (w : world) (uid : Z) :
  int_param (col req_user "id") = Some (Some uid) ->
  head (faults w) <> Some true ->
  let own :=
    List.filter (fun l => match Loans.user_id l with
                          | Some z => z =? uid
                          | None => false
                          end) (loans w) in
  exists ls : list Loans.t,
    try_catch (list_loans req req_user) w =
      (Response 200 true None
         (LoanRows
            (map (fun l =>
                    [("id", CInt (Loans.id l));
                     ("user_id", opt_cell CInt (Loans.user_id l));
                     ("amount", CNumeric (Loans.amount l));
                     ("status", opt_cell CText (Loans.status l));
                     ("taken_at", opt_cell CTime (Loans.taken_at l));
                     ("paid_at", opt_cell CTime (Loans.paid_at l))]) ls)),
       pop_fault w) /\
    Permutation ls own /\
    (forall l, In l ls <-> In l (loans w) /\ Loans.user_id l = Some uid) /\
    (forall i j a b,
       (i < j)%nat -> ls !! i = Some a -> ls !! j = Some b ->
       match Loans.taken_at a, Loans.taken_at b with
       | Some x, Some y => y <= x
       | None, _ => True
       | Some _, None => False
       end) /\
    (forall t,
       List.filter (fun l => bool_decide (Loans.taken_at l = t)) ls =
       rev (List.filter (fun l => bool_decide (Loans.taken_at l = t)) own)).
Proof.
  intros Hid Hq own.
  assert (Hown : own = List.filter (loan_of (Some uid)) (loans w)) by reflexivity.
  exists (sorted_by newer_first (rev own)).
  assert (HP : Permutation (sorted_by newer_first (rev own)) own).
  { etransitivity; [apply sorted_by_Permutation|].
    symmetry. apply Permutation_rev. }
  split; [|split; [exact HP|split; [|split]]].
  - unfold try_catch, list_loans. rewrite (with_id_some _ _ _ Hid).
    unfold bind, select_loans_of, query.
    apply quiet_head in Hq.
    destruct (faults w) as [|[] ?]; [reflexivity | contradiction | reflexivity].
  - intros l. split; intros Hl.
    + apply (Permutation_in _ HP), filter_In in Hl.
      destruct Hl as [Hl Hu]. split; [exact Hl|].
      destruct (Loans.user_id l); [|discriminate].
      apply Z.eqb_eq in Hu. now subst.
    + apply (Permutation_in _ (Permutation_sym HP)), filter_In.
      apply conj; [tauto|]. destruct Hl as [_ ->]. apply Z.eqb_refl.
  - intros i j a b Hij Hi Hj.
    pose proof (sorted_lookup _ _ i j a b
                  (sorted_by_sorted newer_first newer_first_total
                     newer_first_transitive (rev own)) Hij Hi Hj) as H.
    unfold newer_first in H.
    destruct (Loans.taken_at a), (Loans.taken_at b); try exact I;
      [now apply Z.leb_le | discriminate H].
  - intros t. rewrite filter_sorted_by; [apply filter_rev|].
    intros x y Hx Hy. apply bool_decide_eq_true_1 in Hx, Hy.
    apply newer_first_same. congruence.
Qed.

Lemma list_loans_own_newest_first_witness :
  let ledger :=
    with_loans
      [Loans.mk 1 (Some 1) (Num.of_Z 100) (Some "active") (Some 300) None;
       Loans.mk 2 (Some 2) (Num.of_Z 200) (Some "active") (Some 450) None;
       Loans.mk 3 (Some 1) (Num.of_Z 300) (Some "active") (Some 500) None;
       Loans.mk 4 (Some 1) (Num.of_Z 400) (Some "active") (Some 400) None;
       Loans.mk 5 (Some 1) (Num.of_Z 500) (Some "active") (Some 400) None]
      Example.bank in
  let own :=
    List.filter (fun l => match Loans.user_id l with
                          | Some z => z =? 1
                          | None => false
                          end) (loans ledger) in
  exists ls : list Loans.t,
    try_catch (@list_loans Reference.decimal_pg (Request (Some "Bearer jwt.x") None None)
                 (Example.logged_in Example.alice)) ledger =
      (Response 200 true None
         (LoanRows
            (map (fun l =>
                    [("id", CInt (Loans.id l));
                     ("user_id", opt_cell CInt (Loans.user_id l));
                     ("amount", CNumeric (Loans.amount l));
                     ("status", opt_cell CText (Loans.status l));
                     ("taken_at", opt_cell CTime (Loans.taken_at l));
                     ("paid_at", opt_cell CTime (Loans.paid_at l))]) ls)),
       pop_fault ledger) /\
    Permutation ls own /\
    (forall l, In l ls <-> In l (loans ledger) /\ Loans.user_id l = Some 1) /\
    (forall i j a b,
       (i < j)%nat -> ls !! i = Some a -> ls !! j = Some b ->
       match Loans.taken_at a, Loans.taken_at b with
       | Some x, Some y => y <= x
       | None, _ => True
       | Some _, None => False
       end) /\
    (forall t,
       List.filter (fun l => bool_decide (Loans.taken_at l = t)) ls =
       rev (List.filter (fun l => bool_decide (Loans.taken_at l = t)) own)).
Proof.
  intros ledger.
  apply (@list_loans_own_newest_first Reference.decimal_pg
           (Request (Some "Bearer jwt.x") None None)
           (Example.logged_in Example.alice) ledger 1);
    [reflexivity | discriminate].
Defined.

(** The rows of the witness as they are listed: the loan of Bob is left
    out, the loans 5 and 4, taken under the same reading of the clock, come
    last inserted first. *)
Example loans_are_listed_newest_first :
  let ledger :=
    with_loans
      [Loans.mk 1 (Some 1) (Num.of_Z 100) (Some "active") (Some 300) None;
       Loans.mk 2 (Some 2) (Num.of_Z 200) (Some "active") (Some 450) None;
       Loans.mk 3 (Some 1) (Num.of_Z 300) (Some "active") (Some 500) None;
       Loans.mk 4 (Some 1) (Num.of_Z 400) (Some "active") (Some 400) None;
       Loans.mk 5 (Some 1) (Num.of_Z 500) (Some "active") (Some 400) None]
      Example.bank in
  fst (try_catch (@list_loans Reference.decimal_pg
                    (Request (Some "Bearer jwt.x") None None)
                    (Example.logged_in Example.alice)) ledger) =
    Response 200 true None
      (LoanRows
         [ [("id", CInt 3); ("user_id", CInt 1); ("amount", CNumeric (Num.of_Z 300));
            ("status", CText "active"); ("taken_at", CTime 500); ("paid_at", CNull)];
           [("id", CInt 5); ("user_id", CInt 1); ("amount", CNumeric (Num.of_Z 500));
            ("status", CText "active"); ("taken_at", CTime 400); ("paid_at", CNull)];
           [("id", CInt 4); ("user_id", CInt 1); ("amount", CNumeric (Num.of_Z 400));
            ("status", CText "active"); ("taken_at", CTime 400); ("paid_at", CNull)];
           [("id", CInt 1); ("user_id", CInt 1); ("amount", CNumeric (Num.of_Z 100));
            ("status", CText "active"); ("taken_at", CTime 300); ("paid_at", CNull)] ]).
Proof. vm_compute. reflexivity. Qed.

(** ** Registration *)

Section Registration.

Context {bcrypt : Bcrypt} {pg : Pg}.

(** A registration under the email of a row of [users] never reaches the
    INSERT: it is refused for a missing field, or the lookup fails, or the
    lookup finds the row. *)
Lemma signup_with_taken_run (nid : option string) (req : request) (w : world)
    (b : body) (u : Users.t) :
  In u (users w) ->
  req_body req = Some b ->
  param_text (prop b "email") = Some (Users.email u) ->
  signup_with nid req w =
    if negb (truthy (prop b "name"))
       || negb (truthy (prop b "email"))
       || negb (truthy (prop b "password"))
    then (Ok (fail 400 "Missing required fields"), w)
    else
      match faults w with
      | true :: _ => (Thrown, pop_fault w)
      | _ => (Ok (fail 400 "Email already registered"), pop_fault w)
      end.
Proof.
  intros Hin Hb He. unfold signup_with. rewrite (bind_must_some _ _ _ Hb).
  destruct (negb _ || negb _ || negb _); [reflexivity|].
  rewrite He. unfold bind at 1. unfold select_users, query.
  assert (Hrows : exists x l,
    map (fun u0 => select ["id"] (Users.cells u0))
      (List.filter (email_is (Some (Users.email u))) (users w)) = x :: l).
  { assert (Hf : In u (List.filter (email_is (Some (Users.email u))) (users w))).
    { apply filter_In. split; [exact Hin|]. simpl. apply String.eqb_refl. }
    destruct (List.filter _ (users w)) as [|v l]; [destruct Hf|].
    simpl. eauto. }
  destruct Hrows as (x & l & Hrows).
  change (users (pop_fault w)) with (users w). rewrite Hrows.
  destruct (faults w) as [|[] fs]; reflexivity.
Qed.

Lemma signup_with_taken (nid : option string) (req : request) (w : world)
    (b : body) (u : Users.t) :
  In u (users w) ->
  req_body req = Some b ->
  param_text (prop b "email") = Some (Users.email u) ->
  let r := fst (try_catch (signup_with nid req) w) in
  let w' := snd (try_catch (signup_with nid req) w) in
  users w' = users w /\
  (truthy (prop b "name") = true ->
   truthy (prop b "email") = true ->
   truthy (prop b "password") = true ->
   head (faults w) <> Some true ->
   r = fail 400 "Email already registered").
Proof.
  intros Hin Hb He. cbv zeta. unfold try_catch.
  rewrite (signup_with_taken_run nid req w b u Hin Hb He).
  split.
  - destruct (negb _ || negb _ || negb _); [reflexivity|].
    destruct (faults w) as [|[] fs]; reflexivity.
  - intros -> -> -> Hq. cbn [negb orb].
    apply quiet_head in Hq. destruct (faults w) as [|[] fs]; [reflexivity|tauto|reflexivity].
Qed.

(** C7, as the code has it: a registration under the email of a registered
    user creates no row, on either sign-up route and whatever else it
    holds; when it supplies a name, an email and a password and the lookup
    does not fail, it is answered 400 "Email already registered", the
    DuplicateEmail outcome. *)
Theorem signup_duplicate_email (req : request) (w : world) (b : body) (u : Users.t) :
  In u (users w) ->
  req_body req = Some b ->
  param_text (prop b "email") = Some (Users.email u) ->
  users (snd (signup req w)) = users w /\
  users (snd (signup_with_file req w)) = users w /\
  (truthy (prop b "name") = true ->
   truthy (prop b "email") = true ->
   truthy (prop b "password") = true ->
   head (faults w) <> Some true ->
   fst (signup req w) = fail 400 "Email already registered" /\
   fst (signup_with_file req w) = fail 400 "Email already registered" /\
   outcome_of (fail 400 "Email already registered") = DuplicateEmail).
Proof.
  intros Hin Hb He. unfold signup, signup_with_file.
  pose proof (signup_with_taken None req w b u Hin Hb He) as [H1 H2].
  pose proof (signup_with_taken
                (match req_file req with
                 | Some filename => Some ("/uploads/" ++ filename)%string
                 | None => None
                 end) req w b u Hin Hb He) as [H3 H4].
  repeat apply conj; auto.
Qed.

End Registration.

Lemma signup_duplicate_email_witness :
  let again :=
    Request None (Some [("name", JStr "Alice B."); ("email", JStr "alice@bank.io");
                  ("password", JStr "rabbit")]) None in
  users (snd (@signup Reference.plain_bcrypt Reference.decimal_pg again Example.bank))
    = users Example.bank /\
  fst (@signup Reference.plain_bcrypt Reference.decimal_pg again Example.bank)
    = fail 400 "Email already registered".
Proof.
  intros again.
  pose proof (@signup_duplicate_email Reference.plain_bcrypt Reference.decimal_pg
                again Example.bank _ Example.alice (or_introl eq_refl) eq_refl eq_refl)
    as (H1 & _ & H2).
  split; [exact H1|].
  apply H2; [reflexivity | reflexivity | reflexivity | discriminate].
Defined.

(** C7 fails as stated: Alice registers; a second registration under her
    email that carries no password is answered 400 "Missing required
    fields", the InvalidInput outcome. *)
Lemma duplicate_email_without_password_is_invalid_input :
  let first :=
    Request None (Some [("name", JStr "Alice"); ("email", JStr "alice@bank.io");
                  ("password", JStr "wonderland"); ("income", JNum (Num.of_Z 10000))])
      None in
  let second :=
    Request None (Some [("name", JStr "Alice"); ("email", JStr "alice@bank.io")]) None in
  let w0 := World [] [] 0 0 100 [] [] in
  let w1 := snd (@signup Reference.plain_bcrypt Reference.decimal_pg first w0) in
  status (fst (@signup Reference.plain_bcrypt Reference.decimal_pg first w0)) = 201 /\
  map Users.email (users w1) = ["alice@bank.io"] /\
  fst (@signup Reference.plain_bcrypt Reference.decimal_pg second w1) =
    fail 400 "Missing required fields" /\
  outcome_of (fst (@signup Reference.plain_bcrypt Reference.decimal_pg second w1)) =
    InvalidInput.
Proof. repeat split; vm_compute; reflexivity. Qed.

(** ** Passwords *)

Lemma find_map_preserved {A : Type} (p : A -> bool) (f : A -> A) (l : list A) :
  (forall a, p (f a) = p a) ->
  List.find p (map f l) = option_map f (List.find p l).
Proof.
  intros Hp. induction l as [|a l IH]; simpl; [reflexivity|].
  rewrite Hp. destruct (p a); auto.
Qed.

Lemma repassworded_find (q : Users.t -> bool) p h us :
  (forall v h', q (Users.set_password h' v) = q v) ->
  List.find q (repassworded p h us) =
  option_map (fun u => if id_is p u then Users.set_password h u else u)
    (List.find q us).
Proof.
  intros Hq. apply find_map_preserved. intros a. destruct (id_is p a); auto.
Qed.

Section Passwords.

Context {bcrypt : Bcrypt} {jwt : Jwt} {pg : Pg}.

(** The handler on two passwords that are strings and not empty, when the
    store does not fail. *)
Lemma change_password_run (req : request) (req_user : row) (w : world)
    (b : body) (uid : Z) (u : Users.t) (old new : string) :
  faults w = [] ->
  req_body req = Some b ->
  int_param (col req_user "id") = Some (Some uid) ->
  user_with (Some uid) w = Some u ->
  prop b "oldPassword" = JStr old -> old <> "" ->
  prop b "newPassword" = JStr new -> new <> "" ->
  try_catch (change_password req req_user) w =
    if bcrypt_compare old (Users.password u)
    then (Response 200 true (Some (Text "Password changed successfully")) NoData,
          with_users
            (repassworded (Some uid) (bcrypt_hash new (hd "" (salts w))) (users w))
            (with_salts (tail (salts w)) w))
    else (fail 401 "Incorrect old password", w).
Proof.
  intros Hf Hb Hid Hu Ho Hone Hn Hnne.
  unfold try_catch, change_password. rewrite (bind_must_some _ _ _ Hb).
  unfold with_id. rewrite Ho, Hn, Hid. cbn [truthy]. cbv beta iota.
  destruct (String.eqb_spec old "") as [|_]; [contradiction|].
  destruct (String.eqb_spec new "") as [|_]; [contradiction|].
  cbn [negb orb].
  unfold bind at 1. rewrite (select_users_quiet _ _ _ Hf).
  unfold bind at 1. rewrite head_map_filter.
  unfold user_with in Hu. rewrite Hu. cbn [option_map must]. unfold ret at 1.
  unfold bind at 1.
  replace (col (select ["password"] (Users.cells u)) "password")
    with (CText (Users.password u)) by reflexivity.
  cbn [compare as_string text_of]. unfold ret at 1.
  destruct (bcrypt_compare old (Users.password u)); cbn [negb]; [|reflexivity].
  unfold bind at 1. cbn [hash as_string].
  unfold bind at 1. unfold update_password.
  rewrite query_quiet by exact Hf. reflexivity.
Qed.

(** Sign-in with an email and a password that are strings and not empty,
    when the store does not fail and the first row under the email is
    [v]. *)
Lemma signin_run (w : world) (v : Users.t) (e pw : string) :
  faults w = [] ->
  List.find (email_is (Some e)) (users w) = Some v ->
  e <> "" -> pw <> "" ->
  fst (signin (Request None (Some [("email", JStr e); ("password", JStr pw)]) None)
         w) =
    if bcrypt_compare pw (Users.password v)
    then Response 200 true (Some (Text "Login successful"))
           (Session
              [("id", CInt (Users.id v)); ("name", CText (Users.name v));
               ("email", CText (Users.email v));
               ("monthly_income", opt_cell CNumeric (Users.monthly_income v));
               ("balance", opt_cell CNumeric (Users.balance v));
               ("nid_picture", opt_cell CText (Users.nid_picture v))]
              (jwt_sign [("id", CInt (Users.id v)); ("email", CText (Users.email v))]
                 (clock w)))
    else fail 401 "Invalid email or password".
Proof.
  intros Hf Hv He Hp. unfold signin, try_catch.
  rewrite (bind_must_some _ [("email", JStr e); ("password", JStr pw)] _ eq_refl).
  change (prop [("email", JStr e); ("password", JStr pw)] "email") with (JStr e).
  change (prop [("email", JStr e); ("password", JStr pw)] "password") with (JStr pw).
  cbn [truthy param_text].
  destruct (String.eqb_spec e "") as [|_]; [contradiction|].
  destruct (String.eqb_spec pw "") as [|_]; [contradiction|].
  cbn [negb orb].
  unfold bind at 1. rewrite (select_users_quiet _ _ _ Hf).
  rewrite find_head_filter in Hv.
  destruct (List.filter (email_is (Some e)) (users w)) as [|v' l]; [discriminate|].
  injection Hv as ->. cbn [map].
  replace (col (select all_user_columns (Users.cells v)) "password")
    with (CText (Users.password v)) by reflexivity.
  unfold bind at 1. cbn [compare as_string text_of]. unfold ret at 1.
  destruct (bcrypt_compare pw (Users.password v)); reflexivity.
Qed.

(** C8, as the code has it. Both passwords are strings and not empty and
    the store does not fail. With an old password that the stored hash
    does not accept, the answer is 401 "Incorrect old password", the
    InvalidCredentials outcome, and nothing changes. With one it accepts,
    the answer is 200 and the stored hash of the user is the hash of the
    new password; then, for an ideal hash and a user that sign-in finds
    under its email, sign-in with the new password succeeds, and if the
    new password differs from the old one, sign-in with the old one is
    answered 401 and the stored hash has changed. *)
Theorem change_password_checks_old (req : request) (req_user : row) (w : world)
    (b : body) (uid : Z) (u : Users.t) (old new : string) :
  faults w = [] ->
  req_body req = Some b ->
  int_param (col req_user "id") = Some (Some uid) ->
  user_with (Some uid) w = Some u ->
  prop b "oldPassword" = JStr old -> old <> "" ->
  prop b "newPassword" = JStr new -> new <> "" ->
  let r := fst (try_catch (change_password req req_user) w) in
  let w' := snd (try_catch (change_password req req_user) w) in
  let authenticate pw :=
    fst (signin (Request None
                   (Some [("email", JStr (Users.email u)); ("password", JStr pw)])
                   None) w') in
  (bcrypt_compare old (Users.password u) = false ->
   r = fail 401 "Incorrect old password" /\
   outcome_of r = InvalidCredentials /\
   w' = w) /\
  (bcrypt_compare old (Users.password u) = true ->
   r = Response 200 true (Some (Text "Password changed successfully")) NoData /\
   user_with (Some uid) w' =
     Some (Users.set_password (bcrypt_hash new (hd "" (salts w))) u) /\
   (ideal bcrypt ->
    List.find (email_is (Some (Users.email u))) (users w) = Some u ->
    Users.email u <> "" ->
    success (authenticate new) = true /\
    status (authenticate new) = 200 /\
    (old <> new ->
     authenticate old = fail 401 "Invalid email or password" /\
     outcome_of (authenticate old) = InvalidCredentials /\
     bcrypt_hash new (hd "" (salts w)) <> Users.password u))).
Proof.
  intros Hf Hb Hid Hu Ho Hone Hn Hnne. cbv zeta.
  rewrite (change_password_run req req_user w b uid u old new Hf Hb Hid Hu Ho Hone Hn
             Hnne).
  split; intros Hc; rewrite Hc; cbn [fst snd].
  - repeat split.
  - assert (Hm : id_is (Some uid) u = true).
    { unfold user_with in Hu. apply List.find_some in Hu. tauto. }
    split; [reflexivity|]. split.
    { unfold user_with. cbn [users with_users].
      rewrite repassworded_find by reflexivity.
      unfold user_with in Hu. rewrite Hu. cbn [option_map]. now rewrite Hm. }
    intros [Hacc Hrej] He Hene.
    set (h := bcrypt_hash new (hd "" (salts w))).
    set (w' := with_users _ _).
    assert (Hf' : faults w' = []) by exact Hf.
    assert (He' : List.find (email_is (Some (Users.email u))) (users w') =
                  Some (Users.set_password h u)).
    { unfold w'. cbn [users with_users].
      rewrite repassworded_find by reflexivity.
      rewrite He. cbn [option_map]. now rewrite Hm. }
    pose proof (fun pw => signin_run w' _ (Users.email u) pw Hf' He' Hene) as Hs.
    cbn [Users.password Users.set_password] in Hs.
    assert (Hyes : bcrypt_compare new h = true) by apply Hacc.
    rewrite (Hs new Hnne), Hyes.
    split; [reflexivity|]. split; [reflexivity|].
    intros Hd. rewrite (Hs old Hone).
    assert (Hno : bcrypt_compare old h = false)
      by apply (Hrej new old _ (not_eq_sym Hd)).
    rewrite Hno.
    split; [reflexivity|]. split; [reflexivity|].
    intros Heq. rewrite <- Heq in Hc. congruence.
Qed.

End Passwords.

Lemma plain_bcrypt_ideal : ideal Reference.plain_bcrypt.
Proof.
  split.
  - intros p salt. simpl. apply String.eqb_refl.
  - intros p q salt Hne. simpl. apply String.eqb_neq. congruence.
Qed.

Lemma change_password_checks_old_witness :
  let change old new :=
    try_catch (@change_password Reference.plain_bcrypt Reference.decimal_pg
                 (Request (Some "Bearer jwt.x")
                    (Some [("oldPassword", JStr old); ("newPassword", JStr new)]) None)
                 (Example.logged_in Example.alice)) Example.bank in
  let authenticate pw w :=
    fst (@signin Reference.plain_bcrypt Reference.unary_jwt Reference.decimal_pg
           (Request None (Some [("email", JStr "alice@bank.io"); ("password", JStr pw)]) None)
           w) in
  change "queen" "looking-glass" = (fail 401 "Incorrect old password", Example.bank) /\
  fst (change "wonderland" "looking-glass") =
    Response 200 true (Some (Text "Password changed successfully")) NoData /\
  success (authenticate "looking-glass" (snd (change "wonderland" "looking-glass")))
    = true /\
  authenticate "wonderland" (snd (change "wonderland" "looking-glass")) =
    fail 401 "Invalid email or password".
Proof.
  pose proof (fun old new =>
    @change_password_checks_old Reference.plain_bcrypt Reference.unary_jwt
      Reference.decimal_pg
      (Request (Some "Bearer jwt.x")
         (Some [("oldPassword", JStr old); ("newPassword", JStr new)]) None)
      (Example.logged_in Example.alice) Example.bank _ 1 Example.alice old new
      eq_refl eq_refl eq_refl eq_refl eq_refl) as T.
  cbv zeta.
  destruct (T "queen" "looking-glass") as [Hwrong _];
    [discriminate | reflexivity | discriminate |].
  destruct (T "wonderland" "looking-glass") as [_ Hright];
    [discriminate | reflexivity | discriminate |].
  destruct (Hwrong eq_refl) as (H1 & _ & H2).
  destruct (Hright eq_refl) as (H3 & _ & H4).
  destruct (H4 plain_bcrypt_ideal eq_refl) as (H5 & _ & H6); [discriminate|].
  destruct H6 as (H7 & _ & _); [discriminate|].
  repeat apply conj.
  - apply injective_projections; [exact H1 | exact H2].
  - exact H3.
  - exact H5.
  - exact H7.
Defined.

(** C8 fails as stated, twice. With the right old password given again as
    the new one, the change is answered 200 and sign-in with the old
    password still succeeds. With a wrong old password and no new
    password, the answer is 400 "Missing passwords", the InvalidInput
    outcome. *)
Lemma same_or_missing_new_password :
  let change b :=
    try_catch (@change_password Reference.plain_bcrypt Reference.decimal_pg
                 (Request (Some "Bearer jwt.x") (Some b) None)
                 (Example.logged_in Example.alice)) Example.bank in
  let authenticate pw w :=
    fst (@signin Reference.plain_bcrypt Reference.unary_jwt Reference.decimal_pg
           (Request None (Some [("email", JStr "alice@bank.io"); ("password", JStr pw)]) None)
           w) in
  let same := [("oldPassword", JStr "wonderland"); ("newPassword", JStr "wonderland")] in
  let wrong := [("oldPassword", JStr "queen")] in
  status (fst (change same)) = 200 /\
  status (authenticate "wonderland" (snd (change same))) = 200 /\
  success (authenticate "wonderland" (snd (change same))) = true /\
  @bcrypt_compare Reference.plain_bcrypt "queen" (Users.password Example.alice)
    = false /\
  fst (change wrong) = fail 400 "Missing passwords" /\
  outcome_of (fst (change wrong)) = InvalidInput.
Proof. repeat split; vm_compute; reflexivity. Qed.

(** C4 fails as stated: Alice registers and asks for a loan of -60000; the
    request is accepted and her balance, 50000 at registration, is
    -10000. *)
Lemma negative_loan_overdraws :
  let register :=
    Request None (Some [("name", JStr "Alice"); ("email", JStr "alice@bank.io");
                  ("password", JStr "wonderland"); ("income", JNum (Num.of_Z 10000))])
      None in
  let borrow :=
    Request (Some "Bearer jwt.x") (Some [("amount", JStr "-60000")]) None in
  let w :=
    @run Reference.plain_bcrypt Reference.unary_jwt Reference.decimal_pg
      [Call (PostSignup register); Call (PostTakeLoan borrow)] (initDb 100 [] []) in
  @reachable Reference.plain_bcrypt Reference.unary_jwt Reference.decimal_pg w /\
  map Users.balance (users w) = [Some (Num.of_Z (-10000))] /\
  Num.negative (Num.of_Z (-10000)) = true.
Proof.
  intros register borrow w. split.
  - exists 100, [], [], [Call (PostSignup register); Call (PostTakeLoan borrow)].
    reflexivity.
  - split; vm_compute; reflexivity.
Qed.

(** *** What each route does to the table of users *)

Section Effects.

Context {bcrypt : Bcrypt} {jwt : Jwt} {pg : Pg}.

Lemma hash_run p w res w' :
  hash p w = (res, w') -> users w' = users w.
Proof.
  unfold hash. destruct (as_string p); intros H; done_step H; reflexivity.
Qed.

Lemma compare_run p h w (res : result bool) w' :
  compare p h w = (res, w') -> w' = w.
Proof.
  unfold compare. destruct (as_string p), (text_of h); intros H; done_step H;
    reflexivity.
Qed.

Lemma insert_user_run n e h i d a nid w res w' :
  insert_user n e h i d a nid w = (res, w') ->
  users w' = users w \/ exists v, users w' = users w ++ [v] /\ fresh v.
Proof.
  unfold insert_user. intros H. query_step H; [left; reflexivity|].
  destruct (to_varchar255 n) as [[n'|]|]; destruct (to_varchar255 e) as [[e'|]|];
    destruct (to_numeric i), (to_date d);
    try (done_step H; left; reflexivity).
  destruct (existsb _ _); done_step H; [left; reflexivity|].
  right. eexists. split; reflexivity.
Qed.

Lemma update_password_run h p w res w' :
  update_password h p w = (res, w') ->
  users w' = users w \/ users w' = repassworded p h (users w).
Proof.
  unfold update_password. intros H. query_step H; [left; reflexivity|].
  done_step H. right. reflexivity.
Qed.

Lemma authMiddleware_users req w g w' :
  authMiddleware req w = (g, w') -> users w' = users w.
Proof.
  unfold authMiddleware.
  destruct (authorization req) as [auth|]; [|intros H; done_step H; reflexivity].
  destruct (String.eqb auth ""); [intros H; done_step H; reflexivity|].
  unfold try_or, verifyJwt.
  destruct (jwt_verify _ _); [|intros H; done_step H; reflexivity].
  unfold bind, with_id. destruct (int_param _).
  - unfold select_users, query.
    destruct (faults w) as [|[] ?]; try destruct (map _ _);
      intros H; done_step H; reflexivity.
  - unfold query, throw. destruct (faults w) as [|[] ?];
      intros H; done_step H; reflexivity.
Qed.

Lemma signup_with_users nid req w r w' :
  try_catch (signup_with nid req) w = (r, w') ->
  users w' = users w \/ exists v, users w' = users w ++ [v] /\ fresh v.
Proof.
  unfold try_catch. destruct (signup_with nid req w) as [res w1] eqn:E.
  intros H. assert (w' = w1) by (destruct res; congruence). subst w'. clear H.
  unfold signup_with in E.
  bind_step E Hb; [apply must_ok in Hb as [-> _] | apply must_thrown in Hb as [-> _]];
    [|left; reflexivity].
  destruct (negb _ || negb _ || negb _); [done_step E; left; reflexivity|].
  bind_step E Hs; apply select_users_run in Hs as [-> _]; [|left; reflexivity].
  destruct (0 <? _); [done_step E; left; reflexivity|].
  bind_step E Hh; apply hash_run in Hh; [|left; exact Hh].
  bind_step E Hi; apply insert_user_run in Hi; rewrite Hh in Hi;
    [done_step E|]; exact Hi.
Qed.

Lemma signin_users req w : users (snd (signin req w)) = users w.
Proof.
  unfold signin, try_catch.
  match goal with |- context [?m w] =>
    match type of m with M response => destruct (m w) as [res w1] eqn:E end end.
  assert (users w1 = users w); [|destruct res; assumption].
  bind_step E Hb; [apply must_ok in Hb as [-> _] | apply must_thrown in Hb as [-> _]];
    [|reflexivity].
  destruct (negb _ || negb _); [done_step E; reflexivity|].
  bind_step E Hs; apply select_users_run in Hs as [-> _]; [|reflexivity].
  match type of E with (match ?q with [] => _ | _ :: _ => _ end) _ = _ =>
    destruct q as [|user ?] end; [done_step E; reflexivity|].
  bind_step E Hc; apply compare_run in Hc as ->; [|reflexivity].
  match type of E with (if negb ?b then _ else _) _ = _ => destruct (negb b) end;
    [done_step E; reflexivity|].
  unfold bind, now in E. done_step E. reflexivity.
Qed.

Lemma change_password_users req req_user w r w' :
  try_catch (change_password req req_user) w = (r, w') ->
  users w' = users w \/
  exists p h, int_param (col req_user "id") = Some p /\
              users w' = repassworded p h (users w).
Proof.
  unfold try_catch. destruct (change_password req req_user w) as [res w1] eqn:E.
  intros H. assert (w' = w1) by (destruct res; congruence). subst w'. clear H.
  unfold change_password in E.
  bind_step E Hb; [apply must_ok in Hb as [-> _] | apply must_thrown in Hb as [-> _]];
    [|left; reflexivity].
  destruct (negb _ || negb _); [done_step E; left; reflexivity|].
  unfold with_id in E.
  destruct (int_param (col req_user "id")) as [p|] eqn:Hp.
  2:{ bind_step E Hq; apply query_throw_run in Hq as [Hq ->];
        [discriminate Hq | left; reflexivity]. }
  bind_step E Hs; apply select_users_run in Hs as [-> _]; [|left; reflexivity].
  bind_step E Hm; [apply must_ok in Hm as [-> _] | apply must_thrown in Hm as [-> _]];
    [|left; reflexivity].
  bind_step E Hc; apply compare_run in Hc as ->; [|left; reflexivity].
  match type of E with (if negb ?b then _ else _) _ = _ => destruct (negb b) end;
    [done_step E; left; reflexivity|].
  bind_step E Hh; apply hash_run in Hh; [|left; exact Hh].
  bind_step E Hu; apply update_password_run in Hu; rewrite Hh in Hu;
    [done_step E|]; destruct Hu as [?|?]; eauto.
Qed.

Lemma list_loans_users req req_user w r w' :
  try_catch (list_loans req req_user) w = (r, w') -> users w' = users w.
Proof.
  unfold try_catch, list_loans, bind, with_id.
  destruct (int_param _); unfold select_loans_of, query, throw;
    destruct (faults w) as [|[] ?]; intros H; done_step H; reflexivity.
Qed.

End Effects.

(** ** Balances *)

Lemma solvent_same (w w' : world) : users w' = users w -> solvent w -> solvent w'.
Proof. unfold solvent. intros ->. auto. Qed.

Lemma numeric_nonneg (x : number) :
  Num.leb Num.zero x = true -> Num.leb Num.zero (numeric_of_number x) = true.
Proof. unfold numeric_of_number. destruct (Num.is_zero x); auto. Qed.

Lemma solvent_credited (w w' : world) p (u : Users.t) (amt : number) :
  users w' = credited p (Num.add (balance_of u) amt) (users w) ->
  user_with p w = Some u ->
  Num.leb Num.zero amt = true ->
  solvent w -> solvent w'.
Proof.
  unfold solvent, credited. intros -> Hu Ha Hw v Hv.
  apply in_map_iff in Hv as (v0 & <- & Hv0).
  destruct (id_is p v0); [|auto].
  eexists. split; [reflexivity|].
  apply numeric_nonneg, NumFacts.add_nonneg; [|exact Ha].
  unfold user_with in Hu. apply List.find_some in Hu as [Hin _].
  destruct (Hw u Hin) as (x & Hx & Hle). unfold balance_of. now rewrite Hx.
Qed.

Lemma credited_balances (uid : Z) (b : number) (us : list Users.t) :
  map Users.balance (credited (Some uid) b us) =
  map (fun v => if Users.id v =? uid then Some (numeric_of_number b)
                else Users.balance v) us.
Proof.
  unfold credited. rewrite map_map. apply map_ext. intros v. simpl.
  now destruct (Users.id v =? uid).
Qed.

Section Balance.

Context {bcrypt : Bcrypt} {jwt : Jwt} {pg : Pg}.

(** What a call of the take-loan route does to the balances. *)
Lemma post_take_loan_users (req : request) (w : world) :
  users (snd (post_take_loan req w)) = users w \/
  exists b u,
    req_body req = Some b /\
    user_with (Some (Users.id u)) w = Some u /\
    users (snd (post_take_loan req w)) =
      credited (Some (Users.id u))
        (Num.add (balance_of u) (parseFloat (prop b "amount"))) (users w).
Proof.
  unfold post_take_loan, guarded.
  destruct (authMiddleware req w) as [[r|user] w1] eqn:G;
    apply authMiddleware_users in G; [left; exact G|].
  destruct (try_catch (take_loan req user) w1) as [r w'] eqn:E.
  apply take_loan_runs in E. cbv zeta in E. cbn [snd].
  destruct E as [(_ & _ & Hus & _)
                | [(b & u & _ & _ & _ & _ & Hus & _)
                  | (b & u & Hb & _ & Hu & _ & _ & _ & Hus & _)]].
  - left. congruence.
  - left. congruence.
  - right. exists b, u. unfold user_with in *. rewrite <- G. auto.
Qed.

(** What any other event does to the balances: nothing, or one more row
    with the default balance. *)
Lemma other_events_users (e : event) (w : world) :
  (forall req, e <> Call (PostTakeLoan req)) ->
  map Users.balance (users (after e w)) = map Users.balance (users w) \/
  map Users.balance (users (after e w)) =
    map Users.balance (users w) ++ [Some (Num.of_Z 50000)].
Proof.
  intros Hne. destruct e as [[req|req|req|req|req|req|req]|s]; cbn [after serve].
  - unfold signup.
    destruct (try_catch (signup_with None req) w) as [r w'] eqn:E. cbn [snd].
    apply signup_with_users in E as [->|(v & -> & Hv)]; [auto|].
    right. rewrite map_app. cbn [map]. now rewrite Hv.
  - unfold signup_with_file.
    destruct (try_catch _ w) as [r w'] eqn:E. cbn [snd].
    apply signup_with_users in E as [->|(v & -> & Hv)]; [auto|].
    right. rewrite map_app. cbn [map]. now rewrite Hv.
  - left. now rewrite signin_users.
  - left. unfold get_user, guarded.
    destruct (authMiddleware req w) as [[r|user] w1] eqn:G;
      apply authMiddleware_users in G; unfold try_catch, ret; cbn [snd];
      now rewrite G.
  - now contradiction (Hne req).
  - left. unfold get_loans, guarded.
    destruct (authMiddleware req w) as [[r|user] w1] eqn:G;
      apply authMiddleware_users in G; [cbn [snd]; now rewrite G|].
    destruct (try_catch (list_loans req user) w1) as [r w'] eqn:E.
    apply list_loans_users in E. cbn [snd]. congruence.
  - left. unfold post_change_password, guarded.
    destruct (authMiddleware req w) as [[r|user] w1] eqn:G;
      apply authMiddleware_users in G; [cbn [snd]; now rewrite G|].
    destruct (try_catch (change_password req user) w1) as [r w'] eqn:E.
    apply change_password_users in E as [E|(p & h & _ & E)]; cbn [snd]; rewrite E, <- G;
      [reflexivity|].
    unfold repassworded. rewrite map_map. apply map_ext.
    intros v. now destruct (id_is _ v).
  - left. reflexivity.
Qed.

Lemma solvent_balances (w w' : world) :
  map Users.balance (users w') = map Users.balance (users w) ->
  solvent w -> solvent w'.
Proof.
  unfold solvent. intros Hm Hw u Hu.
  apply (in_map Users.balance) in Hu. rewrite Hm in Hu.
  apply in_map_iff in Hu as (v & Hv & Hin).
  rewrite <- Hv. apply (Hw v Hin).
Qed.

Lemma solvent_after (e : event) (w : world) :
  (forall req b, e = Call (PostTakeLoan req) -> req_body req = Some b ->
     Num.leb Num.zero (parseFloat (prop b "amount")) = true) ->
  solvent w -> solvent (after e w).
Proof.
  intros Ha Hw.
  assert (Hcase : (exists req, e = Call (PostTakeLoan req)) \/
                  (forall req, e <> Call (PostTakeLoan req))).
  { destruct e as [[]|]; try (right; congruence). left. eauto. }
  destruct Hcase as [[req ->]|Hne].
  - cbn [after serve].
    destruct (post_take_loan_users req w) as [E|(b & u & Hb & Hu & E)].
    + exact (solvent_same _ _ E Hw).
    + exact (solvent_credited _ _ _ _ _ E Hu (Ha req b eq_refl Hb) Hw).
  - destruct (other_events_users e w Hne) as [E|E].
    + exact (solvent_balances _ _ E Hw).
    + intros u Hu. apply (in_map Users.balance) in Hu. rewrite E in Hu.
      apply in_app_or in Hu as [Hu|[Hu|[]]].
      * apply in_map_iff in Hu as (v & Hv & Hin).
        rewrite <- Hv. apply (Hw v Hin).
      * rewrite <- Hu. eexists. split; reflexivity.
Qed.

(** C4, as the code has it: the balance of a user changes only when a
    take-loan request of this user is accepted, and then it becomes the
    sum of the balance and of the amount parsed from the request; so
    after any sequence of events in which every take-loan request that
    has a body carries an amount that parses to a number not below zero
    (which NaN is not), every stored balance is a number not below
    zero. *)
Theorem balance_never_negative (es : list event) (t : Z) (fs : list bool)
    (ss : list string) :
  (forall req b, In (Call (PostTakeLoan req)) es -> req_body req = Some b ->
     Num.leb Num.zero (parseFloat (prop b "amount")) = true) ->
  (forall u, In u (users (run es (initDb t fs ss))) ->
     exists x, Users.balance u = Some x /\ Num.leb Num.zero x = true) /\
  (forall e w, (forall req, e <> Call (PostTakeLoan req)) ->
     map Users.balance (users (after e w)) = map Users.balance (users w) \/
     map Users.balance (users (after e w)) =
       map Users.balance (users w) ++ [Some (Num.of_Z 50000)]) /\
  (forall req w,
     users (after (Call (PostTakeLoan req)) w) = users w \/
     exists b u,
       req_body req = Some b /\
       user_with (Some (Users.id u)) w = Some u /\
       map Users.balance (users (after (Call (PostTakeLoan req)) w)) =
         map (fun v =>
                if Users.id v =? Users.id u
                then Some (numeric_of_number
                             (Num.add (balance_of u) (parseFloat (prop b "amount"))))
                else Users.balance v) (users w)).
Proof.
  intros Ha. split; [|split; [exact other_events_users|]].
  - change (solvent (run es (initDb t fs ss))).
    assert (H0 : solvent (initDb t fs ss)) by (intros u []).
    revert H0 Ha. generalize (initDb t fs ss). unfold run.
    induction es as [|e es IH]; intros w Hw Ha; [exact Hw|].
    cbn [fold_left]. apply IH.
    + apply solvent_after; [|exact Hw]. intros req b ->. apply Ha. left. reflexivity.
    + intros req b Hin. apply Ha. right. exact Hin.
  - intros req w. cbn [after serve].
    destruct (post_take_loan_users req w) as [E|(b & u & Hb & Hu & E)]; [left; exact E|].
    right. exists b, u. split; [exact Hb|]. split; [exact Hu|].
    rewrite E. apply credited_balances.
Qed.

End Balance.

Lemma balance_never_negative_witness :
  let register :=
    Request None
      (Some [("name", JStr "Alice"); ("email", JStr "alice@bank.io");
             ("password", JStr "wonderland"); ("income", JNum (Num.of_Z 10000))])
      None in
  let borrow := Request (Some "Bearer jwt.x") (Some [("amount", JStr "30000")]) None in
  let w :=
    @run Reference.plain_bcrypt Reference.unary_jwt Reference.decimal_pg
      [Call (PostSignup register); Elapse 60; Call (PostTakeLoan borrow)]
      (initDb 100 [] []) in
  map Users.balance (users w) = [Some (Num.of_Z 80000)] /\
  Forall (fun u => exists x, Users.balance u = Some x /\ Num.leb Num.zero x = true)
    (users w).
Proof.
  intros register borrow w. split; [reflexivity|].
  apply List.Forall_forall.
  apply (@balance_never_negative Reference.plain_bcrypt Reference.unary_jwt
           Reference.decimal_pg
           [Call (PostSignup register); Elapse 60; Call (PostTakeLoan borrow)]
           100 [] []).
  intros req b [H|[H|[H|[]]]]; try discriminate H.
  injection H as <-. intros Hb. injection Hb as <-. reflexivity.
Defined.

(** An amount that is no number is not below zero either, and is
    accepted: after a request for "abc" the balance is NaN, which is not
    a number at or above zero. *)
Example non_numeric_loan_leaves_no_number :
  let register :=
    Request None
      (Some [("name", JStr "Alice"); ("email", JStr "alice@bank.io");
             ("password", JStr "wonderland"); ("income", JNum (Num.of_Z 10000))])
      None in
  let borrow := Request (Some "Bearer jwt.x") (Some [("amount", JStr "abc")]) None in
  let w :=
    @run Reference.plain_bcrypt Reference.unary_jwt Reference.decimal_pg
      [Call (PostSignup register); Call (PostTakeLoan borrow)] (initDb 100 [] []) in
  Num.negative (parseFloat (JStr "abc")) = false /\
  Num.leb Num.zero (parseFloat (JStr "abc")) = false /\
  map Users.balance (users w) = [Some Num.nan] /\
  Num.negative Num.nan = false /\
  Num.leb Num.zero Num.nan = false.
Proof. repeat split; vm_compute; reflexivity. Qed.

(** ** A session from registration to the ledger *)

(** Alice registers with an income of 10000, signs in, borrows 30000 (her
    ceiling), is refused 30001 and then borrows 100 more: the ceiling is
    computed from the income alone at each request. *)
Example alice_borrows :
  let register :=
    Request None (Some [("name", JStr "Alice"); ("email", JStr "alice@bank.io");
                  ("password", JStr "wonderland"); ("income", JStr "10000")]) None in
  let login :=
    Request None (Some [("email", JStr "alice@bank.io"); ("password", JStr "wonderland")])
      None in
  let w1 :=
    snd (@signup Reference.plain_bcrypt Reference.decimal_pg register (initDb 100 [] [])) in
  let token :=
    match payload (fst (@signin Reference.plain_bcrypt Reference.unary_jwt
                          Reference.decimal_pg login w1)) with
    | Session _ t => t
    | _ => ""
    end in
  let ask a w :=
    @post_take_loan Reference.unary_jwt Reference.decimal_pg
      (Request (Some ("Bearer " ++ token)%string) (Some [("amount", JStr a)]) None) w in
  let r2 := ask "30000" w1 in
  let r3 := ask "30001" (snd r2) in
  let r4 := ask "100" (snd r3) in
  fst r2 = Response 201 true (Some (Text "Loan approved")) (NewBalance (Num.of_Z 80000)) /\
  fst r3 = Response 400 false (Some (MaximumLoan (Num.of_Z 30000))) NoData /\
  fst r4 = Response 201 true (Some (Text "Loan approved")) (NewBalance (Num.of_Z 80100)) /\
  map Loans.amount (loans (snd r4)) = [Num.of_Z 30000; Num.of_Z 100].
Proof. repeat split; vm_compute; reflexivity. Qed.

(** * Further properties of the handlers

    What follows goes beyond the specification: what every request does
    to the tables and what the tables keep, registration and sign-in,
    sessions, refusals, the routes one after the other, and the directory
    of cards and employees. *)

(** ** Every run of a statement *)

Lemma query_fault {A : Type} (q : M A) w res w' :
  query q w = (res, w') ->
  (head (faults w) = Some true /\ res = Thrown /\ w' = pop_fault w) \/
  (head (faults w) <> Some true /\ q (pop_fault w) = (res, w')).
Proof.
  unfold query. destruct (faults w) as [|[] fs]; simpl; intros H.
  - right. split; [discriminate | exact H].
  - left. injection H as <- <-. auto.
  - right. split; [congruence | exact H].
Qed.

Lemma select_users_world cols p w res w' :
  select_users cols p w = (res, w') ->
  w' = pop_fault w /\
  ((head (faults w) = Some true /\ res = Thrown) \/
   (head (faults w) <> Some true /\
    res = Ok (map (fun u => select cols (Users.cells u)) (List.filter p (users w))))).
Proof.
  unfold select_users. intros H.
  apply query_fault in H as [(Hf & -> & ->) | (Hf & H)]; [auto|].
  injection H as <- <-. auto.
Qed.

Section Statements.

Context {pg : Pg}.

Lemma insert_user_world n e h i d a nid w res w' :
  insert_user n e h i d a nid w = (res, w') ->
  (res = Thrown /\ w' = pop_fault w) \/
  (res = Thrown /\ w' = with_users_id_seq (users_id_seq w + 1) (pop_fault w)) \/
  (exists n' e' i' d',
     to_varchar255 n = Some (Some n') /\ to_varchar255 e = Some (Some e') /\
     to_numeric i = Some i' /\ to_date d = Some d' /\
     existsb (email_is (Some e')) (users w) = false /\
     head (faults w) <> Some true /\
     res = Ok tt /\
     w' = with_users (users w ++ [new_user n' e' h i' d' (param_text a) nid w])
            (with_users_id_seq (users_id_seq w + 1) (pop_fault w))).
Proof.
  unfold insert_user. intros H.
  apply query_fault in H as [(Hf & -> & ->) | (Hf & H)]; [auto|].
  destruct (to_varchar255 n) as [[n'|]|]; destruct (to_varchar255 e) as [[e'|]|];
    destruct (to_numeric i) as [i'|], (to_date d) as [d'|];
    try (injection H as <- <-; auto).
  destruct (existsb _ _) eqn:Ex; injection H as <- <-; [auto|].
  right; right. exists n', e', i', d'. repeat split; auto.
Qed.

End Statements.

Lemma insert_loan_world p amt st w res w' :
  insert_loan p amt st w = (res, w') ->
  (head (faults w) = Some true /\ res = Thrown /\ w' = pop_fault w) \/
  (res = Thrown /\ existsb (id_is p) (users w) = false /\
   w' = with_loans_id_seq (loans_id_seq w + 1) (pop_fault w)) \/
  (head (faults w) <> Some true /\
   (p = None \/ existsb (id_is p) (users w) = true) /\
   res = Ok tt /\
   w' = with_loans
          (loans w ++ [Loans.mk (loans_id_seq w + 1) p (numeric_of_number amt) (Some st)
                         (Some (clock w)) None])
          (with_loans_id_seq (loans_id_seq w + 1) (pop_fault w))).
Proof.
  unfold insert_loan. intros H.
  apply query_fault in H as [(Hf & -> & ->) | (Hf & H)]; [auto|].
  cbv zeta in H.
  destruct p as [z|].
  - change (users (pop_fault w)) with (users w) in H.
    destruct (existsb _ _) eqn:Ex; injection H as <- <-; [|auto].
    right; right. auto.
  - injection H as <- <-. right; right. auto.
Qed.

Lemma update_balance_world b p w res w' :
  update_balance b p w = (res, w') ->
  (head (faults w) = Some true /\ res = Thrown /\ w' = pop_fault w) \/
  (head (faults w) <> Some true /\ res = Ok tt /\
   w' = with_users (credited p b (users w)) (pop_fault w)).
Proof.
  unfold update_balance. intros H.
  apply query_fault in H as [(Hf & -> & ->) | (Hf & H)]; [auto|].
  injection H as <- <-. auto.
Qed.

Lemma update_password_world h p w res w' :
  update_password h p w = (res, w') ->
  (head (faults w) = Some true /\ res = Thrown /\ w' = pop_fault w) \/
  (head (faults w) <> Some true /\ res = Ok tt /\
   w' = with_users (repassworded p h (users w)) (pop_fault w)).
Proof.
  unfold update_password. intros H.
  apply query_fault in H as [(Hf & -> & ->) | (Hf & H)]; [auto|].
  injection H as <- <-. auto.
Qed.

Section Library.

Context {bcrypt : Bcrypt}.

Lemma hash_world p w res w' :
  hash p w = (res, w') ->
  (as_string p = None /\ res = Thrown /\ w' = w) \/
  (exists s, as_string p = Some s /\ res = Ok (bcrypt_hash s (hd "" (salts w))) /\
             w' = with_salts (tail (salts w)) w).
Proof.
  unfold hash. destruct (as_string p) as [s|]; intros H.
  - injection H as <- <-. right. eauto.
  - injection H as <- <-. left. auto.
Qed.

Lemma compare_world p h w (res : result bool) w' :
  compare p h w = (res, w') ->
  w' = w /\
  (res = Thrown \/
   exists s d, as_string p = Some s /\ text_of h = Some d /\
               res = Ok (bcrypt_compare s d)).
Proof.
  unfold compare. destruct (as_string p) as [s|], (text_of h) as [d|];
    intros H; injection H as <- <-; (split; [reflexivity|]);
    first [left; reflexivity | right; exists s, d; auto].
Qed.

End Library.

(** ** Every run of the gate *)

Section Routes.

Context {bcrypt : Bcrypt} {jwt : Jwt} {pg : Pg}.

(** The gate answers, with a refusal and after at most one query, or it
    attaches the row of the user the token names. *)
Lemma authMiddleware_cases (req : request) (w : world) :
  (exists code m w',
     authMiddleware req w = (Answered (fail code m), w') /\
     (w' = w \/ w' = pop_fault w)) \/
  (exists auth decoded p u,
     authorization req = Some auth /\ auth <> "" /\
     jwt_verify (strip_bearer auth) (clock w) = Some decoded /\
     head (faults w) <> Some true /\
     int_param (col decoded "id") = Some p /\
     user_with p w = Some u /\
     authMiddleware req w = (Next (projected u), pop_fault w)).
Proof.
  destruct (authorization req) as [auth|] eqn:Ha.
  2:{ left. unfold authMiddleware. rewrite Ha. simpl. eauto 7. }
  destruct (String.eqb_spec auth "") as [->|Hne].
  { left. unfold authMiddleware. rewrite Ha. simpl. eauto 7. }
  rewrite (authMiddleware_token req w auth Ha Hne).
  destruct (jwt_verify (strip_bearer auth) (clock w)) as [decoded|] eqn:Hv.
  2:{ left. simpl. eauto 7. }
  destruct (int_param (col decoded "id")) as [p|] eqn:Hp.
  2:{ left. destruct (faults w) as [|[] fs]; simpl; eauto 7. }
  destruct (faults w) as [|[] fs] eqn:Hf.
  - destruct (user_with p w) as [u|] eqn:Hu.
    + right. exists auth, decoded, p, u. repeat split; auto; discriminate.
    + left. simpl. eauto 7.
  - left. simpl. eauto 7.
  - destruct (user_with p w) as [u|] eqn:Hu.
    + right. exists auth, decoded, p, u. repeat split; auto; discriminate.
    + left. simpl. eauto 7.
Qed.

(** *** What each route writes *)

Lemma write_pop b w w' : write b (pop_fault w) w' -> write b w w'.
Proof.
  intros [];
    [ eapply Kept | eapply Joined | eapply Lent | eapply LentUncredited
    | eapply Repassworded ]; eassumption.
Qed.

Lemma tail_nil_faults w : faults w = [] -> tail (faults w) = [].
Proof. now intros ->. Qed.

Lemma take_loan_write (req : request) (u : Users.t) (w : world) (b : bool) r w' :
  In u (users w) ->
  try_catch (take_loan req (projected u)) w = (r, w') ->
  faults w = [] \/ b = true ->
  write b w w' /\ (faults w = [] -> faults w' = []).
Proof.
  intros Hin H Hb. unfold try_catch in H.
  destruct (take_loan req (projected u) w) as [res w1] eqn:E.
  assert (w' = w1) by (destruct res; congruence). subst w1. clear H.
  unfold take_loan in E.
  bind_step E Hb0; [apply must_ok in Hb0 as [-> _] | apply must_thrown in Hb0 as [-> _]].
  2:{ split; [now apply Kept | auto]. }
  destruct (negb _).
  { done_step E. split; [now apply Kept | auto]. }
  unfold with_id in E.
  destruct (projected_id_cases u) as [Hp|Hp]; rewrite Hp in E.
  2:{ bind_step E Hq; apply query_throw_run in Hq as [Hq ->]; [discriminate Hq|].
      split; [now apply Kept | apply tail_nil_faults]. }
  bind_step E Hs; apply select_users_world in Hs as [-> Hs].
  2:{ split; [now apply Kept | apply tail_nil_faults]. }
  destruct Hs as [[_ ?]|[Hf Ha]]; [discriminate|]. injection Ha as ->.
  bind_step E Hm; [apply must_ok in Hm as [-> Hx] | apply must_thrown in Hm as [-> _]].
  2:{ split; [now apply write_pop, Kept | apply tail_nil_faults]. }
  rewrite head_map_filter in Hx.
  destruct (List.find _ (users w)) as [v|] eqn:Hv; [|discriminate].
  cbn [option_map] in Hx. injection Hx as Hx.
  rewrite (read_income v _ Hx), (read_balance v _ Hx) in E.
  assert (Hid : Users.id v = Users.id u).
  { apply List.find_some in Hv as [_ Hv]. simpl in Hv. now apply Z.eqb_eq in Hv. }
  destruct (Num.gtb _ _).
  { done_step E. split; [now apply write_pop, Kept | apply tail_nil_faults]. }
  assert (Hex : existsb (id_is (Some (Users.id u))) (users w) = true)
    by exact (find_some_existsb _ _ _ Hv).
  bind_step E Hi; apply insert_loan_world in Hi;
    destruct Hi as [(_ & Hr & ->) | [(_ & Hex' & _) | (Hf1 & _ & Hr & ->)]];
    try discriminate Hr;
    try (change (users (pop_fault w)) with (users w) in Hex'; congruence).
  2:{ split; [now apply write_pop, write_pop, Kept|].
      intros Hw. simpl. now rewrite Hw. }
  bind_step E Hu; apply update_balance_world in Hu;
    destruct Hu as [(Hf2 & Hr' & ->) | (_ & Hr' & ->)]; try discriminate Hr'.
  - done_step E. rewrite <- Hid. split.
    + eapply Lent; try reflexivity.
      * apply List.find_some in Hv. tauto.
      * unfold user_with. now rewrite Hid.
    + intros Hw. simpl. now rewrite Hw.
  - split.
    + rewrite <- Hid. eapply LentUncredited; try reflexivity.
      * destruct Hb as [Hw|Hb]; [|exact Hb]. exfalso. revert Hf2. simpl.
        now rewrite Hw.
      * apply List.find_some in Hv. tauto.
    + intros Hw. simpl. now rewrite Hw.
Qed.

Ltac kept :=
  split;
  [ apply Kept; simpl; first [reflexivity | lia]
  | let Hw := fresh "Hw" in intros Hw; simpl; rewrite Hw; reflexivity ].

Lemma signup_with_write (nid : option string) (req : request) (w : world) (b : bool)
    r w' :
  try_catch (signup_with nid req) w = (r, w') ->
  write b w w' /\ (faults w = [] -> faults w' = []).
Proof.
  intros H. unfold try_catch in H.
  destruct (signup_with nid req w) as [res w1] eqn:E.
  assert (w' = w1) by (destruct res; congruence). subst w1. clear H.
  unfold signup_with in E.
  bind_step E Hb0; [apply must_ok in Hb0 as [-> _] | apply must_thrown in Hb0 as [-> _]];
    [|kept].
  destruct (negb _ || negb _ || negb _); [done_step E; kept|].
  bind_step E Hs; apply select_users_world in Hs as [-> _]; [|kept].
  destruct (0 <? _); [done_step E; kept|].
  bind_step E Hh; apply hash_world in Hh;
    destruct Hh as [(_ & Hr & ->) | (s & _ & Hr & ->)]; try discriminate Hr;
    [|kept].
  bind_step E Hi; apply insert_user_world in Hi;
    destruct Hi as [(Hr' & ->) | [(Hr' & ->) |
      (n' & e' & i' & d' & _ & _ & _ & _ & Hex & _ & Hr' & ->)]];
    try discriminate Hr'; try kept.
  done_step E. split.
  - eapply Joined; try reflexivity. exact Hex.
  - intros Hw. simpl. now rewrite Hw.
Qed.

Lemma signin_write (req : request) (w : world) (b : bool) :
  write b w (snd (signin req w)) /\
  (faults w = [] -> faults (snd (signin req w)) = []).
Proof.
  unfold signin, try_catch.
  match goal with |- context [?m w] =>
    match type of m with M response => destruct (m w) as [res w1] eqn:E end end.
  assert (G : write b w w1 /\ (faults w = [] -> faults w1 = []));
    [|destruct res; exact G].
  bind_step E Hb0; [apply must_ok in Hb0 as [-> _] | apply must_thrown in Hb0 as [-> _]];
    [|kept].
  destruct (negb _ || negb _); [done_step E; kept|].
  bind_step E Hs; apply select_users_world in Hs as [-> _]; [|kept].
  match type of E with (match ?q with [] => _ | _ :: _ => _ end) _ = _ =>
    destruct q as [|user ?] end; [done_step E; kept|].
  bind_step E Hc; apply compare_world in Hc as [-> _]; [|kept].
  match type of E with (if negb ?b then _ else _) _ = _ => destruct (negb b) end;
    [done_step E; kept|].
  unfold bind, now in E. done_step E. kept.
Qed.

Lemma list_loans_write (req : request) (req_user : row) (w : world) (b : bool) r w' :
  try_catch (list_loans req req_user) w = (r, w') ->
  write b w w' /\ (faults w = [] -> faults w' = []).
Proof.
  unfold try_catch, list_loans, bind, with_id.
  destruct (int_param _); unfold select_loans_of, query, throw;
    destruct (faults w) as [|[] ?] eqn:Hf; intros H; done_step H;
    (split; [apply Kept; simpl; first [reflexivity | lia]
            | simpl; rewrite Hf; simpl; congruence]).
Qed.

Lemma change_password_write (req : request) (u : Users.t) (w : world) (b : bool)
    r w' :
  In u (users w) ->
  try_catch (change_password req (projected u)) w = (r, w') ->
  write b w w' /\ (faults w = [] -> faults w' = []).
Proof.
  intros Hin H. unfold try_catch in H.
  destruct (change_password req (projected u) w) as [res w1] eqn:E.
  assert (w' = w1) by (destruct res; congruence). subst w1. clear H.
  unfold change_password in E.
  bind_step E Hb0; [apply must_ok in Hb0 as [-> _] | apply must_thrown in Hb0 as [-> _]];
    [|kept].
  destruct (negb _ || negb _); [done_step E; kept|].
  unfold with_id in E.
  destruct (projected_id_cases u) as [Hp|Hp]; rewrite Hp in E.
  2:{ bind_step E Hq; apply query_throw_run in Hq as [Hq ->]; [discriminate Hq | kept]. }
  bind_step E Hs; apply select_users_world in Hs as [-> _]; [|kept].
  bind_step E Hm; [apply must_ok in Hm as [-> _] | apply must_thrown in Hm as [-> _]];
    [|kept].
  bind_step E Hc; apply compare_world in Hc as [-> _]; [|kept].
  match type of E with (if negb ?b then _ else _) _ = _ => destruct (negb b) end;
    [done_step E; kept|].
  bind_step E Hh; apply hash_world in Hh;
    destruct Hh as [(_ & Hr & ->) | (s & _ & Hr & ->)]; try discriminate Hr;
    [|kept].
  bind_step E Hu; apply update_password_world in Hu;
    destruct Hu as [(_ & Hr' & ->) | (_ & Hr' & ->)]; try discriminate Hr'; [|kept].
  done_step E. split.
  - eapply Repassworded; try reflexivity. exact Hin.
  - intros Hw. simpl. now rewrite Hw.
Qed.

(** A guarded route writes what its handler writes for a user of the
    table, or nothing. *)
Lemma guarded_write (handler : request -> row -> M response) (req : request)
    (w : world) (b : bool) :
  (forall u w1 r w',
     In u (users w1) -> try_catch (handler req (projected u)) w1 = (r, w') ->
     faults w1 = [] \/ b = true ->
     write b w1 w' /\ (faults w1 = [] -> faults w' = [])) ->
  faults w = [] \/ b = true ->
  write b w (snd (guarded handler req w)) /\
  (faults w = [] -> faults (snd (guarded handler req w)) = []).
Proof.
  intros Hh Hb. unfold guarded.
  destruct (authMiddleware_cases req w)
    as [(code & m & w' & -> & [-> | ->])
       | (auth & decoded & p & u & _ & _ & _ & _ & _ & Hu & ->)];
    cbn [snd]; try kept.
  destruct (try_catch (handler req (projected u)) (pop_fault w)) as [r w'] eqn:E.
  cbn [snd]. apply Hh in E.
  - destruct E as [E1 E2]. split; [now apply write_pop|].
    intros Hw. apply E2. simpl. now rewrite Hw.
  - unfold user_with in Hu. apply List.find_some in Hu. tauto.
  - destruct Hb as [Hw|Hb]; [left; simpl; now rewrite Hw | now right].
Qed.

(** Every request does one of the five writes, and the one that leaves a
    loan without its credit only when the store fails. *)
Lemma serve_write (c : call) (w : world) (b : bool) :
  faults w = [] \/ b = true ->
  write b w (snd (serve c w)) /\ (faults w = [] -> faults (snd (serve c w)) = []).
Proof.
  intros Hb. destruct c as [req|req|req|req|req|req|req]; cbn [serve].
  - unfold signup. destruct (try_catch _ w) as [r w'] eqn:E.
    exact (signup_with_write _ _ _ _ _ _ E).
  - unfold signup_with_file. destruct (try_catch _ w) as [r w'] eqn:E.
    exact (signup_with_write _ _ _ _ _ _ E).
  - apply signin_write.
  - apply guarded_write; [|exact Hb]. intros u w1 r w' _ E _.
    unfold try_catch, ret in E. injection E as <- <-. kept.
  - apply guarded_write; [|exact Hb]. intros u w1 r w' Hin E Hb1.
    exact (take_loan_write _ _ _ _ _ _ Hin E Hb1).
  - apply guarded_write; [|exact Hb]. intros u w1 r w' _ E _.
    exact (list_loans_write _ _ _ _ _ _ E).
  - apply guarded_write; [|exact Hb]. intros u w1 r w' Hin E _.
    exact (change_password_write _ _ _ _ _ _ Hin E).
Qed.

End Routes.

(** ** What the tables keep *)

Lemma map_updated {A B : Type} (f : A -> B) (c : A -> bool) (g : A -> A) (l : list A) :
  (forall a, f (g a) = f a) ->
  map f (map (fun a => if c a then g a else a) l) = map f l.
Proof.
  intros H. rewrite map_map. apply map_ext. intros a. destruct (c a); auto.
Qed.

Lemma credited_map {B : Type} (f : Users.t -> B) p b us :
  (forall x u, f (Users.set_balance x u) = f u) ->
  map f (credited p b us) = map f us.
Proof. intros H. apply map_updated. intros a. apply H. Qed.

Lemma repassworded_map {B : Type} (f : Users.t -> B) p h us :
  (forall x u, f (Users.set_password x u) = f u) ->
  map f (repassworded p h us) = map f us.
Proof. intros H. apply map_updated. intros a. apply H. Qed.

(** A write keeps what registration wrote in every row, and every loan. *)
Lemma write_keeps b w w' :
  write b w w' ->
  (exists vs, map registered (users w') = map registered (users w) ++ vs) /\
  (exists ls, loans w' = loans w ++ ls).
Proof.
  intros [Hu Hl _ _ _ | v Hu Hl _ _ _ _ _ _ | u amt _ _ Hu Hl _ _ _
         | u amt _ _ Hu Hl _ _ _ | u h _ Hu Hl _ _ _]; rewrite Hu, Hl.
  - split; [exists [] | exists []]; now rewrite app_nil_r.
  - split; [|exists []; now rewrite app_nil_r].
    exists [registered v]. now rewrite map_app.
  - split; [exists []; rewrite app_nil_r | eauto].
    now apply credited_map.
  - split; [exists []; now rewrite app_nil_r | eauto].
  - split; [exists []; rewrite app_nil_r | exists []; now rewrite app_nil_r].
    now apply repassworded_map.
Qed.

Lemma sorted_snoc (l : list Z) (x : Z) :
  StronglySorted Z.lt l -> Forall (fun y => y < x) l ->
  StronglySorted Z.lt (l ++ [x]).
Proof.
  induction 1 as [|a l Hl IH Ha]; intros Hx; simpl.
  - repeat constructor.
  - inversion Hx as [|? ? Hax Hlx]; subst. constructor; [auto|].
    apply Forall_app. split; [exact Ha | repeat constructor; exact Hax].
Qed.

Lemma sorted_lt_NoDup (l : list Z) : StronglySorted Z.lt l -> List.NoDup l.
Proof.
  induction 1 as [|a l Hl IH Ha]; constructor; [|exact IH].
  intros Hin. rewrite List.Forall_forall in Ha. apply Ha in Hin. lia.
Qed.

Lemma NoDup_snoc {A : Type} (l : list A) (x : A) :
  List.NoDup l -> ~ In x l -> List.NoDup (l ++ [x]).
Proof.
  intros Hl Hx. apply List.NoDup_app; [exact Hl | repeat constructor; auto |].
  intros a Ha [<-|[]]. contradiction.
Qed.

Lemma email_is_absent (e : string) (us : list Users.t) :
  existsb (email_is (Some e)) us = false -> ~ In e (map Users.email us).
Proof.
  intros H Hin. apply in_map_iff in Hin as (u & <- & Hu).
  assert (existsb (email_is (Some (Users.email u))) us = true); [|congruence].
  apply existsb_exists. exists u. split; [exact Hu|]. simpl. apply String.eqb_refl.
Qed.

Lemma write_keyed b w w' : write b w w' -> keyed w -> keyed w'.
Proof.
  intros Hw (Hs1 & Hs2 & Hid & Hb & He & Hlid & Hlb).
  assert (Hnext : Forall (fun y => y < users_id_seq w + 1) (map Users.id (users w))).
  { apply Forall_map. revert Hb. apply List.Forall_impl. simpl. intros; lia. }
  assert (Hlnext : Forall (fun y => y < loans_id_seq w + 1) (map Loans.id (loans w))).
  { apply Forall_map. revert Hlb. apply List.Forall_impl. simpl. intros; lia. }
  assert (Hloan : forall p amt,
    StronglySorted Z.lt (map Loans.id (loans w ++ [new_loan p amt w])) /\
    Forall (fun l => 0 < Loans.id l <= loans_id_seq w + 1)
      (loans w ++ [new_loan p amt w])).
  { intros p amt. rewrite map_app. split; [now apply sorted_snoc|].
    apply Forall_app. split.
    - revert Hlb. apply List.Forall_impl. intros; lia.
    - repeat constructor; simpl; lia. }
  destruct Hw as [Hu Hl Hq1 Hq2 _ | v Hu Hl Hv Hq1 Hex _ Hq2 _
                 | u amt _ _ Hu Hl Hq1 Hq2 _ | u amt _ _ Hu Hl Hq1 Hq2 _
                 | u h _ Hu Hl Hq1 Hq2 _];
    unfold keyed; rewrite Hu, Hl, ?Hq1, ?Hq2.
  - repeat split; auto; try lia.
    revert Hb. apply List.Forall_impl. intros; lia.
  - rewrite !map_app. cbn [map]. rewrite Hv.
    repeat split; auto; try lia.
    + apply sorted_snoc; auto.
    + apply Forall_app. split.
      * revert Hb. apply List.Forall_impl. intros; lia.
      * repeat constructor; lia.
    + apply NoDup_snoc; [exact He | now apply email_is_absent].
  - rewrite !credited_map by reflexivity.
    destruct (Hloan (Some (Users.id u)) amt) as [H1 H2].
    repeat split; auto; try lia.
    unfold credited. apply Forall_map. revert Hb. apply List.Forall_impl.
    intros a Ha. now destruct (id_is _ a).
  - destruct (Hloan (Some (Users.id u)) amt) as [H1 H2].
    repeat split; auto; try lia.
  - rewrite !repassworded_map by reflexivity.
    repeat split; auto; try lia.
    unfold repassworded. apply Forall_map. revert Hb. apply List.Forall_impl.
    intros a Ha. now destruct (id_is _ a).
Qed.

Lemma kept_rows (w w' : world) (u : Users.t) :
  (exists vs, map registered (users w') = map registered (users w) ++ vs) ->
  In u (users w) ->
  exists u', In u' (users w') /\ registered u' = registered u.
Proof.
  intros [vs Hvs] Hu.
  assert (H : In (registered u) (map registered (users w'))).
  { rewrite Hvs. apply in_or_app. left. now apply in_map. }
  apply in_map_iff in H as (u' & H1 & H2). eauto.
Qed.

Lemma registered_id (u u' : Users.t) :
  registered u' = registered u -> Users.id u' = Users.id u.
Proof. intros H. exact (f_equal Users.id H). Qed.

Lemma owned_by_later (w w' : world) (l : Loans.t) :
  (exists vs, map registered (users w') = map registered (users w) ++ vs) ->
  clock w <= clock w' ->
  owned_by w l -> owned_by w' l.
Proof.
  intros Hk Hc ((u & Hu & Hl) & Hs & Hp & t & Ht & Hle).
  destruct (kept_rows w w' u Hk Hu) as (u' & Hu' & Hr).
  split; [|split; [exact Hs | split; [exact Hp | exists t; split; [exact Ht | lia]]]].
  exists u'. split; [exact Hu'|]. now rewrite (registered_id _ _ Hr).
Qed.

Lemma write_clock b w w' : write b w w' -> clock w' = clock w.
Proof. now intros []. Qed.

Lemma write_owned b w w' :
  write b w w' -> Forall (owned_by w) (loans w) -> Forall (owned_by w') (loans w').
Proof.
  intros Hw Ho.
  pose proof (write_keeps _ _ _ Hw) as [Hk _].
  pose proof (write_clock _ _ _ Hw) as Hc.
  assert (Hold : Forall (owned_by w') (loans w)).
  { revert Ho. apply List.Forall_impl. intros l. apply owned_by_later; [exact Hk | lia]. }
  assert (Hnew : forall u amt, In u (users w) ->
                   owned_by w' (new_loan (Some (Users.id u)) amt w)).
  { intros u amt Hu. destruct (kept_rows w w' u Hk Hu) as (u' & Hu' & Hr).
    split; [|split; [reflexivity | split; [reflexivity|]]].
    - exists u'. split; [exact Hu'|]. simpl. now rewrite (registered_id _ _ Hr).
    - exists (clock w). split; [reflexivity | lia]. }
  destruct Hw as [_ Hl _ _ _ | v _ Hl _ _ _ _ _ _ | u amt Hu _ _ Hl _ _ _
                 | u amt _ Hu _ Hl _ _ _ | u h _ _ Hl _ _ _]; rewrite Hl; auto.
  - apply Forall_app. split; [exact Hold | constructor; [now apply Hnew | constructor]].
  - apply Forall_app. split; [exact Hold | constructor; [now apply Hnew | constructor]].
Qed.

(** *** The ledger *)

Lemma numeric_add_numeric (b a : number) :
  numeric_of_number (Num.add b (numeric_of_number a)) = numeric_of_number (Num.add b a).
Proof.
  destruct a as [s| | |]; try reflexivity.
  destruct b as [[]|[]| |[] m e], s; reflexivity.
Qed.

Lemma ledger_snoc (u : Users.t) (ls : list Loans.t) (l : Loans.t) :
  ledger u (ls ++ [l]) =
    if loan_of (Some (Users.id u)) l
    then numeric_of_number (Num.add (ledger u ls) (Loans.amount l))
    else ledger u ls.
Proof. unfold ledger. now rewrite fold_left_app. Qed.

Lemma ledger_id (u v : Users.t) (ls : list Loans.t) :
  Users.id u = Users.id v -> ledger u ls = ledger v ls.
Proof. unfold ledger. now intros ->. Qed.

Lemma ledger_none (u : Users.t) (ls : list Loans.t) :
  Forall (fun l => loan_of (Some (Users.id u)) l = false) ls ->
  ledger u ls = Num.of_Z 50000.
Proof.
  unfold ledger. generalize (Num.of_Z 50000).
  induction ls as [|l ls IH]; intros b Hl; [reflexivity|].
  inversion Hl as [|? ? H1 H2]; subst. cbn [fold_left]. rewrite H1. now apply IH.
Qed.

Lemma write_reconciled w w' :
  write false w w' -> keyed w -> Forall (owned_by w) (loans w) ->
  reconciled w -> reconciled w'.
Proof.
  intros Hw (_ & _ & _ & Hb & _) Ho Hr.
  destruct Hw as [Hu Hl _ _ _ | v Hu Hl Hv _ _ Hf _ _ | u amt Hin Hfirst Hu Hl _ _ _
                 | u amt Hfail _ _ _ _ _ _ | u h _ Hu Hl _ _ _];
    [ | | | discriminate Hfail | ]; intros x Hx; rewrite Hu in Hx; rewrite Hl.
  - now apply Hr.
  - apply in_app_or in Hx as [Hx|[<-|[]]]; [now apply Hr|].
    rewrite Hf. f_equal. symmetry. apply ledger_none.
    revert Ho. apply List.Forall_impl.
    intros l ((u & Hin & Hl') & _). unfold loan_of. rewrite Hl'.
    rewrite List.Forall_forall in Hb. apply Hb in Hin. apply Z.eqb_neq. lia.
  - unfold credited in Hx. apply in_map_iff in Hx as (a & <- & Ha).
    rewrite ledger_snoc. unfold new_loan, loan_of. cbn [Loans.user_id Loans.amount].
    destruct (id_is (Some (Users.id u)) a) eqn:Hid; simpl in Hid.
    + cbn [Users.id Users.set_balance Users.balance]. rewrite Z.eqb_sym, Hid.
      rewrite numeric_add_numeric. do 3 f_equal.
      apply Z.eqb_eq in Hid.
      unfold balance_of. rewrite (Hr u Hin). now apply ledger_id.
    + rewrite Z.eqb_sym, Hid. now apply Hr.
  - unfold repassworded in Hx. apply in_map_iff in Hx as (a & <- & Ha).
    destruct (id_is _ a); [|now apply Hr].
    exact (Hr a Ha).
Qed.

(** ** The routes when the store does not fail *)

Lemma find_none_filter {A : Type} (p : A -> bool) (l : list A) :
  List.find p l = None -> List.filter p l = [].
Proof.
  induction l as [|a l IH]; simpl; [reflexivity|].
  destruct (p a); [discriminate | exact IH].
Qed.

Lemma find_some_filter {A : Type} (p : A -> bool) (l : list A) (a : A) :
  List.find p l = Some a -> exists r, List.filter p l = a :: r.
Proof.
  induction l as [|x l IH]; simpl; [discriminate|].
  destruct (p x); [intros H; injection H as ->; eauto | exact IH].
Qed.

(** The take-loan handler as a function of the tables. *)
Lemma take_loan_quiet {pg : Pg} (req : request) (req_user : row) (w : world) :
  faults w = [] ->
  try_catch (take_loan req req_user) w =
    match req_body req with
    | None => (server_error, w)
    | Some b =>
        let amount := prop b "amount" in
        let amt := parseFloat amount in
        if negb (truthy amount) then (fail 400 "Missing amount", w)
        else
          match int_param (col req_user "id") with
          | None => (server_error, w)
          | Some p =>
              match user_with p w with
              | None => (server_error, w)
              | Some u =>
                  if Num.gtb amt (ceiling_of u) then
                    (Response 400 false (Some (MaximumLoan (ceiling_of u))) NoData, w)
                  else
                    (Response 201 true (Some (Text "Loan approved"))
                       (NewBalance (Num.add (balance_of u) amt)),
                     with_users (credited p (Num.add (balance_of u) amt) (users w))
                       (with_loans (loans w ++ [new_loan p amt w])
                          (with_loans_id_seq (loans_id_seq w + 1) w)))
              end
          end
    end.
Proof.
  intros Hf. unfold try_catch, take_loan.
  destruct (req_body req) as [b|]; [|reflexivity].
  rewrite (bind_must_some _ b _ eq_refl). cbv zeta.
  destruct (negb _); [reflexivity|].
  unfold with_id.
  destruct (int_param (col req_user "id")) as [p|].
  2:{ unfold bind at 1. rewrite (query_quiet _ _ Hf). reflexivity. }
  unfold bind at 1. rewrite (select_users_quiet _ _ _ Hf).
  unfold bind at 1. rewrite head_map_filter. fold (user_with p w).
  destruct (user_with p w) as [u|] eqn:Hu; [|reflexivity].
  cbn [option_map must]. unfold ret at 1.
  rewrite (read_income u _ eq_refl), (read_balance u _ eq_refl). fold (ceiling_of u).
  destruct (Num.gtb _ _); [reflexivity|].
  unfold bind at 1. unfold insert_loan. rewrite (query_quiet _ _ Hf).
  assert (Hk : match p with
               | Some _ => existsb (id_is p) (users w)
               | None => true
               end = true).
  { destruct p; [|reflexivity]. exact (find_some_existsb _ _ _ Hu). }
  rewrite Hk. unfold bind at 1. unfold update_balance.
  rewrite query_quiet by exact Hf. reflexivity.
Qed.

Section SignIn.

Context {bcrypt : Bcrypt} {jwt : Jwt} {pg : Pg}.

(** Every run of sign-in: a refusal, or the session of the first row under
    the email, whose hash accepts the password. *)
Lemma signin_runs (req : request) (w : world) r w' :
  signin req w = (r, w') ->
  (success r = false /\ (w' = w \/ w' = pop_fault w)) \/
  (exists b v pw,
     req_body req = Some b /\
     truthy (prop b "email") = true /\
     user_by_email (param_text (prop b "email")) w = Some v /\
     prop b "password" = JStr pw /\ pw <> "" /\
     bcrypt_compare pw (Users.password v) = true /\
     r = Response 200 true (Some (Text "Login successful"))
           (Session (safeUser v) (jwt_sign (token_payload v) (clock w))) /\
     w' = pop_fault w).
Proof.
  unfold signin, try_catch.
  match goal with |- context [?m w] =>
    match type of m with M response => destruct (m w) as [res w1] eqn:E end end.
  intros H.
  assert (Hres : res = Ok r \/ (res = Thrown /\ r = server_error))
    by (destruct res; injection H as <- <-; auto).
  assert (w' = w1) by (destruct res; congruence). subst w1. clear H.
  assert (Hfail : res = Thrown -> success r = false).
  { intros ->. destruct Hres as [?|[_ ->]]; [discriminate | reflexivity]. }
  bind_step E Hb.
  2:{ apply must_thrown in Hb as [-> _]. left. auto. }
  apply must_ok in Hb as [-> Hb]. rename a into b.
  destruct (truthy (prop b "email")) eqn:Te; cbn [negb orb] in E.
  2:{ done_step E. destruct Hres as [Hres|[? _]]; [|discriminate].
      injection Hres as <-. left. auto. }
  destruct (truthy (prop b "password")) eqn:Tp; cbn [negb] in E.
  2:{ done_step E. destruct Hres as [Hres|[? _]]; [|discriminate].
      injection Hres as <-. left. auto. }
  bind_step E Hs; apply select_users_world in Hs as [-> Hs].
  2:{ left. auto. }
  destruct Hs as [[_ ?]|[Hf Ha]]; [discriminate|]. injection Ha as ->.
  destruct (List.find (email_is (param_text (prop b "email"))) (users w))
    as [v|] eqn:Hv.
  2:{ rewrite (find_none_filter _ _ Hv) in E. done_step E.
      destruct Hres as [Hres|[? _]]; [|discriminate]. injection Hres as <-. left. auto. }
  destruct (find_some_filter _ _ _ Hv) as [rest Hr]. rewrite Hr in E. cbn [map] in E.
  bind_step E Hc; apply compare_world in Hc as [-> Hc].
  2:{ left. auto. }
  destruct Hc as [?|(pw & d & Hpw & Hd & Hok)]; [discriminate|].
  injection Hok as ->. injection Hd as <-.
  destruct (bcrypt_compare pw (Users.password v)) eqn:Hcmp; cbn [negb] in E.
  2:{ done_step E. destruct Hres as [Hres|[? _]]; [|discriminate].
      injection Hres as <-. left. auto. }
  unfold bind, now in E. done_step E.
  destruct Hres as [Hres|[? _]]; [|discriminate]. injection Hres as <-.
  right. exists b, v, pw.
  destruct (prop b "password") as [| | | |s|]; try discriminate Hpw.
  injection Hpw as ->. cbn [truthy] in Tp.
  repeat split; auto.
  intros ->. discriminate Tp.
Qed.

End SignIn.

Lemma find_app_none {A : Type} (p : A -> bool) (l1 l2 : list A) :
  List.find p l1 = None -> List.find p (l1 ++ l2) = List.find p l2.
Proof.
  induction l1 as [|a l1 IH]; simpl; [reflexivity|].
  destruct (p a); [discriminate | exact IH].
Qed.

Lemma existsb_find_none {A : Type} (p : A -> bool) (l : list A) :
  existsb p l = false -> List.find p l = None.
Proof.
  induction l as [|a l IH]; simpl; [reflexivity|].
  destruct (p a); [discriminate | exact IH].
Qed.

Lemma truthy_string (v : jsval) (s : string) :
  truthy v = true -> as_string v = Some s -> v = JStr s /\ s <> "".
Proof.
  destruct v; try discriminate. simpl. intros Ht Hs. injection Hs as ->.
  split; [reflexivity|]. intros ->. discriminate Ht.
Qed.

Section SignUp.

Context {bcrypt : Bcrypt} {pg : Pg}.

(** Every run of a sign-up route: a refusal that leaves the tables as they
    were, or one more row of [users], made of the converted fields, the
    hash of the password, the default balance and the time. *)
Lemma signup_with_runs (nid : option string) (req : request) (w : world) r w' :
  try_catch (signup_with nid req) w = (r, w') ->
  (success r = false /\ users w' = users w /\ loans w' = loans w) \/
  (exists b n e pw i d,
     req_body req = Some b /\
     truthy (prop b "name") = true /\
     truthy (prop b "email") = true /\
     to_varchar255 (prop b "name") = Some (Some n) /\
     to_varchar255 (prop b "email") = Some (Some e) /\
     prop b "password" = JStr pw /\ pw <> "" /\
     to_numeric (or_null (prop b "income")) = Some i /\
     to_date (or_null (prop b "dob")) = Some d /\
     user_by_email (param_text (prop b "email")) w = None /\
     user_by_email (Some e) w = None /\
     r = Response 201 true (Some (Text "Account created successfully")) NoData /\
     users w' =
       users w ++
         [new_user n e (bcrypt_hash pw (hd "" (salts w))) i d
            (param_text (or_null (prop b "address"))) nid w] /\
     loans w' = loans w /\ users_id_seq w' = users_id_seq w + 1 /\
     loans_id_seq w' = loans_id_seq w /\ clock w' = clock w /\
     salts w' = tail (salts w)).
Proof.
  intros H. unfold try_catch in H.
  destruct (signup_with nid req w) as [res w1] eqn:E.
  assert (Hres : res = Ok r \/ (res = Thrown /\ r = server_error))
    by (destruct res; injection H as <- <-; auto).
  assert (w' = w1) by (destruct res; congruence). subst w1. clear H.
  assert (Hfail : res = Thrown -> success r = false).
  { intros ->. destruct Hres as [?|[_ ->]]; [discriminate | reflexivity]. }
  assert (Hok : forall r0, res = Ok r0 -> r = r0).
  { intros r0 ->. destruct Hres as [Hres|[? _]]; [congruence | discriminate]. }
  unfold signup_with in E.
  bind_step E Hb.
  2:{ apply must_thrown in Hb as [-> _]. left. auto. }
  apply must_ok in Hb as [-> Hb]. rename a into b.
  destruct (truthy (prop b "name")) eqn:Tn; cbn [negb orb] in E.
  2:{ done_step E. rewrite (Hok _ eq_refl). left. auto. }
  destruct (truthy (prop b "email")) eqn:Te; cbn [negb orb] in E.
  2:{ done_step E. rewrite (Hok _ eq_refl). left. auto. }
  destruct (truthy (prop b "password")) eqn:Tp; cbn [negb orb] in E.
  2:{ done_step E. rewrite (Hok _ eq_refl). left. auto. }
  bind_step E Hs; apply select_users_world in Hs as [-> Hs]; [|left; auto].
  destruct Hs as [[_ ?]|[Hf Ha]]; [discriminate|]. injection Ha as ->.
  destruct (List.find (email_is (param_text (prop b "email"))) (users w))
    as [v|] eqn:Hv.
  { destruct (find_some_filter _ _ _ Hv) as [rest Hr]. rewrite Hr in E.
    cbn [map length] in E.
    replace (0 <? Z.of_nat (S (length (map (fun u => select ["id"] (Users.cells u)) rest))))
      with true in E by (symmetry; apply Z.ltb_lt; lia).
    done_step E. rewrite (Hok _ eq_refl). left. auto. }
  rewrite (find_none_filter _ _ Hv) in E. cbn [map length Z.of_nat Z.ltb Z.compare] in E.
  bind_step E Hh; apply hash_world in Hh;
    destruct Hh as [(_ & Hr & ->) | (pw & Hpw & Hr & ->)]; try discriminate Hr;
    [|left; auto].
  injection Hr as ->.
  bind_step E Hi; apply insert_user_world in Hi;
    destruct Hi as [(Hr' & ->) | [(Hr' & ->) |
      (n' & e' & i' & d' & Hn & He & Hi & Hd & Hex & _ & Hr' & ->)]];
    try discriminate Hr';
    try (left; repeat split; first [reflexivity | now apply Hfail]).
  done_step E. rewrite (Hok _ eq_refl). right.
  destruct (truthy_string _ _ Tp Hpw) as [Hp Hne].
  exists b, n', e', pw, i', d'. repeat split; auto.
  apply existsb_find_none. exact Hex.
Qed.

End SignUp.

(** ** Invariants of the tables *)

Section Runs.

Context {bcrypt : Bcrypt} {jwt : Jwt} {pg : Pg}.


Lemma after_keeps (e : event) (w : world) :
  (exists vs, map registered (users (after e w)) = map registered (users w) ++ vs) /\
  (exists ls, loans (after e w) = loans w ++ ls) /\
  clock w <= clock (after e w).
Proof.
  destruct e as [c|s]; cbn [after].
  - destruct (serve_write c w true (or_intror eq_refl)) as [Hw _].
    destruct (write_keeps _ _ _ Hw) as [H1 H2].
    rewrite (write_clock _ _ _ Hw). repeat split; auto. lia.
  - simpl. repeat split; try (exists []; now rewrite app_nil_r). lia.
Qed.

Lemma run_keeps (es : list event) (w : world) :
  (exists vs, map registered (users (run es w)) = map registered (users w) ++ vs) /\
  (exists ls, loans (run es w) = loans w ++ ls) /\
  clock w <= clock (run es w).
Proof.
  revert w. unfold run. induction es as [|e es IH]; intros w; cbn [fold_left].
  - repeat split; try (exists []; now rewrite app_nil_r). lia.
  - destruct (after_keeps e w) as ([vs1 H1] & [ls1 H2] & H3).
    destruct (IH (after e w)) as ([vs2 H4] & [ls2 H5] & H6).
    repeat split; [exists (vs1 ++ vs2) | exists (ls1 ++ ls2) | lia].
    + now rewrite H4, H1, app_assoc.
    + now rewrite H5, H2, app_assoc.
Qed.

(** X2: No sequence of requests deletes a row or rewrites what registration
    wrote: the rows of [users] present at any time are still there afterwards,
    in the same order and equal in every column but [balance] and [password],
    and the rows of [loans] are there unchanged; new rows come after them. *)
Theorem rows_are_kept (es : list event) (w : world) :
  (exists vs, map registered (users (run es w)) = map registered (users w) ++ vs) /\
  (exists ls, loans (run es w) = loans w ++ ls).
Proof.
  destruct (run_keeps es w) as (H1 & H2 & _). auto.
Qed.

Lemma after_sound (e : event) (w : world) :
  keyed w /\ Forall (owned_by w) (loans w) ->
  keyed (after e w) /\ Forall (owned_by (after e w)) (loans (after e w)).
Proof.
  intros [Hk Ho]. destruct e as [c|s]; cbn [after].
  - destruct (serve_write c w true (or_intror eq_refl)) as [Hw _].
    split; [exact (write_keyed _ _ _ Hw Hk) | exact (write_owned _ _ _ Hw Ho)].
  - split; [exact Hk|]. change (loans (with_clock (clock w + Z.max 0 s) w)) with (loans w).
    revert Ho. apply List.Forall_impl. intros l. apply owned_by_later.
    + exists []. now rewrite app_nil_r.
    + simpl. lia.
Qed.

Lemma initDb_sound t fs ss :
  keyed (initDb t fs ss) /\ Forall (owned_by (initDb t fs ss)) (loans (initDb t fs ss)).
Proof.
  unfold keyed. simpl. repeat split; try constructor; lia.
Qed.

Lemma run_sound (es : list event) (w : world) :
  keyed w /\ Forall (owned_by w) (loans w) ->
  keyed (run es w) /\ Forall (owned_by (run es w)) (loans (run es w)).
Proof.
  revert w. unfold run. induction es as [|e es IH]; intros w H; cbn [fold_left];
    [exact H|].
  apply IH, after_sound, H.
Qed.

(** X3: In every state the server reaches from the tables [initDb] creates,
    the ids of the users and of the loans are positive, at most the last value
    of their sequence and increasing along the table, so that no two rows
    share an id, and no two users share an email. *)
Theorem keys_stay_unique (es : list event) (t : Z) (fs : list bool)
    (ss : list string) :
  let w := run es (initDb t fs ss) in
  StronglySorted Z.lt (map Users.id (users w)) /\
  List.NoDup (map Users.id (users w)) /\
  Forall (fun u => 0 < Users.id u <= users_id_seq w) (users w) /\
  List.NoDup (map Users.email (users w)) /\
  StronglySorted Z.lt (map Loans.id (loans w)) /\
  List.NoDup (map Loans.id (loans w)) /\
  Forall (fun l => 0 < Loans.id l <= loans_id_seq w) (loans w).
Proof.
  intros w.
  destruct (run_sound es _ (initDb_sound t fs ss)) as [(_ & _ & H1 & H2 & H3 & H4 & H5) _].
  fold w in H1, H2, H3, H4, H5.
  repeat split; auto using sorted_lt_NoDup.
Qed.

(** X4: In every state the server reaches, every loan is the loan of a user of
    the table, its status is 'active', it has no payment date, and it was
    taken at a time that has come: no request repays, closes or detaches a
    loan. *)
Theorem loans_belong_to_users (es : list event) (t : Z) (fs : list bool)
    (ss : list string) :
  let w := run es (initDb t fs ss) in
  Forall (fun l =>
            (exists u, In u (users w) /\ Loans.user_id l = Some (Users.id u)) /\
            Loans.status l = Some "active" /\ Loans.paid_at l = None /\
            exists t', Loans.taken_at l = Some t' /\ t' <= clock w)
    (loans w).
Proof.
  intros w. exact (proj2 (run_sound es _ (initDb_sound t fs ss))).
Qed.

(** *** The order of the loan history *)

Lemma sorted_by_snoc {A : Type} (R : A -> A -> Prop) (l : list A) (x : A) :
  StronglySorted R l -> Forall (fun a => R a x) l -> StronglySorted R (l ++ [x]).
Proof.
  induction 1 as [|y r Hr IH Hy]; intros Hx; simpl.
  - repeat constructor.
  - inversion Hx as [|? ? Hyx Hrx]; subst. constructor; [now apply IH|].
    apply Forall_app. split; [exact Hy | now repeat constructor].
Qed.

Lemma sorted_by_rev {A : Type} (R : A -> A -> Prop) (l : list A) :
  StronglySorted R l -> StronglySorted (fun a b => R b a) (rev l).
Proof.
  induction 1 as [|y r Hr IH Hy]; simpl; [constructor|].
  apply sorted_by_snoc; [exact IH|].
  apply List.Forall_forall. intros a Ha. apply in_rev in Ha.
  rewrite List.Forall_forall in Hy. now apply Hy.
Qed.

Lemma sorted_by_filter {A : Type} (R : A -> A -> Prop) (P : A -> bool) (l : list A) :
  StronglySorted R l -> StronglySorted R (List.filter P l).
Proof.
  induction 1 as [|y r Hr IH Hy]; simpl; [constructor|].
  destruct (P y); [|exact IH]. constructor; [exact IH|].
  apply List.Forall_forall. intros a Ha. apply filter_In in Ha as [Ha _].
  rewrite List.Forall_forall in Hy. now apply Hy.
Qed.

(** A loan is stamped with the time of its INSERT, which no row of the
    table is later than. *)
Lemma write_chronological b w w' :
  write b w w' -> Forall (owned_by w) (loans w) -> chronological (loans w) ->
  chronological (loans w').
Proof.
  intros Hw Ho Hc.
  assert (Hnew : forall p amt, chronological (loans w ++ [new_loan p amt w])).
  { intros p amt. apply sorted_by_snoc; [exact Hc|].
    revert Ho. apply List.Forall_impl.
    intros a (_ & _ & _ & t & Ht & Hle).
    unfold newer_first. simpl. rewrite Ht. now apply Z.leb_le. }
  destruct Hw as [_ Hl _ _ _ | v _ Hl _ _ _ _ _ _ | u amt Hu _ _ Hl _ _ _
                 | u amt _ Hu _ Hl _ _ _ | u h _ _ Hl _ _ _]; rewrite Hl; auto.
Qed.

Lemma run_chronological (es : list event) (w : world) :
  keyed w -> Forall (owned_by w) (loans w) -> chronological (loans w) ->
  chronological (loans (run es w)).
Proof.
  revert w. unfold run.
  induction es as [|e es IH]; intros w Hk Ho Hc; cbn [fold_left]; [exact Hc|].
  destruct (after_sound e w (conj Hk Ho)) as [Hk' Ho'].
  apply IH; auto.
  destruct e as [c|s]; cbn [after]; [|exact Hc].
  destruct (serve_write c w true (or_intror eq_refl)) as [Hw _].
  exact (write_chronological _ _ _ Hw Ho Hc).
Qed.

(** In every state the server reaches from the tables [initDb] creates,
    the times [taken_at] never go down along the table [loans], and the
    loan history of a user is the rows of this user from the last inserted
    to the first: the newest loan first, also among the loans taken under
    one reading of the clock. *)
Lemma loans_listed_last_first (es : list event) (t : Z) (fs : list bool)
    (ss : list string) (req : request) (req_user : row) (uid : Z) :
  let w := run es (initDb t fs ss) in
  int_param (col req_user "id") = Some (Some uid) ->
  head (faults w) <> Some true ->
  chronological (loans w) /\
  try_catch (list_loans req req_user) w =
    (Response 200 true None
       (LoanRows
          (map Loans.cells
             (rev (List.filter (fun l => match Loans.user_id l with
                                         | Some z => z =? uid
                                         | None => false
                                         end) (loans w))))),
     pop_fault w).
Proof.
  intros w Hid Hq.
  destruct (initDb_sound t fs ss) as [Hk Ho].
  assert (Hc : chronological (loans w)).
  { apply run_chronological; [exact Hk | exact Ho | constructor]. }
  split; [exact Hc|].
  unfold try_catch, list_loans. rewrite (with_id_some _ _ _ Hid).
  unfold bind, select_loans_of, query.
  change (List.filter (loan_of (Some uid)))
    with (List.filter (fun l => match Loans.user_id l with
                                | Some z => z =? uid
                                | None => false
                                end)).
  rewrite (sorted_by_sorted_same newer_first).
  - apply quiet_head in Hq.
    destruct (faults w) as [|[] ?]; [reflexivity | contradiction | reflexivity].
  - change (loans (pop_fault w)) with (loans w).
    apply (sorted_by_rev (fun a b => newer_first b a = true)), sorted_by_filter, Hc.
Qed.

(** Two loans taken one after the other, with no time told to pass in
    between, are listed the second first. *)
Example successive_loans_are_listed_newest_first :
  let signup_alice :=
    Request None
      (Some [("name", JStr "Alice"); ("email", JStr "alice@example.com");
             ("password", JStr "pw"); ("income", JStr "50000")]) None in
  let borrow a := Request (Some "Bearer jwt.x") (Some [("amount", JStr a)]) None in
  let w :=
    @run Reference.plain_bcrypt Reference.unary_jwt Reference.decimal_pg
      [Call (PostSignup signup_alice);
       Call (PostTakeLoan (borrow "100"));
       Call (PostTakeLoan (borrow "200"))]
      (initDb 700 [] ["s"]) in
  map Loans.taken_at (loans w) = [Some 700; Some 700] /\
  fst (@get_loans Reference.unary_jwt Reference.decimal_pg
         (Request (Some "Bearer jwt.x") None None) w) =
    Response 200 true None
      (LoanRows
         [ [("id", CInt 2); ("user_id", CInt 1); ("amount", CNumeric (Num.of_Z 200));
            ("status", CText "active"); ("taken_at", CTime 700); ("paid_at", CNull)];
           [("id", CInt 1); ("user_id", CInt 1); ("amount", CNumeric (Num.of_Z 100));
            ("status", CText "active"); ("taken_at", CTime 700); ("paid_at", CNull)] ]).
Proof. vm_compute. split; reflexivity. Qed.

Lemma after_reconciled (e : event) (w : world) :
  faults w = [] -> keyed w -> Forall (owned_by w) (loans w) -> reconciled w ->
  faults (after e w) = [] /\ reconciled (after e w).
Proof.
  intros Hf Hk Ho Hr. destruct e as [c|s]; cbn [after].
  - destruct (serve_write c w false (or_introl Hf)) as [Hw Hq].
    split; [auto | exact (write_reconciled _ _ Hw Hk Ho Hr)].
  - split; [exact Hf | exact Hr].
Qed.

(** X5: When the requests are served one after the other, each answered
    before the next begins, and the store never fails, the balance of every
    user is what the loans of this user add up to: the default balance 50000,
    then one addition per loan row of the user, in the order of the table. *)
Theorem ledger_reconciles (es : list event) (t : Z) (ss : list string) :
  let w := run es (initDb t [] ss) in
  Forall (fun u => Users.balance u = Some (ledger u (loans w))) (users w).
Proof.
  intros w. apply List.Forall_forall. change (reconciled w).
  assert (H : forall w0, faults w0 = [] -> keyed w0 -> Forall (owned_by w0) (loans w0) ->
                reconciled w0 -> reconciled (run es w0)).
  { unfold run. induction es as [|e es IH]; intros w0 Hf Hk Ho Hr; cbn [fold_left];
      [exact Hr|].
    destruct (after_reconciled e w0 Hf Hk Ho Hr) as [Hf' Hr'].
    destruct (after_sound e w0 (conj Hk Ho)) as [Hk' Ho'].
    now apply IH. }
  destruct (initDb_sound t [] ss) as [Hk Ho].
  apply H; auto. intros u [].
Qed.

End Runs.

(** That the requests are served one after the other matters to the
    ledger. The handler of take-loan reads the balance (line 232) and
    writes the sum two statements later (line 240). Here are the statements
    of two requests of Alice for 100 each, the second read before the first
    has written: two loan rows are inserted, and the balance holds one
    credit. *)
Example overlapping_loans_lose_a_credit :
  let id := col (Example.logged_in Example.alice) "id" in
  let amt := parseFloat (JStr "100") in
  let read : M (list row) :=
    @with_id Reference.decimal_pg _ id
      (fun p => select_users ["monthly_income"; "balance"] (id_is p)) in
  let credit (user : row) : M number :=
    perform @with_id Reference.decimal_pg _ id (fun p => insert_loan p amt "active") ;;
    let newBalance := Num.add (parseFloat_or (col user "balance") Num.zero) amt in
    perform @with_id Reference.decimal_pg _ id (fun p => update_balance newBalance p) ;;
    ret newBalance in
  let both : M (number * number) :=
    await ur1 <- read ;;
    await user1 <- must (head ur1) ;;
    await ur2 <- read ;;
    await user2 <- must (head ur2) ;;
    await b1 <- credit user1 ;;
    await b2 <- credit user2 ;;
    ret (b1, b2) in
  let w' := snd (both Example.bank) in
  fst (both Example.bank) = Ok (Num.of_Z 50100, Num.of_Z 50100) /\
  map Loans.amount (loans w') = [Num.of_Z 100; Num.of_Z 100] /\
  map Users.balance (users w') = [Some (Num.of_Z 50100); Some (Num.of_Z 50000)] /\
  ledger Example.alice (loans w') = Num.of_Z 50200.
Proof. vm_compute. repeat split; reflexivity. Qed.

(** ** What the responses carry *)

Lemma yields_ret {A : Type} (Q : A -> Prop) (a : A) : Q a -> yields Q (ret a).
Proof. intros H w a' w' E. injection E as <- _. exact H. Qed.

Lemma yields_throw {A : Type} (Q : A -> Prop) : yields Q throw.
Proof. intros w a w' E. discriminate E. Qed.

Lemma yields_bind {A B : Type} (P : A -> Prop) (Q : B -> Prop) (m : M A)
    (k : A -> M B) :
  yields P m -> (forall a, P a -> yields Q (k a)) -> yields Q (bind m k).
Proof.
  intros Hm Hk w b w' E. unfold bind in E.
  destruct (m w) as [[a|] w1] eqn:Em; [|discriminate].
  exact (Hk a (Hm _ _ _ Em) _ _ _ E).
Qed.

Lemma yields_with_id {pg : Pg} {A : Type} (Q : A -> Prop) (c : cell)
    (q : option Z -> M A) :
  (forall p, yields Q (q p)) -> yields Q (with_id c q).
Proof.
  intros H. unfold with_id. destruct (int_param c); [apply H|].
  intros w a w' E. apply query_throw_run in E as [E _]. discriminate E.
Qed.

Lemma yields_any {A : Type} (m : M A) : yields (fun _ => True) m.
Proof. intros w a w' _. exact I. Qed.

Lemma yields_try_catch (Q : response -> Prop) (m : M response) (w : world) :
  yields Q m -> Q server_error -> Q (fst (try_catch m w)).
Proof.
  intros Hm He. unfold try_catch. destruct (m w) as [[r|] w'] eqn:E; cbn [fst].
  - exact (Hm _ _ _ E).
  - exact He.
Qed.

Ltac tight_step :=
  first
    [ apply yields_ret; repeat constructor
    | apply yields_throw
    | eapply yields_bind; [apply yields_any | intros ? _]
    | match goal with
      | |- yields _ (if ?b then _ else _) => destruct b
      | |- yields _ (match ?x with [] => _ | _ :: _ => _ end) => destruct x
      end ].

Section Disclosure.

Context {bcrypt : Bcrypt} {jwt : Jwt} {pg : Pg}.

Lemma signup_with_tight nid req : yields tight (signup_with nid req).
Proof. unfold signup_with. repeat tight_step. Qed.

Lemma signin_tight req w : tight (fst (signin req w)).
Proof.
  unfold signin. apply yields_try_catch; [|constructor].
  repeat tight_step.
Qed.

Lemma take_loan_tight req user : yields tight (take_loan req user).
Proof. unfold take_loan. repeat tight_step. Qed.

Lemma change_password_tight req user : yields tight (change_password req user).
Proof. unfold change_password. repeat tight_step. Qed.

Lemma select_loans_of_tight p : yields (Forall discreet) (select_loans_of p).
Proof.
  intros w rows w' E. unfold select_loans_of, query in E.
  assert (H : rows = map Loans.cells
                (sorted_by newer_first
                   (rev (List.filter (loan_of p) (loans (pop_fault w)))))).
  { destruct (faults w) as [|[] ?]; congruence. }
  rewrite H. apply Forall_map. apply List.Forall_forall. intros l _. reflexivity.
Qed.

Lemma list_loans_tight req user : yields tight (list_loans req user).
Proof.
  unfold list_loans. eapply yields_bind.
  - apply yields_with_id. apply select_loans_of_tight.
  - intros rows Hrows. apply yields_ret. exact Hrows.
Qed.

Lemma guarded_tight (handler : request -> row -> M response) req w :
  (forall u, yields tight (handler req (projected u))) ->
  tight (fst (guarded handler req w)).
Proof.
  intros Hh. unfold guarded.
  destruct (authMiddleware_cases req w)
    as [(code & m & w' & -> & _) | (auth & decoded & p & u & _ & _ & _ & _ & _ & _ & ->)].
  - constructor.
  - change (tight (fst (try_catch (handler req (projected u)) (pop_fault w)))).
    apply yields_try_catch; [apply Hh | constructor].
Qed.

(** X6: No response of any route carries a password or its hash: the rows a
    response holds (the user of a session, the user of [GET /api/user], the
    loans) have no column [password]. *)
Theorem no_route_discloses_password (c : call) (w : world) :
  Forall (fun r => assoc "password" r = None) (rows_of (payload (fst (serve c w)))).
Proof.
  change (tight (fst (serve c w))).
  destruct c as [req|req|req|req|req|req|req]; cbn [serve].
  - unfold signup. apply yields_try_catch; [apply signup_with_tight | constructor].
  - unfold signup_with_file.
    apply yields_try_catch; [apply signup_with_tight | constructor].
  - apply signin_tight.
  - apply guarded_tight. intros u. apply yields_ret. repeat constructor.
  - apply guarded_tight. intros u. apply take_loan_tight.
  - apply guarded_tight. intros u. apply list_loans_tight.
  - apply guarded_tight. intros u. apply change_password_tight.
Qed.

End Disclosure.

(** ** Registration and sign-in *)

Section Accounts.

Context {bcrypt : Bcrypt} {jwt : Jwt} {pg : Pg}.

Lemma signup_route (file : bool) (req : request) (w : world) :
  (if file then signup_with_file req w else signup req w) =
  try_catch (signup_with (nid_path file req) req) w.
Proof. destruct file; reflexivity. Qed.

(** X7: A sign-up that is answered with success has added exactly one row to
    [users]: the next id of the sequence, the name and the email as the store
    converts them, the bcrypt hash of the password (never the password), the
    income, date of birth and address or NULL, the path of the upload, the
    default balance 50000 and the time of the request. *)
Theorem signup_creates_account (file : bool) (req : request) (w : world)
    (r : response) (w' : world) :
  (if file then signup_with_file req w else signup req w) = (r, w') ->
  success r = true ->
  exists (b : body) (v : Users.t) (pw : string),
    req_body req = Some b /\
    r = Response 201 true (Some (Text "Account created successfully")) NoData /\
    users w' = users w ++ [v] /\ loans w' = loans w /\
    users_id_seq w' = users_id_seq w + 1 /\
    Users.id v = users_id_seq w + 1 /\
    to_varchar255 (prop b "name") = Some (Some (Users.name v)) /\
    to_varchar255 (prop b "email") = Some (Some (Users.email v)) /\
    prop b "password" = JStr pw /\ pw <> "" /\
    Users.password v = bcrypt_hash pw (hd "" (salts w)) /\
    to_numeric (or_null (prop b "income")) = Some (Users.monthly_income v) /\
    to_date (or_null (prop b "dob")) = Some (Users.date_of_birth v) /\
    Users.address v = param_text (or_null (prop b "address")) /\
    Users.nid_picture v = nid_path file req /\
    Users.balance v = Some (Num.of_Z 50000) /\
    Users.created_at v = Some (clock w) /\
    user_by_email (param_text (prop b "email")) w = None /\
    user_by_email (Some (Users.email v)) w = None.
Proof.
  rewrite signup_route. intros H Hs.
  apply signup_with_runs in H
    as [(Hf & _) | (b & n & e & pw & i & d & Hb & _ & _ & Hn & He & Hp & Hne & Hi & Hd & H1
                    & H2 & -> & Hu & Hl & Hq & _)];
    [congruence|].
  exists b. eexists. exists pw. repeat split; try eassumption; reflexivity.
Qed.

(** Sign-in with an email and a password that are strings and not empty,
    when the store does not fail. *)
Lemma signin_quiet (req : request) (w : world) (b : body) (e pw : string) :
  faults w = [] ->
  req_body req = Some b ->
  prop b "email" = JStr e -> e <> "" ->
  prop b "password" = JStr pw -> pw <> "" ->
  signin req w =
    (match user_by_email (Some e) w with
     | Some v =>
         if bcrypt_compare pw (Users.password v)
         then Response 200 true (Some (Text "Login successful"))
                (Session (safeUser v) (jwt_sign (token_payload v) (clock w)))
         else fail 401 "Invalid email or password"
     | None => fail 401 "Invalid email or password"
     end, w).
Proof.
  intros Hf Hb He Hene Hp Hpne. unfold signin, try_catch.
  rewrite (bind_must_some _ _ _ Hb), He, Hp.
  cbn [truthy param_text].
  destruct (String.eqb_spec e "") as [|_]; [contradiction|].
  destruct (String.eqb_spec pw "") as [|_]; [contradiction|].
  cbn [negb orb].
  unfold bind at 1. rewrite (select_users_quiet _ _ _ Hf).
  unfold user_by_email.
  destruct (List.find (email_is (Some e)) (users w)) as [v|] eqn:Hv.
  - destruct (find_some_filter _ _ _ Hv) as [rest ->]. cbn [map].
    replace (col (select all_user_columns (Users.cells v)) "password")
      with (CText (Users.password v)) by reflexivity.
    unfold bind at 1. cbn [compare as_string text_of]. unfold ret at 1.
    destruct (bcrypt_compare pw (Users.password v)); reflexivity.
  - rewrite (find_none_filter _ _ Hv). reflexivity.
Qed.

(** X8: Sign-in is answered with success only for the first row of [users]
    under the email, when the stored hash accepts the password; the session
    holds six columns of this row and a token signed, at the time of the
    request, for its id and email; the tables are left as they were. *)
Theorem signin_issues_token (req : request) (w : world) (r : response)
    (w' : world) :
  signin req w = (r, w') -> success r = true ->
  exists (b : body) (v : Users.t) (pw : string),
    req_body req = Some b /\
    user_by_email (param_text (prop b "email")) w = Some v /\
    prop b "password" = JStr pw /\
    bcrypt_compare pw (Users.password v) = true /\
    r = Response 200 true (Some (Text "Login successful"))
          (Session (safeUser v) (jwt_sign (token_payload v) (clock w))) /\
    users w' = users w /\ loans w' = loans w.
Proof.
  intros H Hs.
  apply signin_runs in H
    as [(Hf & _) | (b & v & pw & Hb & _ & Hv & Hp & _ & Hc & -> & ->)]; [congruence|].
  exists b, v, pw. repeat split; auto.
Qed.

(** X9: Sign-in does not tell an unknown email from a wrong password: both are
    answered 401 with the same message, and nothing changes. *)
Theorem signin_refusals_alike (req : request) (w : world) (b : body) (e pw : string) :
  faults w = [] ->
  req_body req = Some b ->
  prop b "email" = JStr e -> e <> "" ->
  prop b "password" = JStr pw -> pw <> "" ->
  user_by_email (Some e) w = None \/
  (exists v, user_by_email (Some e) w = Some v /\
             bcrypt_compare pw (Users.password v) = false) ->
  signin req w = (fail 401 "Invalid email or password", w).
Proof.
  intros Hf Hb He Hene Hp Hpne Hcase.
  rewrite (signin_quiet req w b e pw Hf Hb He Hene Hp Hpne).
  destruct Hcase as [-> | (v & -> & ->)]; reflexivity.
Qed.

(** X10: A registration whose name, email and password are strings that are
    not empty, whose fields the store converts, and whose email no row holds
    (as sent or as stored), is answered 201 when the store does not fail, and
    adds its row. *)
Theorem signup_succeeds (file : bool) (req : request) (w : world) (b : body)
    (n e pw n' e' : string) (i : option number) (d : option Z) :
  faults w = [] ->
  req_body req = Some b ->
  prop b "name" = JStr n -> n <> "" -> varchar255 n = Some n' ->
  prop b "email" = JStr e -> e <> "" -> varchar255 e = Some e' ->
  prop b "password" = JStr pw -> pw <> "" ->
  to_numeric (or_null (prop b "income")) = Some i ->
  to_date (or_null (prop b "dob")) = Some d ->
  user_by_email (Some e) w = None -> user_by_email (Some e') w = None ->
  (if file then signup_with_file req w else signup req w) =
    (Response 201 true (Some (Text "Account created successfully")) NoData,
     with_users
       (users w ++
          [new_user n' e' (bcrypt_hash pw (hd "" (salts w))) i d
             (param_text (or_null (prop b "address")))
             (nid_path file req) w])
       (with_users_id_seq (users_id_seq w + 1) (with_salts (tail (salts w)) w))).
Proof.
  intros Hf Hb Hn Hnne Hn' He Hene He' Hp Hpne Hi Hd Hu Hu'.
  rewrite signup_route. unfold try_catch, signup_with.
  rewrite (bind_must_some _ _ _ Hb), Hn, He, Hp. cbn [truthy param_text].
  destruct (String.eqb_spec n "") as [|_]; [contradiction|].
  destruct (String.eqb_spec e "") as [|_]; [contradiction|].
  destruct (String.eqb_spec pw "") as [|_]; [contradiction|].
  cbn [negb orb].
  unfold bind at 1. rewrite (select_users_quiet _ _ _ Hf).
  unfold user_by_email in Hu. rewrite (find_none_filter _ _ Hu).
  cbn [map length]. change (0 <? Z.of_nat 0) with false. cbv iota.
  unfold bind at 1. cbn [hash as_string]. cbv beta iota.
  unfold bind at 1. unfold insert_user.
  rewrite query_quiet by exact Hf.
  unfold to_varchar255 at 1 2. cbn [param_text]. rewrite Hn', He', Hi, Hd.
  cbn [users with_salts].
  assert (Hex : existsb (email_is (Some e')) (users w) = false).
  { unfold user_by_email in Hu'. destruct (existsb _ _) eqn:Ex; [|reflexivity].
    apply existsb_exists in Ex as (x & Hx & Hx').
    apply (List.find_none _ _ Hu') in Hx. congruence. }
  rewrite Hex. reflexivity.
Qed.

(** X11: Registration and sign-in fit together: after a successful sign-up
    under an email that the store keeps as sent, and for a hash that accepts
    the password it was made from and no other, sign-in with this email and
    password opens a session for the new row, and sign-in with any other
    password is answered 401. *)
Theorem signup_then_signin (file : bool) (req : request) (w w1 : world)
    (r : response) (b : body) (e pw : string) :
  ideal bcrypt ->
  (if file then signup_with_file req w else signup req w) = (r, w1) ->
  success r = true ->
  req_body req = Some b ->
  prop b "email" = JStr e -> varchar255 e = Some e ->
  prop b "password" = JStr pw ->
  faults w1 = [] ->
  exists v : Users.t,
    users w1 = users w ++ [v] /\ Users.id v = users_id_seq w + 1 /\
    forall (login : request) (lb : body),
      req_body login = Some lb ->
      prop lb "email" = JStr e ->
      (prop lb "password" = JStr pw ->
       signin login w1 =
         (Response 200 true (Some (Text "Login successful"))
            (Session (safeUser v) (jwt_sign (token_payload v) (clock w1))), w1)) /\
      (forall pw', prop lb "password" = JStr pw' -> pw' <> "" ->
                   pw' <> pw ->
                   signin login w1 = (fail 401 "Invalid email or password", w1)).
Proof.
  intros [Hacc Hrej] H Hs Hb He Hv Hp Hf.
  rewrite signup_route in H.
  apply signup_with_runs in H
    as [(Hfail & _) | (b0 & n & e0 & pw0 & i & d & Hb0 & _ & Te & Hn & He0 & Hp0 & Hne & Hi
                       & Hd & H1 & H2 & _ & Hu & _)];
    [congruence|].
  rewrite Hb in Hb0. injection Hb0 as <-.
  rewrite Hp in Hp0. injection Hp0 as <-.
  rewrite He in He0, H1, Te. unfold to_varchar255 in He0. cbn [param_text] in He0, H1.
  rewrite Hv in He0. injection He0 as <-.
  assert (Hene : e <> "") by (intros ->; discriminate Te).
  eexists. split; [exact Hu|]. split; [reflexivity|].
  assert (Hfind : user_by_email (Some e) w1 = Some
            (new_user n e (bcrypt_hash pw (hd "" (salts w))) i d
               (param_text (or_null (prop b "address")))
               (nid_path file req) w)).
  { unfold user_by_email in *. rewrite Hu.
    rewrite (find_app_none _ _ _ H1). simpl. now rewrite String.eqb_refl. }
  intros login lb Hlb Hle. split.
  - intros Hlp. rewrite (signin_quiet login w1 lb e pw Hf Hlb Hle Hene Hlp Hne), Hfind.
    cbn [Users.password new_user]. now rewrite Hacc.
  - intros pw' Hlp Hne' Hd'.
    rewrite (signin_quiet login w1 lb e pw' Hf Hlb Hle Hene Hlp Hne'), Hfind.
    cbn [Users.password new_user]. now rewrite (Hrej pw pw' _ (not_eq_sym Hd')).
Qed.

End Accounts.

Lemma signup_creates_account_witness :
  let req :=
    Request None (Some [("name", JStr "Carol"); ("email", JStr "carol@bank.io");
                  ("password", JStr "tea-party"); ("income", JStr "2500.50")])
      (Some "nid.png") in
  let out :=
    @signup_with_file Reference.plain_bcrypt Reference.decimal_pg req Example.bank in
  exists v : Users.t,
    users (snd out) = users Example.bank ++ [v] /\
    Users.id v = 3 /\ Users.email v = "carol@bank.io" /\
    Users.password v = "$2a$10$tea-party" /\
    Users.monthly_income v = Some (Lex.parse_float "2500.50") /\
    Users.nid_picture v = Some "/uploads/nid.png" /\
    Users.balance v = Some (Num.of_Z 50000).
Proof.
  intros req out.
  destruct (@signup_creates_account Reference.plain_bcrypt Reference.decimal_pg true req
              Example.bank (fst out) (snd out) eq_refl eq_refl)
    as (b & v & pw & Hb0 & _ & Hu & _ & _ & Hid & _ & He & Hp & _ & Hh & Hi & _ & _ & Hn
        & Hb & _).
  injection Hb0 as <-.
  exists v. repeat split; auto.
  - now injection He as <-.
  - injection Hp as <-. exact Hh.
  - now injection Hi as <-.
Defined.

Lemma signin_issues_token_witness :
  let login :=
    Request None (Some [("email", JStr "alice@bank.io"); ("password", JStr "wonderland")])
      None in
  exists v : Users.t,
    List.find (email_is (Some "alice@bank.io")) (users Example.bank) = Some v /\
    @signin Reference.plain_bcrypt Reference.unary_jwt Reference.decimal_pg login
      Example.bank =
      (Response 200 true (Some (Text "Login successful")) (Session (safeUser v) "jwt.x"),
       Example.bank).
Proof.
  intros login.
  destruct (@signin_issues_token Reference.plain_bcrypt Reference.unary_jwt
              Reference.decimal_pg login Example.bank
              (Response 200 true (Some (Text "Login successful"))
                 (Session (safeUser Example.alice) "jwt.x"))
              Example.bank eq_refl eq_refl)
    as (b & v & pw & Hb & Hv & _ & _ & Hr & _).
  injection Hb as <-.
  exists v. split; [exact Hv|].
  injection Hv as <-. reflexivity.
Defined.

Lemma signin_refusals_alike_witness :
  let login e pw := Request None (Some [("email", JStr e); ("password", JStr pw)]) None in
  let signin' :=
    @signin Reference.plain_bcrypt Reference.unary_jwt Reference.decimal_pg in
  signin' (login "mallory@bank.io" "wonderland") Example.bank =
    (fail 401 "Invalid email or password", Example.bank) /\
  signin' (login "alice@bank.io" "looking-glass") Example.bank =
    (fail 401 "Invalid email or password", Example.bank).
Proof.
  intros login signin'. split.
  - apply (@signin_refusals_alike Reference.plain_bcrypt Reference.unary_jwt
             Reference.decimal_pg _ Example.bank
             [("email", JStr "mallory@bank.io"); ("password", JStr "wonderland")]
             "mallory@bank.io" "wonderland");
      first [reflexivity | discriminate | left; reflexivity].
  - apply (@signin_refusals_alike Reference.plain_bcrypt Reference.unary_jwt
             Reference.decimal_pg _ Example.bank
             [("email", JStr "alice@bank.io"); ("password", JStr "looking-glass")]
             "alice@bank.io" "looking-glass");
      first [reflexivity | discriminate | right; exists Example.alice; split; reflexivity].
Defined.

Lemma signup_succeeds_witness :
  let req :=
    Request None (Some [("name", JStr "Carol"); ("email", JStr "carol@bank.io");
                  ("password", JStr "tea-party"); ("dob", JStr "1990-04-01")]) None in
  @signup Reference.plain_bcrypt Reference.decimal_pg req Example.bank =
    (Response 201 true (Some (Text "Account created successfully")) NoData,
     World
       [Example.alice; Example.bob;
        Users.mk 3 "Carol" "carol@bank.io" "$2a$10$tea-party" None (Some 19900401)
          None None (Some (Num.of_Z 50000)) (Some 200)]
       [] 3 0 200 [] []).
Proof.
  intros req.
  apply (@signup_succeeds Reference.plain_bcrypt Reference.decimal_pg false req
           Example.bank
           [("name", JStr "Carol"); ("email", JStr "carol@bank.io");
            ("password", JStr "tea-party"); ("dob", JStr "1990-04-01")]
           "Carol" "carol@bank.io" "tea-party" "Carol" "carol@bank.io"
           None (Some 19900401));
    first [reflexivity | discriminate].
Defined.

Lemma signup_then_signin_witness :
  let req :=
    Request None (Some [("name", JStr "Carol"); ("email", JStr "carol@bank.io");
                  ("password", JStr "tea-party")]) None in
  let login pw :=
    Request None (Some [("email", JStr "carol@bank.io"); ("password", JStr pw)]) None in
  let w1 := snd (@signup Reference.plain_bcrypt Reference.decimal_pg req Example.bank) in
  exists v : Users.t,
    users w1 = users Example.bank ++ [v] /\ Users.id v = 3 /\
    @signin Reference.plain_bcrypt Reference.unary_jwt Reference.decimal_pg
      (login "tea-party") w1 =
      (Response 200 true (Some (Text "Login successful"))
         (Session (safeUser v) (Reference.unary_sign (token_payload v) 200)), w1) /\
    @signin Reference.plain_bcrypt Reference.unary_jwt Reference.decimal_pg
      (login "teapot") w1 = (fail 401 "Invalid email or password", w1).
Proof.
  intros req login w1.
  destruct (@signup_then_signin Reference.plain_bcrypt Reference.unary_jwt
              Reference.decimal_pg false req Example.bank w1
              (fst (@signup Reference.plain_bcrypt Reference.decimal_pg req Example.bank))
              _ "carol@bank.io" "tea-party" plain_bcrypt_ideal eq_refl eq_refl eq_refl
              eq_refl eq_refl eq_refl eq_refl) as (v & Hu & Hid & H).
  exists v. split; [exact Hu|]. split; [exact Hid|]. split.
  - exact (proj1 (H (login "tea-party") _ eq_refl eq_refl) eq_refl).
  - apply (proj2 (H (login "teapot") _ eq_refl eq_refl) "teapot");
      [reflexivity | discriminate..].
Defined.


(** ** Requests that are refused *)

Section Refusals.

Context {bcrypt : Bcrypt} {jwt : Jwt} {pg : Pg}.

Lemma change_password_runs (req : request) (req_user : row) (w : world) r w' :
  try_catch (change_password req req_user) w = (r, w') ->
  loans w' = loans w /\
  ((success r = false /\ users w' = users w) \/
   (exists p h, int_param (col req_user "id") = Some p /\ success r = true /\
                users w' = repassworded p h (users w))).
Proof.
  intros H. unfold try_catch in H.
  destruct (change_password req req_user w) as [res w1] eqn:E.
  assert (Hres : res = Ok r \/ (res = Thrown /\ r = server_error))
    by (destruct res; injection H as <- <-; auto).
  assert (w' = w1) by (destruct res; congruence). subst w1. clear H.
  assert (Hfail : res = Thrown -> success r = false).
  { intros ->. destruct Hres as [?|[_ ->]]; [discriminate | reflexivity]. }
  assert (Hok : forall r0, res = Ok r0 -> r = r0).
  { intros r0 ->. destruct Hres as [Hres|[? _]]; [congruence | discriminate]. }
  unfold change_password in E.
  bind_step E Hb0; [apply must_ok in Hb0 as [-> _] | apply must_thrown in Hb0 as [-> _]];
    [|split; [reflexivity | left; auto]].
  destruct (negb _ || negb _).
  { done_step E. rewrite (Hok _ eq_refl). split; [reflexivity | left; auto]. }
  unfold with_id in E.
  destruct (int_param (col req_user "id")) as [p|] eqn:Hp.
  2:{ bind_step E Hq; apply query_throw_run in Hq as [Hq ->]; [discriminate Hq|].
      split; [reflexivity | left; auto]. }
  bind_step E Hs; apply select_users_world in Hs as [-> _];
    [|split; [reflexivity | left; auto]].
  bind_step E Hm; [apply must_ok in Hm as [-> _] | apply must_thrown in Hm as [-> _]];
    [|split; [reflexivity | left; auto]].
  bind_step E Hc; apply compare_world in Hc as [-> _];
    [|split; [reflexivity | left; auto]].
  match type of E with (if negb ?b then _ else _) _ = _ => destruct (negb b) end.
  { done_step E. rewrite (Hok _ eq_refl). split; [reflexivity | left; auto]. }
  bind_step E Hh; apply hash_world in Hh;
    destruct Hh as [(_ & Hr & ->) | (s & _ & Hr & ->)]; try discriminate Hr;
    [|split; [reflexivity | left; auto]].
  bind_step E Hu; apply update_password_world in Hu;
    destruct Hu as [(_ & Hr' & ->) | (_ & Hr' & ->)]; try discriminate Hr';
    [|split; [reflexivity | left; split; [now apply Hfail | reflexivity]]].
  done_step E. rewrite (Hok _ eq_refl). split; [reflexivity|]. right. eauto.
Qed.

(** A guarded route is refused by the gate, the tables being left as they
    were, or its handler runs for a row of [users]. *)
Lemma guarded_cases (handler : request -> row -> M response) (req : request)
    (w : world) :
  (exists code m w',
     guarded handler req w = (fail code m, w') /\ (w' = w \/ w' = pop_fault w)) \/
  (exists auth decoded p u,
     authorization req = Some auth /\ auth <> "" /\
     jwt_verify (strip_bearer auth) (clock w) = Some decoded /\
     head (faults w) <> Some true /\
     int_param (col decoded "id") = Some p /\
     user_with p w = Some u /\
     guarded handler req w = try_catch (handler req (projected u)) (pop_fault w)).
Proof.
  unfold guarded.
  destruct (authMiddleware_cases req w)
    as [(code & m & w' & -> & Hw)
       | (auth & decoded & p & u & Ha & Hne & Hv & Hq & Hp & Hu & ->)].
  - left. eauto.
  - right. exists auth, decoded, p, u. auto 10.
Qed.

(** X12: A request that is not answered with success changes no row of [users]
    and, with one exception, no row of [loans]: the exception is the 500 of a
    take-loan request whose INSERT was done and whose UPDATE failed, which
    leaves the loan row. *)
Theorem failures_write_nothing (c : call) (w : world) :
  success (fst (serve c w)) = false ->
  users (snd (serve c w)) = users w /\
  (loans (snd (serve c w)) = loans w \/
   exists req p amt,
     c = PostTakeLoan req /\ fst (serve c w) = server_error /\
     loans (snd (serve c w)) = loans w ++ [new_loan p amt w]).
Proof.
  intros Hs.
  destruct c as [req|req|req|req|req|req|req]; cbn [serve] in *.
  - unfold signup in *. destruct (try_catch _ w) as [r w'] eqn:E. cbn [fst snd] in *.
    apply signup_with_runs in E
      as [(_ & Hu & Hl) |
          (? & ? & ? & ? & ? & ? & _ & _ & _ & _ & _ & _ & _ & _ & _ & _ & _ & -> & _)];
      [auto | discriminate Hs].
  - unfold signup_with_file in *. destruct (try_catch _ w) as [r w'] eqn:E.
    cbn [fst snd] in *.
    apply signup_with_runs in E
      as [(_ & Hu & Hl) |
          (? & ? & ? & ? & ? & ? & _ & _ & _ & _ & _ & _ & _ & _ & _ & _ & _ & -> & _)];
      [auto | discriminate Hs].
  - destruct (signin req w) as [r w'] eqn:E. cbn [fst snd] in *.
    apply signin_runs in E
      as [(_ & [-> | ->]) | (? & ? & ? & _ & _ & _ & _ & _ & _ & -> & _)];
      [auto | auto | discriminate Hs].
  - unfold get_user in *.
    destruct (guarded_cases (fun req user => ret (Response 200 true None (User user))) req w)
      as [(code & m & w' & E & [-> | ->]) | (auth & decoded & p & u & _ & _ & _ & _ & _ & _ & E)];
      rewrite E in *; auto.
  - unfold post_take_loan in *.
    destruct (guarded_cases take_loan req w)
      as [(code & m & w' & E & [-> | ->]) | (auth & decoded & p & u & _ & _ & _ & _ & _ & _ & E)];
      rewrite E in *; auto.
    destruct (try_catch (take_loan req (projected u)) (pop_fault w)) as [r w'] eqn:E'.
    cbn [fst snd] in *. apply take_loan_runs in E'. cbv zeta in E'.
    destruct E' as [(_ & _ & Hu & Hl)
                   | [(b & v & _ & _ & _ & -> & Hu & Hl)
                     | (? & ? & _ & _ & _ & _ & _ & -> & _)]];
      [auto | | discriminate Hs].
    split; [exact Hu|]. right. eauto 10.
  - unfold get_loans in *.
    destruct (guarded_cases list_loans req w)
      as [(code & m & w' & E & [-> | ->]) | (auth & decoded & p & u & _ & _ & _ & _ & _ & _ & E)];
      rewrite E in *; auto.
    destruct (try_catch (list_loans req (projected u)) (pop_fault w)) as [r w'] eqn:E'.
    cbn [fst snd] in *.
    unfold try_catch, list_loans, bind, with_id in E'.
    destruct (int_param _); unfold select_loans_of, query, throw in E';
      destruct (faults (pop_fault w)) as [|[] ?]; injection E' as <- <-; auto.
  - unfold post_change_password in *.
    destruct (guarded_cases change_password req w)
      as [(code & m & w' & E & [-> | ->]) | (auth & decoded & p & u & _ & _ & _ & _ & _ & _ & E)];
      rewrite E in *; auto.
    destruct (try_catch (change_password req (projected u)) (pop_fault w)) as [r w'] eqn:E'.
    cbn [fst snd] in *.
    apply change_password_runs in E' as (Hl & [(_ & Hu) | (p' & h & _ & Hs' & _)]);
      [auto | congruence].
Qed.

End Refusals.

Lemma failures_write_nothing_witness :
  let serve' :=
    @serve Reference.plain_bcrypt Reference.unary_jwt Reference.decimal_pg in
  let refused := PostTakeLoan (Example.asking (JStr "30001")) in
  let failing := with_faults [false; false; false; true] Example.bank in
  users (snd (serve' refused Example.bank)) = users Example.bank /\
  loans (snd (serve' refused Example.bank)) = loans Example.bank /\
  users (snd (serve' (PostTakeLoan (Example.asking (JStr "100"))) failing)) =
    users Example.bank /\
  length (loans (snd (serve' (PostTakeLoan (Example.asking (JStr "100"))) failing))) = 1%nat.
Proof.
  intros serve' refused failing.
  destruct (@failures_write_nothing Reference.plain_bcrypt Reference.unary_jwt
              Reference.decimal_pg refused Example.bank eq_refl) as [H1 _].
  destruct (@failures_write_nothing Reference.plain_bcrypt Reference.unary_jwt
              Reference.decimal_pg (PostTakeLoan (Example.asking (JStr "100"))) failing
              eq_refl) as [H2 _].
  split; [exact H1 | split; [reflexivity | split; [exact H2 | reflexivity]]].
Defined.


(** ** Sessions *)

Lemma span_repeat (c a : ascii) (n : nat) (r : list ascii) :
  c <> a -> Reference.span c (repeat c n ++ a :: r) = (n, a :: r).
Proof.
  intros Hne. induction n as [|n IH]; simpl.
  - destruct (Ascii.eqb_spec c a); [contradiction | reflexivity].
  - rewrite Ascii.eqb_refl, IH. reflexivity.
Qed.

Lemma forallb_repeat (c : ascii) (n : nat) : forallb (Ascii.eqb c) (repeat c n) = true.
Proof. induction n as [|n IH]; simpl; [reflexivity|]. now rewrite Ascii.eqb_refl. Qed.

Lemma dated_expires (z : Z) : 0 <= z -> expires_in_24h Reference.dated_jwt z.
Proof.
  intros Hz p t t' Hp Ht Hle. simpl. unfold Reference.dated_sign. rewrite Hp.
  unfold Reference.dated_verify, Reference.dated_token.
  rewrite list_ascii_of_string_of_list_ascii. cbn [list_ascii_of_string app].
  rewrite span_repeat by discriminate.
  rewrite forallb_repeat, repeat_length, Z2Nat.id by exact Ht.
  cbn [Ascii.eqb Bool.eqb andb].
  destruct (t' <? t + 86400); [|reflexivity].
  eexists. split; [reflexivity|]. simpl. now rewrite Z2Nat.id.
Qed.

Section Sessions.

Context {bcrypt : Bcrypt} {jwt : Jwt} {pg : Pg}.

(** X13: A header that, once the prefix is removed, is empty or still holds
    white space is refused with 401: another scheme ("Basic abc"), a
    lower-case "bearer", or anything after the token. *)
Theorem header_with_space_is_refused (req : request) (w : world) (auth : string) :
  authorization req = Some auth -> auth <> "" ->
  strip_bearer auth = "" \/
  existsb Lex.is_space (list_ascii_of_string (strip_bearer auth)) = true ->
  authMiddleware req w = (Answered (fail 401 "Invalid or expired token"), w).
Proof.
  intros Ha Hne Hs. rewrite (authMiddleware_token req w auth Ha Hne).
  destruct (jwt_verify (strip_bearer auth) (clock w)) as [decoded|] eqn:Hv;
    [|reflexivity].
  exfalso. apply jwt_verify_compact in Hv as [Hne' Hall].
  destruct Hs as [Hs|Hs]; [contradiction|].
  apply existsb_exists in Hs as (c & Hc & Hsp).
  rewrite List.Forall_forall in Hall. rewrite (Hall c Hc) in Hsp. discriminate.
Qed.

Lemma find_present {A : Type} (p : A -> bool) (l : list A) (a : A) :
  In a l -> p a = true -> exists b, List.find p l = Some b.
Proof.
  intros Hin Hp. destruct (List.find p l) as [b|] eqn:E; [eauto|].
  apply (List.find_none _ _ E) in Hin. congruence.
Qed.

(** X14: A session lasts a day and nothing ends it sooner. After a sign-in
    that returned a token, for a user whose id is in the range of INTEGER,
    and whatever requests the server has served since (a change of password
    among them), a request that carries the token passes the gate as the user
    who signed in, as long as less than 24 hours have passed; from then on it
    is refused with 401. *)
Theorem session_lasts_a_day (login req : request) (w w1 : world) (m : option msg)
    (user : row) (token : string) (z : Z) (es : list event) :
  signin login w = (Response 200 true m (Session user token), w1) ->
  col user "id" = CInt z -> int4_min <= z <= int4_max ->
  expires_in_24h jwt z -> 0 <= clock w ->
  authorization req = Some ("Bearer " ++ token)%string ->
  head (faults (run es w1)) <> Some true ->
  if clock (run es w1) <? clock w + 86400
  then exists v, authMiddleware req (run es w1) = (Next (projected v), pop_fault (run es w1))
                 /\ Users.id v = z
  else authMiddleware req (run es w1) =
         (Answered (fail 401 "Invalid or expired token"), run es w1).
Proof.
  intros Hs Hz Hrange Hj Hc Ha Hq.
  apply signin_runs in Hs
    as [(Hf & _) | (b & v & pw & _ & _ & Hv & _ & _ & _ & Hr & ->)]; [discriminate Hf|].
  injection Hr as -> -> ->. cbn in Hz. injection Hz as <-.
  set (w2 := run es (pop_fault w)) in *.
  destruct (run_keeps es (pop_fault w)) as (Hk & _ & Hclock). fold w2 in Hk, Hclock.
  change (clock (pop_fault w)) with (clock w) in Hclock.
  set (tok := jwt_sign (token_payload v) (clock w)) in *.
  assert (Hcompact : compact tok).
  { pose proof (Hj (token_payload v) (clock w) (clock w) eq_refl Hc (Z.le_refl _)) as H.
    replace (clock w <? clock w + 86400) with true in H by (symmetry; apply Z.ltb_lt; lia).
    destruct H as (p' & H & _). exact (jwt_verify_compact _ _ _ H). }
  assert (Hne : ("Bearer " ++ tok)%string <> "") by discriminate.
  rewrite (authMiddleware_token req w2 _ Ha Hne), (strip_bearer_prefixed _ Hcompact).
  pose proof (Hj (token_payload v) (clock w) (clock w2) eq_refl Hc Hclock) as H.
  fold tok in H.
  destruct (clock w2 <? clock w + 86400).
  - destruct H as (p' & -> & ->). rewrite (int_param_int _ Hrange).
    unfold user_by_email in Hv. apply List.find_some in Hv as [Hin _].
    destruct (kept_rows (pop_fault w) w2 v Hk Hin) as (u' & Hu' & Hreg).
    apply registered_id in Hreg.
    destruct (find_present (id_is (Some (Users.id v))) (users w2) u' Hu') as [v2 Hv2].
    { simpl. now apply Z.eqb_eq. }
    unfold user_with. rewrite Hv2.
    apply quiet_head in Hq.
    exists v2. split.
    + destruct (faults w2) as [|[] ?]; [reflexivity | contradiction | reflexivity].
    + apply List.find_some in Hv2 as [_ Hid]. simpl in Hid. now apply Z.eqb_eq in Hid.
  - now rewrite H.
Qed.

End Sessions.

Lemma header_with_space_is_refused_witness :
  let gate h :=
    @authMiddleware Reference.unary_jwt Reference.decimal_pg
      (Request (Some h) None None) Example.bank in
  gate "Basic jwt.x" = (Answered (fail 401 "Invalid or expired token"), Example.bank) /\
  gate "bearer jwt.x" = (Answered (fail 401 "Invalid or expired token"), Example.bank) /\
  gate "Bearer jwt.x now" = (Answered (fail 401 "Invalid or expired token"), Example.bank) /\
  gate "Bearer " = (Answered (fail 401 "Invalid or expired token"), Example.bank).
Proof.
  intros gate.
  pose proof (fun h => @header_with_space_is_refused Reference.unary_jwt
                         Reference.decimal_pg (Request (Some h) None None)
                         Example.bank h eq_refl) as H.
  split; [|split; [|split]]; apply H;
    first [discriminate | right; reflexivity | left; reflexivity].
Defined.

Lemma session_lasts_a_day_witness :
  let login :=
    Request None (Some [("email", JStr "alice@bank.io"); ("password", JStr "wonderland")])
      None in
  let token := Reference.dated_token 1 200 in
  let req := Request (Some ("Bearer " ++ token)%string) None None in
  let change :=
    Request (Some ("Bearer " ++ token)%string)
      (Some [("oldPassword", JStr "wonderland"); ("newPassword", JStr "looking-glass")]) None in
  let run' :=
    @run Reference.plain_bcrypt Reference.dated_jwt Reference.decimal_pg in
  let soon := run' [Elapse 3600; Call (PostChangePassword change); Elapse 82799]
                Example.bank in
  let late := run' [Elapse 3600; Call (PostChangePassword change); Elapse 82800]
                Example.bank in
  map Users.password (users soon) = ["$2a$10$looking-glass"; "$2a$10$builder"] /\
  (exists v,
     @authMiddleware Reference.dated_jwt Reference.decimal_pg req soon =
       (Next (projected v), soon) /\
     Users.id v = 1) /\
  @authMiddleware Reference.dated_jwt Reference.decimal_pg req late =
    (Answered (fail 401 "Invalid or expired token"), late).
Proof.
  intros login token req change run' soon late.
  pose proof (fun es =>
    @session_lasts_a_day Reference.plain_bcrypt Reference.dated_jwt Reference.decimal_pg
      login req Example.bank Example.bank (Some (Text "Login successful"))
      (safeUser Example.alice) token 1 es eq_refl eq_refl
      ltac:(unfold int4_min, int4_max; lia)
      (dated_expires 1 ltac:(lia)) ltac:(simpl; lia) eq_refl) as H.
  split; [reflexivity|]. split.
  - apply (H [Elapse 3600; Call (PostChangePassword change); Elapse 82799]). discriminate.
  - apply (H [Elapse 3600; Call (PostChangePassword change); Elapse 82800]). discriminate.
Defined.


(** ** Loans, request after request *)

(** X15: The ceiling bounds each request, not what a user owes: a request that
    was accepted is accepted again, as often as it is sent, each time adding a
    loan row, as long as the store does not fail. *)
Theorem take_loan_again {pg : Pg} (req : request) (req_user : row) (w w' : world)
    (r : response) (n : nat) :
  try_catch (take_loan req req_user) w = (r, w') -> success r = true ->
  faults w' = [] ->
  let again w := snd (try_catch (take_loan req req_user) w) in
  success (fst (try_catch (take_loan req req_user) (Nat.iter n again w'))) = true /\
  length (loans (Nat.iter n again w')) = (length (loans w') + n)%nat.
Proof.
  intros H Hs Hf again.
  apply take_loan_runs in H. cbv zeta in H.
  destruct H as [(Hfail & _)
                | [(b & u & _ & _ & _ & -> & _)
                  | (b & u & Hb & Hp & Hu & Ht & Hg & _ & Hus & _)]];
    [congruence | discriminate Hs |].
  set (p := Some (Users.id u)) in *.
  set (amt := parseFloat (prop b "amount")) in *.
  assert (J : forall wx,
            faults wx = [] ->
            (exists ux, user_with p wx = Some ux /\ ceiling_of ux = ceiling_of u) ->
            success (fst (try_catch (take_loan req req_user) wx)) = true /\
            faults (again wx) = [] /\
            (exists ux, user_with p (again wx) = Some ux /\ ceiling_of ux = ceiling_of u) /\
            length (loans (again wx)) = S (length (loans wx))).
  { intros wx Hfx (ux & Hux & Hcx). unfold again.
    rewrite (take_loan_quiet req req_user wx Hfx), Hb, Hp. cbv zeta. fold p amt.
    rewrite Ht, Hux, Hcx, Hg. cbn [negb fst snd].
    split; [reflexivity|]. split; [exact Hfx|]. split.
    - unfold user_with in *. cbn [users with_users]. rewrite find_credited, Hux.
      cbn [option_map]. eauto.
    - cbn [loans with_users with_loans]. rewrite length_app. simpl. lia. }
  assert (J0 : exists ux, user_with p w' = Some ux /\ ceiling_of ux = ceiling_of u).
  { unfold user_with in *. rewrite Hus, find_credited, Hu. cbn [option_map]. eauto. }
  assert (Jn : faults (Nat.iter n again w') = [] /\
               (exists ux, user_with p (Nat.iter n again w') = Some ux /\
                           ceiling_of ux = ceiling_of u) /\
               length (loans (Nat.iter n again w')) = (length (loans w') + n)%nat).
  { induction n as [|n IH].
    - split; [exact Hf | split; [exact J0 | simpl; lia]].
    - change (Nat.iter (S n) again w') with (again (Nat.iter n again w')).
      destruct IH as (H1 & H2 & H3). destruct (J _ H1 H2) as (_ & H4 & H5 & H6).
      split; [exact H4 | split; [exact H5 | lia]]. }
  destruct Jn as (H1 & H2 & H3). destruct (J _ H1 H2) as (H4 & _). auto.
Qed.

Lemma take_loan_again_witness :
  let req := Example.asking (JStr "30000") in
  let ask := @take_loan Reference.decimal_pg req (Example.logged_in Example.alice) in
  let again w := snd (try_catch ask w) in
  let w3 := Nat.iter 2 again (again Example.bank) in
  ceiling_of Example.alice = Num.of_Z 30000 /\
  success (fst (try_catch ask w3)) = true /\
  length (loans w3) = (length (loans (again Example.bank)) + 2)%nat.
Proof.
  intros req ask again w3. split; [vm_compute; reflexivity|].
  assert (H1 : try_catch ask Example.bank =
               (Response 201 true (Some (Text "Loan approved"))
                  (NewBalance (Num.of_Z 80000)), again Example.bank))
    by (vm_compute; reflexivity).
  assert (H3 : faults (again Example.bank) = []) by (vm_compute; reflexivity).
  exact (@take_loan_again Reference.decimal_pg req (Example.logged_in Example.alice)
           Example.bank (again Example.bank) _ 2 H1 eq_refl H3).
Defined.

Section Composition.

Context {bcrypt : Bcrypt} {jwt : Jwt} {pg : Pg}.

(** What a guarded route does when the store does not fail and the token
    names a user. *)
Lemma guarded_quiet (handler : request -> row -> M response) (req : request)
    (w : world) (auth : string) (decoded : row) (p : option Z) (u : Users.t) :
  faults w = [] ->
  authorization req = Some auth -> auth <> "" ->
  jwt_verify (strip_bearer auth) (clock w) = Some decoded ->
  int_param (col decoded "id") = Some p ->
  user_with p w = Some u ->
  guarded handler req w = try_catch (handler req (projected u)) w.
Proof.
  intros Hf Ha Hne Hv Hp Hu. unfold guarded.
  rewrite (authMiddleware_token req w auth Ha Hne), Hv, Hf, Hp, Hu.
  now rewrite (pop_fault_none w Hf).
Qed.

(** X16: What a loan request wrote is what the next requests read: after a 201
    with [newBalance], [GET /api/user] shows this balance (as the NUMERIC
    value stored) and [GET /api/user/loans] lists the new loan. *)
Theorem loan_shows_in_account (req : request) (w w1 : world) (m : option msg)
    (newBalance : number) :
  post_take_loan req w = (Response 201 true m (NewBalance newBalance), w1) ->
  faults w1 = [] ->
  exists (user : row) (rows : list row) (b : body) (uid : Z),
    req_body req = Some b /\
    get_user req w1 = (Response 200 true None (User user), w1) /\
    col user "id" = CInt uid /\
    col user "balance" = CNumeric (numeric_of_number newBalance) /\
    get_loans req w1 = (Response 200 true None (LoanRows rows), w1) /\
    In [("id", CInt (loans_id_seq w + 1)); ("user_id", CInt uid);
        ("amount", CNumeric (numeric_of_number (parseFloat (prop b "amount"))));
        ("status", CText "active"); ("taken_at", CTime (clock w)); ("paid_at", CNull)]
      rows.
Proof.
  intros H Hf1. unfold post_take_loan in H.
  destruct (guarded_cases take_loan req w)
    as [(code & m' & w' & E & _)
       | (auth & decoded & p & u & Ha & Hne & Hv & _ & Hp & Hu & E)];
    rewrite E in H; [discriminate H|].
  destruct (found_id _ _ _ _ Hp Hu) as (-> & Hin & Hpu).
  assert (Hw : clock w1 = clock w).
  { destruct (take_loan_write req u (pop_fault w) true _ _ Hin H (or_intror eq_refl))
      as [Hw _].
    exact (write_clock _ _ _ Hw). }
  apply take_loan_runs in H. cbv zeta in H.
  destruct H as [(Hfail & _)
                | [(b & u0 & _ & _ & _ & Hr & _)
                  | (b & u0 & Hb & Hp0 & Hu0 & _ & _ & Hr & Hus & Hl)]];
    [discriminate Hfail | discriminate Hr |].
  injection Hr as -> ->.
  rewrite Hpu in Hp0. injection Hp0 as Hid.
  assert (u0 = u).
  { unfold user_with in *. simpl in Hu0. rewrite <- Hid in Hu0. simpl in Hu.
    congruence. }
  subst u0.
  set (nb := Num.add (balance_of u) (parseFloat (prop b "amount"))) in *.
  set (u1 := Users.set_balance (Some (numeric_of_number nb)) u).
  assert (Hu1 : user_with (Some (Users.id u)) w1 = Some u1).
  { unfold user_with in *. simpl in Hus. rewrite Hus, find_credited, Hu. reflexivity. }
  rewrite <- Hw in Hv.
  pose proof (guarded_quiet (fun req user => ret (Response 200 true None (User user)))
                req w1 auth decoded _ u1 Hf1 Ha Hne Hv Hp Hu1) as G1.
  pose proof (guarded_quiet list_loans req w1 auth decoded _ u1 Hf1 Ha Hne Hv Hp Hu1)
    as G2.
  assert (Hpu1 : int_param (col (projected u1) "id") = Some (Some (Users.id u)))
    by exact Hpu.
  exists (projected u1). eexists. exists b, (Users.id u).
  split; [exact Hb|]. split; [exact G1|]. split; [reflexivity|]. split; [reflexivity|].
  split.
  - unfold get_loans. rewrite G2.
    unfold try_catch, list_loans. rewrite (with_id_some _ _ _ Hpu1).
    unfold bind, select_loans_of. rewrite (query_quiet _ _ Hf1). reflexivity.
  - change (In (Loans.cells (new_loan (Some (Users.id u)) (parseFloat (prop b "amount")) w))
              (map Loans.cells
                 (sorted_by newer_first
                    (rev (List.filter (loan_of (Some (Users.id u))) (loans w1)))))).
    apply in_map.
    apply (Permutation_in _ (Permutation_sym (sorted_by_Permutation _ _))).
    apply in_rev. rewrite rev_involutive.
    apply filter_In. split.
    + rewrite Hl. apply in_or_app. right. left. reflexivity.
    + simpl. apply Z.eqb_refl.
Qed.

End Composition.

Lemma loan_shows_in_account_witness :
  let req := Example.asking (JStr "100.5") in
  let newBalance := Lex.parse_float "50100.5" in
  let w1 :=
    snd (@post_take_loan Reference.unary_jwt Reference.decimal_pg req Example.bank) in
  fst (@post_take_loan Reference.unary_jwt Reference.decimal_pg req Example.bank) =
    Response 201 true (Some (Text "Loan approved")) (NewBalance newBalance) /\
  exists (user : row) (rows : list row) (b : body) (uid : Z),
    req_body req = Some b /\
    @get_user Reference.unary_jwt Reference.decimal_pg req w1 =
      (Response 200 true None (User user), w1) /\
    col user "id" = CInt uid /\
    col user "balance" = CNumeric (numeric_of_number newBalance) /\
    @get_loans Reference.unary_jwt Reference.decimal_pg req w1 =
      (Response 200 true None (LoanRows rows), w1) /\
    In [("id", CInt (loans_id_seq Example.bank + 1)); ("user_id", CInt uid);
        ("amount", CNumeric (numeric_of_number (parseFloat (prop b "amount"))));
        ("status", CText "active"); ("taken_at", CTime (clock Example.bank));
        ("paid_at", CNull)]
      rows.
Proof.
  intros req newBalance w1.
  assert (H0 : @post_take_loan Reference.unary_jwt Reference.decimal_pg req
                 Example.bank =
               (Response 201 true (Some (Text "Loan approved")) (NewBalance newBalance),
                w1))
    by (vm_compute; reflexivity).
  assert (Hf : faults w1 = []) by (vm_compute; reflexivity).
  split; [exact (f_equal fst H0)|].
  exact (@loan_shows_in_account Reference.unary_jwt Reference.decimal_pg req
           Example.bank w1 (Some (Text "Loan approved")) newBalance H0 Hf).
Defined.


(** ** The rows of the others *)

Lemma lookup_updated (c : Users.t -> bool) (g : Users.t -> Users.t)
    (us : list Users.t) (i : nat) (v : Users.t) :
  us !! i = Some v -> c v = false ->
  map (fun u => if c u then g u else u) us !! i = Some v.
Proof.
  intros Hi Hc. change (map ?f us) with (f <$> us).
  rewrite list_lookup_fmap, Hi. simpl. now rewrite Hc.
Qed.

Section Others.

Context {bcrypt : Bcrypt} {jwt : Jwt} {pg : Pg}.

(** X17: A request changes no row of another user: a row of [users] whose id
    is not the id that the store reads in the token the request carries (if it
    carries one that verifies) is, after the request, where it was and as it
    was. *)
Theorem rows_of_others_untouched (c : call) (w : world) (i : nat) (v : Users.t) :
  users w !! i = Some v ->
  (forall auth decoded,
     authorization (request_of c) = Some auth ->
     jwt_verify (strip_bearer auth) (clock w) = Some decoded ->
     int_param (col decoded "id") <> Some (Some (Users.id v))) ->
  users (snd (serve c w)) !! i = Some v.
Proof.
  intros Hi Hother.
  assert (Hsame : forall w', users w' = users w -> users w' !! i = Some v)
    by (intros w' ->; exact Hi).
  assert (Hmore : forall w' x, users w' = users w ++ [x] -> users w' !! i = Some v).
  { intros w' x ->. now apply lookup_app_l_Some. }
  assert (Hnot : forall auth decoded p u,
            authorization (request_of c) = Some auth ->
            jwt_verify (strip_bearer auth) (clock w) = Some decoded ->
            int_param (col decoded "id") = Some p ->
            user_with p w = Some u ->
            id_is (Some (Users.id u)) v = false /\
            int_param (col (projected u) "id") = Some (Some (Users.id u))).
  { intros auth decoded p u Ha Hv Hp Hu. specialize (Hother auth decoded Ha Hv).
    destruct (found_id _ _ _ _ Hp Hu) as (-> & _ & Hpu). split; [|exact Hpu].
    simpl. apply Z.eqb_neq. congruence. }
  destruct c as [req|req|req|req|req|req|req]; cbn [serve request_of] in *.
  - unfold signup. destruct (try_catch _ w) as [r w'] eqn:E. cbn [snd].
    apply signup_with_users in E as [E|(x & E & _)]; eauto.
  - unfold signup_with_file. destruct (try_catch _ w) as [r w'] eqn:E. cbn [snd].
    apply signup_with_users in E as [E|(x & E & _)]; eauto.
  - apply Hsame, signin_users.
  - unfold get_user.
    destruct (guarded_cases (fun req user => ret (Response 200 true None (User user))) req w)
      as [(code & m & w' & E & [-> | ->])
         | (auth & decoded & p & u & _ & _ & _ & _ & _ & _ & E)];
      rewrite E; cbn [snd]; auto.
  - unfold post_take_loan.
    destruct (guarded_cases take_loan req w)
      as [(code & m & w' & E & [-> | ->])
         | (auth & decoded & p & u & Ha & _ & Hv & _ & Hp & Hu & E)];
      rewrite E; cbn [snd]; auto.
    destruct (Hnot _ _ _ _ Ha Hv Hp Hu) as [Hid Hpu].
    destruct (try_catch (take_loan req (projected u)) (pop_fault w)) as [r w'] eqn:E'.
    cbn [snd]. apply take_loan_runs in E'. cbv zeta in E'.
    destruct E' as [(_ & _ & Hus & _)
                   | [(b & u0 & _ & _ & _ & _ & Hus & _)
                     | (b & u0 & _ & Hp0 & _ & _ & _ & _ & Hus & _)]];
      auto.
    rewrite Hpu in Hp0. injection Hp0 as Hp0.
    rewrite Hus, <- Hp0. apply lookup_updated; [exact Hi | exact Hid].
  - unfold get_loans.
    destruct (guarded_cases list_loans req w)
      as [(code & m & w' & E & [-> | ->])
         | (auth & decoded & p & u & _ & _ & _ & _ & _ & _ & E)];
      rewrite E; cbn [snd]; auto.
    destruct (try_catch (list_loans req (projected u)) (pop_fault w)) as [r w'] eqn:E'.
    cbn [snd]. apply Hsame. exact (list_loans_users _ _ _ _ _ E').
  - unfold post_change_password.
    destruct (guarded_cases change_password req w)
      as [(code & m & w' & E & [-> | ->])
         | (auth & decoded & p & u & Ha & _ & Hv & _ & Hp & Hu & E)];
      rewrite E; cbn [snd]; auto.
    destruct (Hnot _ _ _ _ Ha Hv Hp Hu) as [Hid Hpu].
    destruct (try_catch (change_password req (projected u)) (pop_fault w)) as [r w'] eqn:E'.
    cbn [snd].
    apply change_password_runs in E' as (_ & [(_ & Hus) | (p' & h & Hp' & _ & Hus)]);
      auto.
    rewrite Hpu in Hp'. injection Hp' as <-.
    rewrite Hus. apply lookup_updated; [exact Hi | exact Hid].
Qed.

End Others.

Lemma rows_of_others_untouched_witness :
  let borrow := PostTakeLoan (Example.asking (JStr "100")) in
  let w1 :=
    snd (@serve Reference.plain_bcrypt Reference.unary_jwt Reference.decimal_pg borrow
           Example.bank) in
  users w1 !! 1%nat = Some Example.bob /\
  option_map Users.balance (users w1 !! 0%nat) = Some (Some (Num.of_Z 50100)).
Proof.
  intros borrow w1. split; [|reflexivity].
  apply (@rows_of_others_untouched Reference.plain_bcrypt Reference.unary_jwt
           Reference.decimal_pg borrow Example.bank 1 Example.bob eq_refl).
  intros auth decoded Ha Hv. injection Ha as <-. injection Hv as <-. discriminate.
Defined.

(** The id of a token is the one the store reads in it: a request whose
    token holds the id as the string "2" acts on the row of the user 2,
    and on no other. *)
Example text_id_acts_on_its_user :
  let req := Request (Some "Bearer jwt:2") (Some [("amount", JStr "-5")]) None in
  let out := @post_take_loan Reference.text_jwt Reference.decimal_pg req Example.bank in
  fst out = Response 201 true (Some (Text "Loan approved")) (NewBalance (Num.of_Z 49995)) /\
  map Users.balance (users (snd out)) = [Some (Num.of_Z 50000); Some (Num.of_Z 49995)] /\
  map Loans.user_id (loans (snd out)) = [Some 2].
Proof. repeat split; vm_compute; reflexivity. Qed.

(** ** Numbers that are not zero *)

Module RoundFacts.

Lemma shr_1_half (mrs : shr_record) (c : Z) :
  0 <= c -> 2 * c <= shr_m mrs -> c <= shr_m (shr_1 mrs).
Proof.
  destruct mrs as [m r s]. simpl. intros Hc H.
  destruct m as [|[p|p|]|p]; simpl; lia.
Qed.

Lemma iter_shr_1 (p : positive) (mrs : shr_record) (c : Z) :
  0 <= c -> 2 ^ Z.pos p * c <= shr_m mrs -> c <= shr_m (SpecFloat.iter_pos shr_1 p mrs).
Proof.
  revert mrs c. induction p as [p IH|p IH|]; intros mrs c Hc H; simpl.
  - apply IH; [exact Hc|]. apply IH; [nia|].
    apply shr_1_half; [nia|].
    replace (Z.pos p~1) with (Z.pos p + Z.pos p + 1) in H by lia.
    rewrite !Z.pow_add_r in H by lia. nia.
  - apply IH; [exact Hc|]. apply IH; [nia|].
    replace (Z.pos p~0) with (Z.pos p + Z.pos p) in H by lia.
    rewrite !Z.pow_add_r in H by lia. nia.
  - apply shr_1_half; [exact Hc|]. exact H.
Qed.

Lemma digits2_pos_le (p : positive) : 2 ^ (Z.pos (digits2_pos p) - 1) <= Z.pos p.
Proof.
  induction p as [p IH|p IH|]; simpl; [| |reflexivity].
  - rewrite Pos2Z.inj_succ.
    replace (Z.succ (Z.pos (digits2_pos p)) - 1) with (Z.pos (digits2_pos p) - 1 + 1) by lia.
    rewrite Z.pow_add_r by lia. lia.
  - rewrite Pos2Z.inj_succ.
    replace (Z.succ (Z.pos (digits2_pos p)) - 1) with (Z.pos (digits2_pos p) - 1 + 1) by lia.
    rewrite Z.pow_add_r by lia. lia.
Qed.

(** Shifting a positive mantissa to its format keeps it positive, as long
    as the exponent is not below the least one. *)
Lemma shr_fexp_pos (m e : Z) (l : location) :
  0 < m -> -1074 <= e ->
  0 < shr_m (fst (shr_fexp Num.prec Num.emax m e l)) /\
  -1074 <= snd (shr_fexp Num.prec Num.emax m e l).
Proof.
  intros Hm He. unfold shr_fexp, shr.
  destruct m as [|p|p]; try lia.
  set (k := fexp Num.prec Num.emax (Zdigits2 (Z.pos p) + e) - e).
  assert (Hk : k <= Z.pos (digits2_pos p) - 1).
  { unfold k, fexp, emin, Num.prec, Num.emax. simpl Zdigits2. lia. }
  assert (Hrec : shr_m (shr_record_of_loc (Z.pos p) l) = Z.pos p)
    by (destruct l as [|[]]; reflexivity).
  destruct k as [|q|q] eqn:Ek; cbn [fst snd].
  - rewrite Hrec. lia.
  - split; [|lia].
    assert (1 <= shr_m (SpecFloat.iter_pos shr_1 q (shr_record_of_loc (Z.pos p) l))); [|lia].
    apply iter_shr_1; [lia|]. rewrite Hrec, Z.mul_1_r.
    pose proof (digits2_pos_le p) as Hd.
    assert (2 ^ Z.pos q <= 2 ^ (Z.pos (digits2_pos p) - 1)); [|lia].
    apply Z.pow_le_mono_r; lia.
  - rewrite Hrec. lia.
Qed.

Lemma binary_round_aux_pos (neg : bool) (m e : Z) (l : location) :
  0 < m -> -1074 <= e ->
  Num.is_zero (binary_round_aux Num.prec Num.emax neg m e l) = false.
Proof.
  intros Hm He. unfold binary_round_aux.
  pose proof (shr_fexp_pos m e l Hm He) as [H1 H2].
  destruct (shr_fexp Num.prec Num.emax m e l) as [mrs1 e1]. cbn [fst snd] in H1, H2.
  assert (Hr : 0 < round_nearest_even (shr_m mrs1) (loc_of_shr_record mrs1)).
  { unfold round_nearest_even. destruct (loc_of_shr_record mrs1) as [|[]];
      try destruct (Z.even _); lia. }
  pose proof (shr_fexp_pos _ e1 loc_Exact Hr H2) as [H3 _].
  destruct (shr_fexp Num.prec Num.emax _ e1 loc_Exact) as [mrs2 e2]. cbn [fst] in H3.
  destruct (shr_m mrs2) as [|q|q]; try lia.
  destruct (e2 <=? _); reflexivity.
Qed.

(** The number nearest to a positive integer is not zero. *)
Lemma of_ratio_pos (neg : bool) (n : Z) :
  0 < n -> Num.is_zero (Num.of_ratio neg n 1) = false.
Proof.
  intros Hn. unfold Num.of_ratio. destruct n as [|p|p]; try lia.
  unfold SFdiv_core_binary.
  set (e := Z.min _ _).
  assert (He : -1074 <= e <= 0).
  { unfold e, fexp, emin, Num.prec, Num.emax. lia. }
  set (m := match 0 - 0 - e with Z.pos _ => _ | 0 => _ | Z.neg _ => _ end).
  assert (Hm : 0 < m).
  { unfold m. destruct (0 - 0 - e) as [|q|q] eqn:E; try lia.
    rewrite Z.shiftl_mul_pow2 by lia. nia. }
  pose proof (Z_div_mod m 1 ltac:(lia)) as H.
  destruct (Z.div_eucl m 1) as [q r]. destruct H as [H1 H2].
  apply binary_round_aux_pos; lia.
Qed.

End RoundFacts.

(** ** The text of a count reads back *)

Module CountFacts.

Lemma digit_cases (d : Z) :
  0 <= d < 10 ->
  d = 0 \/ d = 1 \/ d = 2 \/ d = 3 \/ d = 4 \/ d = 5 \/ d = 6 \/ d = 7 \/ d = 8 \/ d = 9.
Proof. lia. Qed.

Ltac each_digit H :=
  apply digit_cases in H;
  repeat (destruct H as [H|H]; [subst; try reflexivity|]); subst; try reflexivity.

Lemma hex_digit_of_char (d : Z) :
  0 <= d < 10 -> Lex.hex_digit_of (Reference.digit_char d) = Some d.
Proof. intros H. each_digit H. Qed.

Lemma value_in_snoc (base : Z) (ds : list Z) (d : Z) :
  Lex.value_in base (ds ++ [d]) = base * Lex.value_in base ds + d.
Proof. unfold Lex.value_in. now rewrite fold_left_app. Qed.

Lemma digits_from_spec (fuel : nat) (n : Z) (acc : list ascii) :
  0 <= n < 10 ^ Z.of_nat (S fuel) ->
  exists d ds,
    Forall (fun d => 0 <= d < 10) (d :: ds) /\
    Lex.value_in 10 (d :: ds) = n /\
    Reference.digits_from (S fuel) n acc = map Reference.digit_char (d :: ds) ++ acc.
Proof.
  revert n acc. induction fuel as [|fuel IH]; intros n acc Hn.
  - exists n, []. change (10 ^ Z.of_nat 1) with 10 in Hn. split; [|split].
    + repeat constructor; lia.
    + unfold Lex.value_in. simpl. lia.
    + cbn [Reference.digits_from]. replace (n <? 10) with true by (symmetry; apply Z.ltb_lt; lia).
      rewrite Z.mod_small by lia. reflexivity.
  - cbn [Reference.digits_from]. destruct (Z.ltb_spec n 10) as [Hlt|Hge].
    + exists n, []. split; [|split].
      * repeat constructor; lia.
      * unfold Lex.value_in. simpl. lia.
      * rewrite Z.mod_small by lia. reflexivity.
    + assert (Hq : 0 <= n / 10 < 10 ^ Z.of_nat (S fuel)).
      { split; [apply Z.div_pos; lia|].
        apply Z.div_lt_upper_bound; [lia|].
        replace (Z.of_nat (S (S fuel))) with (1 + Z.of_nat (S fuel)) in Hn by lia.
        rewrite Z.pow_add_r in Hn by lia. lia. }
      destruct (IH (n / 10) (Reference.digit_char (n mod 10) :: acc) Hq) as (d & ds & Hd & Hv & He).
      exists d, (ds ++ [n mod 10]). split; [|split].
      * rewrite app_comm_cons. apply Forall_app. split; [exact Hd|].
        repeat constructor; apply Z.mod_pos_bound; lia.
      * rewrite app_comm_cons, value_in_snoc, Hv.
        pose proof (Z.div_mod n 10 ltac:(lia)). lia.
      * change (Reference.digits_from (S fuel) (n / 10) (Reference.digit_char (n mod 10) :: acc) =
                map Reference.digit_char ((d :: ds) ++ [n mod 10]) ++ acc).
        rewrite He, map_app, <- app_assoc. reflexivity.
Qed.

Lemma decimal_digits_spec (n : Z) :
  0 <= n ->
  exists d ds,
    Forall (fun d => 0 <= d < 10) (d :: ds) /\
    Lex.value_in 10 (d :: ds) = n /\
    Reference.decimal_digits n = map Reference.digit_char (d :: ds).
Proof.
  intros Hn. unfold Reference.decimal_digits.
  destruct (digits_from_spec (Z.to_nat (Z.log2 n)) n []) as (d & ds & H1 & H2 & H3).
  - split; [exact Hn|].
    destruct (Z.eq_dec n 0) as [->|Hne]; [simpl; lia|].
    rewrite Nat2Z.inj_succ, Z2Nat.id by apply Z.log2_nonneg.
    pose proof (Z.log2_spec n ltac:(lia)) as [_ Hlt].
    assert (2 ^ Z.succ (Z.log2 n) <= 10 ^ Z.succ (Z.log2 n)); [|lia].
    apply Z.pow_le_mono_l. pose proof (Z.log2_nonneg n). lia.
  - exists d, ds. rewrite app_nil_r in H3. auto.
Qed.

Lemma radix_digits_chars (ds : list Z) :
  Forall (fun d => 0 <= d < 10) ds -> radix_digits 10 (map Reference.digit_char ds) = ds.
Proof.
  induction 1 as [|d ds Hd _ IH]; simpl; [reflexivity|].
  rewrite (hex_digit_of_char d Hd).
  replace (d <? 10) with true by (symmetry; apply Z.ltb_lt; lia).
  now rewrite IH.
Qed.

(** [parseInt] of the text of a count is the number nearest to the count. *)
Lemma parseInt_count_text (n : nat) :
  parseInt (count_text n) = Num.of_ratio false (Z.of_nat n) 1.
Proof.
  unfold parseInt, count_text. rewrite list_ascii_of_string_of_list_ascii.
  destruct (decimal_digits_spec (Z.of_nat n) ltac:(lia)) as (d & ds & Hd & Hv & ->).
  pose proof (radix_digits_chars _ Hd) as Hr.
  inversion Hd as [|? ? Hd0 Hds]; subst.
  assert (Hskip : Lex.skip_spaces (map Reference.digit_char (d :: ds)) =
                  map Reference.digit_char (d :: ds)).
  { cbn [map Lex.skip_spaces]. clear - Hd0. each_digit Hd0. }
  rewrite Hskip.
  assert (Hx : forall c, 0 <= c < 10 ->
                 Ascii.eqb (Reference.digit_char c) "x"
                 || Ascii.eqb (Reference.digit_char c) "X" = false).
  { intros c Hc. each_digit Hc. }
  assert (Hsign : (let '(neg, t1) :=
            match map Reference.digit_char (d :: ds) with
            | "-"%char :: r => (true, r)
            | "+"%char :: r => (false, r)
            | _ => (false, map Reference.digit_char (d :: ds))
            end in
          let '(base, t2) :=
            match t1 with
            | "0"%char :: c :: r =>
                if Ascii.eqb c "x" || Ascii.eqb c "X" then (16, r) else (10, t1)
            | _ => (10, t1)
            end in
          (neg, base, t2)) = (false, 10, map Reference.digit_char (d :: ds))).
  { cbn [map]. destruct ds as [|d1 ds'].
    - clear - Hd0. each_digit Hd0.
    - inversion Hds as [|? ? Hd1 _]; subst. specialize (Hx d1 Hd1). cbn [map].
      clear - Hd0 Hx. apply digit_cases in Hd0.
      repeat (destruct Hd0 as [Hd0|Hd0]; [subst d; try reflexivity|]);
        subst; try reflexivity.
      cbv beta iota. change (Reference.digit_char 0) with "0"%char. cbv iota. now rewrite Hx. }
  revert Hsign.
  match goal with |- context [match ?A with (neg, t1) => _ end] =>
    destruct A as [neg t1] end.
  match goal with |- context [match ?B with (base, t2) => _ end] =>
    destruct B as [base t2] end.
  intros H. injection H as -> -> ->.
  cbn [map] in Hr |- *. rewrite Hr, Hv. reflexivity.
Qed.

(** The count of a table reads as 0 exactly when the table is empty. *)
Lemma count_is_zero (n : nat) :
  Num.eqb (parseInt (count_text n)) Num.zero = match n with O => true | S _ => false end.
Proof.
  rewrite parseInt_count_text. destruct n as [|n]; [reflexivity|].
  pose proof (RoundFacts.of_ratio_pos false (Z.of_nat (S n)) ltac:(lia)) as H.
  destruct (Num.of_ratio false (Z.of_nat (S n)) 1) as [s|[]| |[] m e];
    try reflexivity; discriminate H.
Qed.

End CountFacts.

(** ** The directory *)

Lemma initDb_quiet (d : directory) (w : world) :
  faults w = [] -> Startup.initDb d w = (Ok (started d), w).
Proof.
  intros Hf. unfold Startup.initDb.
  do 6 (unfold bind at 1; rewrite (query_quiet _ _ Hf); unfold ret at 1).
  rewrite CountFacts.count_is_zero. unfold started.
  destruct (employees d) as [|e es]; cbn [length]; [|reflexivity].
  unfold bind at 1. rewrite (query_quiet _ _ Hf). reflexivity.
Qed.

Lemma query_ret_run {A : Type} (x : A) w res w' :
  query (ret x) w = (res, w') -> w' = pop_fault w /\ (res = Thrown \/ res = Ok x).
Proof.
  intros H. apply query_run in H as [[-> ->] | H]; [auto|].
  injection H as <- <-. auto.
Qed.

Lemma initDb_runs (d : directory) (w : world) res w' :
  Startup.initDb d w = (res, w') ->
  users w' = users w /\ loans w' = loans w /\
  (res = Thrown \/ res = Ok (started d)).
Proof.
  unfold Startup.initDb. intros E.
  do 5 (bind_step E Hm; apply query_ret_run in Hm as [-> Hm]; [clear Hm|auto]).
  bind_step E Hm; apply query_ret_run in Hm as [-> Hm]; [|auto].
  destruct Hm as [Hm|Hm]; [discriminate Hm|]. injection Hm as ->.
  rewrite CountFacts.count_is_zero in E. unfold started.
  destruct (employees d) as [|e es]; cbn [length] in E.
  - bind_step E Hm; apply query_ret_run in Hm as [-> Hm]; [|auto].
    done_step E. auto.
  - done_step E. auto.
Qed.

(** X18: [initDb] seeds the employees once. It never touches [users], [loans]
    or [cards]; when it returns, the employees are those that were there or,
    if there was none, the three of the source, so there is at least one; when
    the store does not fail it returns, and running it again (a restart of the
    server) changes nothing. *)
Theorem initDb_seeds_once (d : directory) (w : world) :
  (forall res w',
     Startup.initDb d w = (res, w') ->
     users w' = users w /\ loans w' = loans w /\
     (res = Thrown \/ res = Ok (started d))) /\
  (faults w = [] ->
   Startup.initDb d w = (Ok (started d), w) /\
   Startup.initDb (started d) w = (Ok (started d), w)) /\
  employees (started d) <> [] /\
  (employees d = [] ->
   map Employees.name (employees (started d)) =
     [Some "Mr. Rahim Ahmed"; Some "Ms. Jahanara Khatun"; Some "Mr. Shakil Hossain"]) /\
  (employees d <> [] -> started d = d) /\
  cards (started d) = cards d.
Proof.
  assert (Hne : employees (started d) <> []).
  { unfold started. destruct (employees d) eqn:E; [|rewrite E; discriminate].
    unfold seeded. cbn [employees]. rewrite E. discriminate. }
  assert (Hidem : started (started d) = started d).
  { unfold started at 1. destruct (employees (started d)); [contradiction | reflexivity]. }
  split; [exact (initDb_runs d w)|].
  split; [|split; [exact Hne|split; [|split]]].
  - intros Hf. split; [exact (initDb_quiet d w Hf)|].
    rewrite <- Hidem at 2. exact (initDb_quiet (started d) w Hf).
  - unfold started. intros E. rewrite E. unfold seeded. cbn [employees]. rewrite E.
    reflexivity.
  - unfold started. destruct (employees d); [contradiction | reflexivity].
  - unfold started. destruct (employees d); reflexivity.
Qed.





(** The employees of a server started on empty tables. *)
Example employees_after_initDb :
  get_employees (started (Directory [] [] 0)) (initDb 0 [] []) =
    (Listed "employees"
       [ [("id", CInt 1); ("name", CText "Mr. Rahim Ahmed"); ("role", CText "Manager");
          ("email", CText "rahim@efportal.com")];
         [("id", CInt 2); ("name", CText "Ms. Jahanara Khatun");
          ("role", CText "Customer Support"); ("email", CText "jahanara@efportal.com")];
         [("id", CInt 3); ("name", CText "Mr. Shakil Hossain");
          ("role", CText "Loan Officer"); ("email", CText "shakil@efportal.com")] ],
     initDb 0 [] []).
Proof. vm_compute. reflexivity. Qed.

Section CardRoutes.

Context {jwt : Jwt} {pg : Pg}.


End CardRoutes.

(** ** Statuses *)

Ltac coherent_step :=
  first
    [ apply yields_ret;
      first [ left; split; [reflexivity | first [left; reflexivity | right; reflexivity]]
            | right; split; [reflexivity | split; [|discriminate]];
              first [ left; reflexivity | right; left; reflexivity
                    | right; right; reflexivity ] ]
    | apply yields_throw
    | eapply yields_bind; [apply yields_any | intros ? _]
    | match goal with
      | |- yields _ (if ?b then _ else _) => destruct b
      | |- yields _ (match ?x with [] => _ | _ :: _ => _ end) => destruct x
      end ].

Section Statuses.

Context {bcrypt : Bcrypt} {jwt : Jwt} {pg : Pg}.

Lemma coherent_fail (code : Z) (m : string) :
  code = 400 \/ code = 401 \/ code = 500 -> coherent (fail code m).
Proof. intros H. right. split; [reflexivity | split; [exact H | discriminate]]. Qed.

Lemma authMiddleware_coherent req w r w' :
  authMiddleware req w = (Answered r, w') -> coherent r.
Proof.
  unfold authMiddleware.
  assert (H401 : forall m, coherent (fail 401 m)) by (intros; apply coherent_fail; auto).
  assert (H500 : coherent server_error) by (apply coherent_fail; auto).
  destruct (authorization req) as [auth|];
    [|intros G; injection G as <- _; apply H401].
  destruct (String.eqb auth ""); [intros G; injection G as <- _; apply H401|].
  unfold try_or, verifyJwt.
  destruct (jwt_verify _ _); [|intros G; injection G as <- _; apply H401].
  unfold bind, with_id.
  destruct (int_param _); unfold select_users, query, throw;
    destruct (faults w) as [|[] ?]; try destruct (map _ _); intros G;
    first [discriminate G | injection G as <- _; first [apply H401 | apply H500]].
Qed.

Lemma guarded_coherent (handler : request -> row -> M response) req w :
  (forall u, yields coherent (handler req (projected u))) ->
  coherent (fst (guarded handler req w)).
Proof.
  intros Hh. unfold guarded.
  destruct (authMiddleware req w) as [[r|user] w'] eqn:G.
  - exact (authMiddleware_coherent _ _ _ _ G).
  - destruct (authMiddleware_cases req w)
      as [(code & m & w1 & E & _) | (auth & decoded & p & u & _ & _ & _ & _ & _ & _ & E)];
      rewrite E in G; [discriminate G|].
    injection G as <- <-.
    apply yields_try_catch; [apply Hh | apply coherent_fail; auto].
Qed.

(** X21: The flag [success] of a response agrees with its status, on every
    route and whatever the store does: a response is 200 or 201 with [success:
    true], or 400, 401 or 500 with [success: false] and a message. *)
Theorem status_agrees_with_success (c : call) (w : world) :
  let r := fst (serve c w) in
  (success r = true /\ (status r = 200 \/ status r = 201)) \/
  (success r = false /\ (status r = 400 \/ status r = 401 \/ status r = 500) /\
   message r <> None).
Proof.
  cbv zeta. change (coherent (fst (serve c w))).
  destruct c as [req|req|req|req|req|req|req]; cbn [serve].
  - unfold signup. apply yields_try_catch; [|apply coherent_fail; auto].
    unfold signup_with. repeat coherent_step.
  - unfold signup_with_file. apply yields_try_catch; [|apply coherent_fail; auto].
    unfold signup_with. repeat coherent_step.
  - unfold signin. apply yields_try_catch; [|apply coherent_fail; auto].
    repeat coherent_step.
  - apply guarded_coherent. intros u. repeat coherent_step.
  - apply guarded_coherent. intros u. unfold take_loan. repeat coherent_step.
  - apply guarded_coherent. intros u. unfold list_loans. repeat coherent_step.
  - apply guarded_coherent. intros u. unfold change_password. repeat coherent_step.
Qed.

(** X22: The routes that read do not write. Sign-in, [GET /api/user] and [GET
    /api/user/loans] leave the world as it was, but for the queries they made:
    the tables, the sequences, the clock and the salts are unchanged. *)
Theorem reads_write_nothing (req : request) (w : world) :
  let queried w' := w' = w \/ w' = pop_fault w \/ w' = pop_fault (pop_fault w) in
  queried (snd (signin req w)) /\
  queried (snd (get_user req w)) /\
  queried (snd (get_loans req w)).
Proof.
  cbv zeta. split; [|split].
  - destruct (signin req w) as [r w'] eqn:E. cbn [snd].
    apply signin_runs in E
      as [(_ & [-> | ->]) | (? & ? & ? & _ & _ & _ & _ & _ & _ & _ & ->)];
      auto.
  - unfold get_user.
    destruct (guarded_cases (fun req user => ret (Response 200 true None (User user))) req w)
      as [(code & m & w' & E & [-> | ->]) | (auth & decoded & p & u & _ & _ & _ & _ & _ & _ & E)];
      rewrite E; cbn [snd]; auto.
  - unfold get_loans.
    destruct (guarded_cases list_loans req w)
      as [(code & m & w' & E & [-> | ->]) | (auth & decoded & p & u & _ & _ & _ & _ & _ & _ & E)];
      rewrite E; cbn [snd]; auto.
    unfold try_catch, list_loans, bind, with_id.
    destruct (int_param _); unfold select_loans_of, query, throw;
      destruct (faults (pop_fault w)) as [|[] ?]; cbn [snd]; auto.
Qed.

End Statuses.
